(** * t45_planner: the arresting-gear indexer of find_arresting_gear_airfields.py

    A shallow embedding of the note parser, of the XML indexers and of the
    regular expressions they use, with the properties of the specification
    proved (or refuted) on it.

    Conventions of the model.
    - A Python [str] is a [string]; a character is read as a code point below
      256.  The character classes [\s], [\d], [\w] are those of Python's
      Unicode-aware [re] restricted to that range.
    - A Python [int] is a [Z], [None] is the [None] of [option].
    - A [dict] is an insertion-ordered association list ([Dict] below):
      the order of [items()] is observable in [index_runways].
    - An ElementTree element is a finite tree ([elem]); [iterparse] is the
      list of its start and end events, and an element that the consumer
      has cleared shows up cleared in the later events of its ancestors. *)

From Stdlib Require Import String Ascii List Bool Arith ZArith Lia Sorted.
Import ListNotations.
Local Open Scope string_scope.
Local Open Scope list_scope.
Set Warnings "-register-all".

(* ================================================================== *)
(** ** Characters and strings *)

Module Chars.

Definition code (c : ascii) : nat := nat_of_ascii c.

Definition between (lo hi : nat) (c : ascii) : bool :=
  Nat.leb lo (code c) && Nat.leb (code c) hi.

Definition is_digit (c : ascii) : bool := between 48 57 c.
Definition is_upper (c : ascii) : bool := between 65 90 c.
Definition is_lower (c : ascii) : bool := between 97 122 c.
Definition is_alpha (c : ascii) : bool := is_upper c || is_lower c.

(** [str.isspace] on code points below 256: tab, LF, VT, FF, CR, the four
    separators 0x1c-0x1f, space, NEL (0x85) and the no-break space (0xa0).
    Both [str.strip()] and the class [\s] use it. *)
Definition is_space (c : ascii) : bool :=
  between 9 13 c || between 28 32 c || Nat.eqb (code c) 133 || Nat.eqb (code c) 160.

(** Alphanumeric code points of Latin-1 above ASCII, as [str.isalnum] has
    them: the ordinal indicators, micro sign, superscript digits, vulgar
    fractions and the accented letters. *)
Definition is_latin1_alnum (c : ascii) : bool :=
  Nat.eqb (code c) 170 || Nat.eqb (code c) 178 || Nat.eqb (code c) 179 || Nat.eqb (code c) 181
  || Nat.eqb (code c) 185 || Nat.eqb (code c) 186 || between 188 190 c
  || between 192 214 c || between 216 246 c || between 248 255 c.

(** The class [\w]. *)
Definition is_word (c : ascii) : bool :=
  is_alpha c || is_digit c || Nat.eqb (code c) 95 || is_latin1_alnum c.

Definition upper_char (c : ascii) : ascii :=
  if is_lower c then ascii_of_nat (code c - 32) else c.
Definition lower_char (c : ascii) : ascii :=
  if is_upper c then ascii_of_nat (code c + 32) else c.

(** Equality of characters under [re.IGNORECASE]. *)
Definition ci_eq (a b : ascii) : bool := Ascii.eqb (lower_char a) (lower_char b).

End Chars.
Import Chars.

Module Str.

(** [s.upper()]; it is only applied to a matched gear code, which is made
    of ASCII letters, digits and hyphens. *)
Fixpoint upper (s : string) : string :=
  match s with
  | EmptyString => EmptyString
  | String c s' => String (upper_char c) (upper s')
  end.

Fixpoint lstrip (s : string) : string :=
  match s with
  | String c s' => if is_space c then lstrip s' else s
  | EmptyString => EmptyString
  end.

Fixpoint rstrip (s : string) : string :=
  match s with
  | EmptyString => EmptyString
  | String c s' =>
      match rstrip s' with
      | EmptyString => if is_space c then EmptyString else String c EmptyString
      | r => String c r
      end
  end.

(** [s.strip()] *)
Definition strip (s : string) : string := rstrip (lstrip s).

(** Python truthiness of a [str]. *)
Definition truthy (s : string) : bool :=
  match s with EmptyString => false | _ => true end.

(** [s or None] *)
Definition or_none (s : string) : option string :=
  if truthy s then Some s else None.

(** [o or ""] for an optional string. *)
Definition or_empty (o : option string) : string :=
  match o with Some s => s | None => EmptyString end.

(** Truthiness of an optional string ([None] and [""] are falsy). *)
Definition truthy_opt (o : option string) : bool := truthy (or_empty o).

(** [s.startswith(p)] *)
Definition startswith (p s : string) : bool := String.prefix p s.

(** [s.endswith(p)] *)
Fixpoint endswith (p s : string) : bool :=
  String.eqb p s ||
  match s with
  | EmptyString => false
  | String _ s' => endswith p s'
  end.

(** [p in s] *)
Fixpoint contains (p s : string) : bool :=
  String.prefix p s ||
  match s with
  | EmptyString => false
  | String _ s' => contains p s'
  end.

(** The part of [s] after the first occurrence of the character [c]
    ([s.split(c, 1)[1]]), when there is one. *)
Fixpoint after_first (c : ascii) (s : string) : option string :=
  match s with
  | EmptyString => None
  | String x s' => if Ascii.eqb x c then Some s' else after_first c s'
  end.

(** [s.split()]: the maximal runs of non-space characters. *)
Fixpoint split_ws_aux (cur : string) (s : string) : list string :=
  let flush := if truthy cur then [cur] else [] in
  match s with
  | EmptyString => flush
  | String c s' =>
      if is_space c then flush ++ split_ws_aux EmptyString s'
      else split_ws_aux (cur ++ String c EmptyString) s'
  end.
Definition split_ws (s : string) : list string := split_ws_aux EmptyString s.

(** [s.replace(old, new)] for a non-empty [old]: non-overlapping
    occurrences, left to right.  [skip] counts the characters of an
    occurrence that are still to be dropped. *)
Fixpoint replace_from (old new : string) (skip : nat) (s : string) : string :=
  match skip with
  | S k =>
      match s with
      | EmptyString => EmptyString
      | String _ s' => replace_from old new k s'
      end
  | O =>
      match s with
      | EmptyString => EmptyString
      | String c s' =>
          if String.prefix old s
          then new ++ replace_from old new (String.length old - 1) s'
          else String c (replace_from old new O s')
      end
  end.
Definition replace (old new s : string) : string := replace_from old new O s.

(** Every character of [s] satisfies [p]. *)
Fixpoint forall_chars (p : ascii -> bool) (s : string) : bool :=
  match s with
  | EmptyString => true
  | String c s' => p c && forall_chars p s'
  end.

(** A non-empty token without white space, as [split()] yields them. *)
Definition is_token (s : string) : bool :=
  truthy s && forall_chars (fun c => negb (is_space c)) s.

(** [int(x)] on a string of decimal digits. *)
Definition digit_val (c : ascii) : Z := Z.of_nat (code c - 48).
Fixpoint int_digits_acc (acc : Z) (s : string) : Z :=
  match s with
  | EmptyString => acc
  | String c s' => int_digits_acc (10 * acc + digit_val c)%Z s'
  end.
Definition int_of_digits (s : string) : Z := int_digits_acc 0%Z s.

End Str.

(* ================================================================== *)
(** ** Regular expressions, with the backtracking order of Python's [re] *)

Module Re.

(** The fragment of the pattern language that the program uses.  A
    repetition only ever applies to a single character class in these
    patterns ([\s*], [\s+], [\d{2,5}], [[^']+], [.+]), so [Many] is
    the greedy repetition of a class. *)
Inductive re : Type :=
| Eps  : re
| Cls  : (ascii -> bool) -> re
| Seq  : re -> re -> re
| Alt  : re -> re -> re
| Many : (ascii -> bool) -> nat -> option nat -> re
| Grp  : nat -> re -> re
| Wb   : re                      (* \b *)
| Bol  : re                      (* ^  *)
| Eol  : re.                     (* $  *)

(** A position in the subject: the character before it, the text after it,
    and the groups captured so far (most recent first). *)
Record pos : Type := mkPos {
  prev : option ascii;
  rest : string;
  caps : list (nat * string)
}.

Definition word_before (p : pos) : bool :=
  match prev p with Some c => is_word c | None => false end.
Definition word_after (p : pos) : bool :=
  match rest p with String c _ => is_word c | EmptyString => false end.

(** The text between two positions of the same subject. *)
Definition consumed (s0 s1 : string) : string :=
  String.substring 0 (String.length s0 - String.length s1) s0.

Definition more (mx : option nat) : bool :=
  match mx with Some O => false | _ => true end.
Definition dec (mx : option nat) : option nat :=
  match mx with Some n => Some (Nat.pred n) | None => None end.

(** Greedy repetition: the longest run first, then the shorter ones. *)
Fixpoint many (p : ascii -> bool) (mn : nat) (mx : option nat)
         (pv : option ascii) (cs : list (nat * string)) (s : string)
         {struct s} : list pos :=
  let stop := match mn with O => [mkPos pv s cs] | S _ => [] end in
  match s with
  | String c s' =>
      if p c && more mx
      then many p (Nat.pred mn) (dec mx) (Some c) cs s' ++ stop
      else stop
  | EmptyString => stop
  end.

(** All the ways [r] matches at a position, in the order in which a
    backtracking matcher tries them: the head is the match Python finds. *)
Fixpoint mt (r : re) (st : pos) : list pos :=
  match r with
  | Eps => [st]
  | Cls p =>
      match rest st with
      | String c s' => if p c then [mkPos (Some c) s' (caps st)] else []
      | EmptyString => []
      end
  | Seq r1 r2 => flat_map (mt r2) (mt r1 st)
  | Alt r1 r2 => mt r1 st ++ mt r2 st
  | Many p mn mx => many p mn mx (prev st) (caps st) (rest st)
  | Grp n r1 =>
      map (fun e => mkPos (prev e) (rest e)
                      ((n, consumed (rest st) (rest e)) :: caps e))
          (mt r1 st)
  | Wb => if xorb (word_before st) (word_after st) then [st] else []
  | Bol => match prev st with None => [st] | Some _ => [] end
  | Eol =>
      match rest st with
      | EmptyString => [st]
      | String c EmptyString => if Ascii.eqb c "010" then [st] else []
      | _ => []
      end
  end.

(** A match object: the matched text, the captured groups, and the number
    of characters it spans. *)
Record mobj : Type := mkM {
  whole : string;
  groups : list (nat * string);
  span : nat
}.

(** [m.group(n)], [None] when the group did not take part. *)
Fixpoint assoc_nat (n : nat) (l : list (nat * string)) : option string :=
  match l with
  | [] => None
  | (k, v) :: l' => if Nat.eqb k n then Some v else assoc_nat n l'
  end.
Definition group (n : nat) (m : mobj) : option string := assoc_nat n (groups m).

(** The match starting exactly at this position, if any. *)
Definition match_at (r : re) (pv : option ascii) (s : string) : option mobj :=
  match mt r (mkPos pv s []) with
  | e :: _ =>
      Some (mkM (consumed s (rest e)) (caps e)
                (String.length s - String.length (rest e)))
  | [] => None
  end.

(** [re.match] *)
Definition re_match (r : re) (s : string) : option mobj := match_at r None s.

(** [re.search]: the leftmost position with a match. *)
Fixpoint search_from (r : re) (pv : option ascii) (s : string) : option mobj :=
  match match_at r pv s with
  | Some m => Some m
  | None =>
      match s with
      | EmptyString => None
      | String c s' => search_from r (Some c) s'
      end
  end.
Definition search (r : re) (s : string) : option mobj := search_from r None s.

(** [re.finditer]: the non-overlapping matches, left to right.  [skip]
    counts the characters of the previous match still to be passed.  After
    an empty match the scan moves on by one character; none of the
    program's patterns matches the empty string. *)
Fixpoint finditer_from (r : re) (skip : nat) (pv : option ascii) (s : string)
  : list mobj :=
  match skip with
  | S k =>
      match s with
      | EmptyString => []
      | String c s' => finditer_from r k (Some c) s'
      end
  | O =>
      match match_at r pv s with
      | Some m =>
          m :: match s with
               | EmptyString => []
               | String c s' => finditer_from r (Nat.pred (span m)) (Some c) s'
               end
      | None =>
          match s with
          | EmptyString => []
          | String c s' => finditer_from r O (Some c) s'
          end
      end
  end.
Definition finditer (r : re) (s : string) : list mobj := finditer_from r O None s.

(** [re.findall] for a pattern with exactly one group: the group's text. *)
Definition findall1 (r : re) (s : string) : list string :=
  map (fun m => Str.or_empty (group 1 m)) (finditer r s).

(** [re.sub(r, repl, s)] with a function [repl] of the match object. *)
Fixpoint sub_from (r : re) (repl : mobj -> string) (skip : nat)
         (pv : option ascii) (s : string) : string :=
  match skip with
  | S k =>
      match s with
      | EmptyString => EmptyString
      | String c s' => sub_from r repl k (Some c) s'
      end
  | O =>
      match match_at r pv s with
      | Some m =>
          repl m ++
          match s with
          | EmptyString => EmptyString
          | String c s' =>
              match span m with
              | O => String c (sub_from r repl O (Some c) s')
              | S k => sub_from r repl k (Some c) s'
              end
          end
      | None =>
          match s with
          | EmptyString => EmptyString
          | String c s' => String c (sub_from r repl O (Some c) s')
          end
      end
  end.
Definition sub (r : re) (repl : mobj -> string) (s : string) : string :=
  sub_from r repl O None s.

(** Pattern builders. *)
Definition chr (c : ascii) : re := Cls (Ascii.eqb c).
Definition chr_i (c : ascii) : re := Cls (ci_eq c).
Definition opt (r : re) : re := Alt r Eps.

Fixpoint lit (s : string) : re :=
  match s with
  | EmptyString => Eps
  | String c EmptyString => chr c
  | String c s' => Seq (chr c) (lit s')
  end.
Fixpoint lit_i (s : string) : re :=
  match s with
  | EmptyString => Eps
  | String c EmptyString => chr_i c
  | String c s' => Seq (chr_i c) (lit_i s')
  end.

Fixpoint seqs (l : list re) : re :=
  match l with
  | [] => Eps
  | [r] => r
  | r :: l' => Seq r (seqs l')
  end.
Fixpoint alts (l : list re) : re :=
  match l with
  | [] => Many (fun _ => false) 1 None
  | [r] => r
  | r :: l' => Alt r (alts l')
  end.

Definition one_of (s : string) (c : ascii) : bool :=
  existsb (Ascii.eqb c) (list_ascii_of_string s).

(** *** The language of a pattern without repetition *)

(** All the characters. *)
Definition all_ascii : list ascii := map ascii_of_nat (seq 0 256).

(** No [Many] inside: the pattern matches finitely many texts. *)
Fixpoint finite (r : re) : bool :=
  match r with
  | Many _ _ _ => false
  | Seq a b | Alt a b => finite a && finite b
  | Grp _ a => finite a
  | _ => true
  end.

(** No group inside. *)
Fixpoint groupless (r : re) : bool :=
  match r with
  | Grp _ _ => false
  | Seq a b | Alt a b => groupless a && groupless b
  | _ => true
  end.

(** The texts that a finite pattern can match (assertions are read as the
    empty text). *)
Fixpoint enum (r : re) : list string :=
  match r with
  | Cls p => map (fun c => String c EmptyString) (filter p all_ascii)
  | Seq a b => flat_map (fun x => map (String.append x) (enum b)) (enum a)
  | Alt a b => enum a ++ enum b
  | Grp _ a => enum a
  | Many _ _ _ => []
  | Eps | Wb | Bol | Eol => [EmptyString]
  end.

End Re.
Import Re.

(* ================================================================== *)
(** ** The patterns of the module *)

Module Patterns.

Definition sp_star : re := Many is_space 0 None.
Definition sp_plus : re := Many is_space 1 None.

(** [AG_PATTERN = re.compile(r"\bA-?GEAR\b", re.IGNORECASE)] *)
Definition AG_PATTERN : re :=
  seqs [Wb; chr_i "A"; opt (chr "-"); lit_i "GEAR"; Wb].

(** [[ABab]?] and [[A-Za-z]?]; [re.IGNORECASE] adds no character below 256
    to either class. *)
Definition opt_ab : re := opt (Cls (one_of "ABab")).
Definition opt_letter : re := opt (Cls is_alpha).

(** [BAK-?<digits>] and [E-?<digits>[A-Za-z]?] *)
Definition bak (n : string) : re := seqs [lit_i "BAK"; opt (chr "-"); lit n].
Definition e_series (n : string) : re :=
  seqs [chr_i "E"; opt (chr "-"); lit n; opt_letter].

(** The alternation inside the second group of [GEAR_TYPE_RE]. *)
Definition gear_codes : re :=
  alts [ Seq (bak "12") opt_ab; bak "14"; bak "9"; bak "13"; bak "15";
         seqs [lit_i "MB"; opt (chr "-"); lit "60"]; lit_i "EMAS";
         e_series "5"; e_series "28"; e_series "32";
         lit_i "MAAS" ].

(** [GEAR_TYPE_RE = re.compile(r"\b(?:(HOOK)\s+)?(BAK-?12[ABab]?|...|MAAS)\b",
    re.IGNORECASE)] *)
Definition GEAR_TYPE_RE : re :=
  seqs [ Wb; opt (Seq (Grp 1 (lit_i "HOOK")) sp_plus); Grp 2 gear_codes; Wb ].

(** [FT_FROM_THR_RE = re.compile(r"(\d{2,5})\s*FT\s*FM\s*THR", re.IGNORECASE)] *)
Definition FT_FROM_THR_RE : re :=
  seqs [ Grp 1 (Many is_digit 2 (Some 5)); sp_star; lit_i "FT"; sp_star;
         lit_i "FM"; sp_star; lit_i "THR" ].

(** [PAREN_FEET_RE = re.compile(r"\((\d{2,5})\s*(?:FT|FT\.|')?\)", re.IGNORECASE)] *)
Definition PAREN_FEET_RE : re :=
  seqs [ chr "("; Grp 1 (Many is_digit 2 (Some 5)); sp_star;
         opt (alts [lit_i "FT"; Seq (lit_i "FT") (chr "."); chr "'"]);
         chr ")" ].

(** [r"@gml:id='([^']+)'"] *)
Definition GML_ID_REF_RE : re :=
  seqs [ lit "@gml:id='"; Grp 1 (Many (fun c => negb (Ascii.eqb c "'")) 1 None);
         chr "'" ].

(** [.] outside DOTALL: any character but a line feed. *)
Definition dot (c : ascii) : bool := negb (Ascii.eqb c "010").

(** [r"^BAK\s*-?\s*12([A-Z]?)$"] and [r"^E\s*-?\s*<n>([A-Z]?)$"]
    (compiled without flags: case-sensitive). *)
Definition BAK12_NORM_RE : re :=
  seqs [ Bol; lit "BAK"; sp_star; opt (chr "-"); sp_star; lit "12";
         Grp 1 (opt (Cls is_upper)); Eol ].
Definition E_NORM_RE (n : string) : re :=
  seqs [ Bol; chr "E"; sp_star; opt (chr "-"); sp_star; lit n;
         Grp 1 (opt (Cls is_upper)); Eol ].

(** [r"RWY_BASE_END_(.+)"], [r"RWY_RECIPROCAL_END_(.+)"], [r"RWY_(.+)"] *)
Definition prefixed_id (p : string) : re :=
  Seq (lit p) (Grp 1 (Many dot 1 None)).

(** [r"RWY_DIRECTION_(BASE_END|RECIPROCAL_END)_(.+)"] *)
Definition RWY_DIRECTION_RE : re :=
  seqs [ lit "RWY_DIRECTION_";
         Grp 1 (Alt (lit "BASE_END") (lit "RECIPROCAL_END"));
         chr "_"; Grp 2 (Many dot 1 None) ].

End Patterns.
Import Patterns.

(* ================================================================== *)
(** ** The gear-note parser *)

(** [sorted(set(l))] on integers: insertion into a strictly increasing
    list. *)
Fixpoint insert_sorted (x : Z) (l : list Z) : list Z :=
  match l with
  | [] => [x]
  | y :: l' =>
      if (x <? y)%Z then x :: l
      else if (x =? y)%Z then l
      else y :: insert_sorted x l'
  end.
Definition sorted_set (l : list Z) : list Z := fold_right insert_sorted [] l.

(** [d in l] *)
Definition mem_Z (d : Z) (l : list Z) : bool := existsb (Z.eqb d) l.

(** One entry of the list that [parse_gear_from_text] returns. *)
Record mention : Type := mkMention {
  mtype : string;
  distances_from_threshold_ft : list Z;
  distances_misc_ft : list Z;
  raw : string
}.

(** The replacement functions [lambda m: f"BAK-12{m.group(1)}"] etc. *)
Definition with_group1 (p : string) (m : mobj) : string :=
  p ++ Str.or_empty (group 1 m).

(** Lines 105-112: the chain of rewrites applied to [raw]. *)
Definition normalize_raw (raw : string) : string :=
  let norm := Re.sub BAK12_NORM_RE (with_group1 "BAK-12") raw in
  let norm := Str.replace "MB-60" "MB60" norm in
  let norm := Re.sub (E_NORM_RE "5") (with_group1 "E-5") norm in
  let norm := Re.sub (E_NORM_RE "28") (with_group1 "E-28") norm in
  let norm := Re.sub (E_NORM_RE "32") (with_group1 "E-32") norm in
  norm.

(** Lines 104-112: [raw = gear.upper()], then the rewrites. *)
Definition normalize_code (gear : string) : string :=
  normalize_raw (Str.upper gear).

(** The text without its hyphens. *)
Fixpoint remove_hyphens (s : string) : string :=
  match s with
  | EmptyString => EmptyString
  | String c s' =>
      if Ascii.eqb c "-" then remove_hyphens s' else String c (remove_hyphens s')
  end.

(** The empty string and the twenty-six capital letters: what [[A-Z]?]
    can hold. *)
Definition opt_upper_letters : list string :=
  EmptyString :: map (fun c => String c EmptyString) (filter is_upper all_ascii).

(** Line 113: [("HOOK " + norm) if hook else norm] *)
Definition gear_type (hook : option string) (gear : string) : string :=
  if Str.truthy_opt hook then "HOOK " ++ normalize_code gear
  else normalize_code gear.

Definition thr_distances (txt : string) : list Z :=
  map Str.int_of_digits (findall1 FT_FROM_THR_RE txt).
Definition paren_distances (txt : string) : list Z :=
  map Str.int_of_digits (findall1 PAREN_FEET_RE txt).

Definition mention_of (txt : string) (m : mobj) : mention :=
  let d_thr := thr_distances txt in
  let d_misc := paren_distances txt in
  mkMention (gear_type (group 1 m) (Str.or_empty (group 2 m)))
            (sorted_set d_thr)
            (sorted_set (filter (fun d => negb (mem_Z d d_thr)) d_misc))
            txt.

Definition parse_gear_from_text (note : string) : list mention :=
  let txt := Str.strip note in
  if negb (Str.truthy txt) then []
  else map (mention_of txt) (finditer GEAR_TYPE_RE txt).

(** The test of lines 52, 82, 129 and 166:
    [AG_PATTERN.search(text) or GEAR_TYPE_RE.search(text)] *)
Definition is_some {A} (o : option A) : bool :=
  match o with Some _ => true | None => false end.
Definition mentions_gear (text : string) : bool :=
  is_some (search AG_PATTERN text) || is_some (search GEAR_TYPE_RE text).

(* ================================================================== *)
(** ** Insertion-ordered dictionaries *)

Module Dict.
Section Dict.
Context {K V : Type}.
Variable keq : K -> K -> bool.

Definition t : Type := list (K * V).

(** [d.get(k)] *)
Fixpoint get (k : K) (d : list (K * V)) : option V :=
  match d with
  | [] => None
  | (k', v) :: d' => if keq k' k then Some v else get k d'
  end.

(** [k in d] *)
Definition mem (k : K) (d : list (K * V)) : bool :=
  match get k d with Some _ => true | None => false end.

(** [d[k] = v]: an existing key keeps its place, a new one goes last. *)
Fixpoint set (k : K) (v : V) (d : list (K * V)) : list (K * V) :=
  match d with
  | [] => [(k, v)]
  | (k', v') :: d' =>
      if keq k' k then (k', v) :: d' else (k', v') :: set k v d'
  end.
End Dict.
End Dict.

Definition pair_eqb (a b : string * string) : bool :=
  String.eqb (fst a) (fst b) && String.eqb (snd a) (snd b).

(* ================================================================== *)
(** ** ElementTree elements and [iterparse] *)

Module Xml.

(** An element: its tag in the [{uri}local] form of ElementTree, its
    attributes, its text ([None] when there is none) and its children. *)
Inductive elem : Type :=
| Elem : string -> list (string * string) -> option string -> list elem -> elem.

Definition etag (e : elem) : string := let 'Elem t _ _ _ := e in t.
Definition eattrib (e : elem) : list (string * string) :=
  let 'Elem _ a _ _ := e in a.
Definition etext (e : elem) : option string := let 'Elem _ _ x _ := e in x.
Definition echildren (e : elem) : list elem := let 'Elem _ _ _ c := e in c.

(** [localname]: the tag without its [{uri}] part.  The parser builds no
    tag that opens a brace without closing it, so the failing index of
    [split("}", 1)[1]] is out of reach; the model gives the empty string. *)
Definition localname (tag : string) : string :=
  if Str.startswith "{" tag
  then match Str.after_first "}" tag with Some r => r | None => EmptyString end
  else tag.

Definition ltag (e : elem) : string := localname (etag e).

(** [(e.text or "").strip()] *)
Definition stext (e : elem) : string := Str.strip (Str.or_empty (etext e)).

(** [e.attrib.get(k)] and [e.attrib.get(k, "")] *)
Definition attrib_get (k : string) (e : elem) : option string :=
  Dict.get String.eqb k (eattrib e).
Definition attrib_get_str (k : string) (e : elem) : string :=
  Str.or_empty (attrib_get k e).

Definition GML_ID : string := "{http://www.opengis.net/gml/3.2}id".
Definition XLINK_HREF : string := "{http://www.w3.org/1999/xlink}href".

(** [e.iter()]: the element, then its descendants, in document order. *)
Fixpoint iter (e : elem) : list elem :=
  match e with
  | Elem _ _ _ cs => e :: flat_map iter cs
  end.

(** [e.clear()]: no children, no attributes, no text; the tag stays. *)
Definition cleared (e : elem) : elem := Elem (etag e) [] None [].

Inductive event_kind : Type := Start | End.
Definition is_start (k : event_kind) : bool :=
  match k with Start => true | End => false end.
Definition is_end (k : event_kind) : bool := negb (is_start k).

Section Events.
(** The local tags whose elements the consumer clears at their end
    event. *)
Variable clears : string -> bool.

(** The element as the consumer sees it at its end event: every
    descendant has had its own end event by then, and those the consumer
    cleared are empty shells in their parent's list of children. *)
Fixpoint end_view (e : elem) : elem :=
  match e with
  | Elem t a x cs =>
      Elem t a x
        (map (fun c => if clears (ltag c) then cleared c else end_view c) cs)
  end.

(** [ET.iterparse(path, events=("start", "end"))] over the document whose
    root is [e].  At a start event only the tag and the attributes are
    relied upon. *)
Fixpoint events (e : elem) : list (event_kind * elem) :=
  match e with
  | Elem t a _ cs =>
      (Start, Elem t a None []) :: flat_map events cs ++ [(End, end_view e)]
  end.

(** [events=("end",)] *)
Definition end_events (e : elem) : list elem :=
  map snd (filter (fun ev => is_end (fst ev)) (events e)).
End Events.

End Xml.
Import Xml.

(* ================================================================== *)
(** ** Time-slice helpers (lines 43-84 and 123-131) *)

Definition is_gear_note (n : elem) : bool :=
  String.eqb (ltag n) "note" && mentions_gear (stext n).

Definition timeslice_has_gear (ts : elem) : bool :=
  existsb is_gear_note (iter ts).

Definition sample_gear_note (ts : elem) : option string :=
  option_map stext (find is_gear_note (iter ts)).

Definition extract_gear_notes (ts : elem) : list string :=
  map stext (filter is_gear_note (iter ts)).

(** The loop of [extract_designator_and_name], with its [break]. *)
Fixpoint designator_and_name_loop (code name : option string) (cs : list elem)
  : option string * option string :=
  match cs with
  | [] => (code, name)
  | child :: cs' =>
      let tag := ltag child in
      let '(code, name) :=
        if String.eqb tag "designator" && negb (is_some code)
        then (Str.or_none (stext child), name)
        else if String.eqb tag "name" && negb (is_some name)
        then (code, Str.or_none (stext child))
        else (code, name) in
      if Str.truthy_opt code && Str.truthy_opt name then (code, name)
      else designator_and_name_loop code name cs'
  end.

Definition extract_designator_and_name (ts : elem)
  : option string * option string :=
  designator_and_name_loop None None (echildren ts).

(** The stripped text of the first element of [cs] with local tag [tag]
    and a non-blank text. *)
Definition first_child_text (tag : string) (cs : list elem) : option string :=
  option_map stext
    (find (fun c => String.eqb (ltag c) tag && Str.truthy (stext c)) cs).

(* ================================================================== *)
(** ** The indexers *)

Module Indexer.
Section WithFloat.

(** Python's [float], its constructor from a string ([None] when
    [float(x)] raises) and [int(f)] ([None] when it raises, on an
    infinity or a NaN).  The indexers only pass floats through. *)
Variable pyfloat : Type.
Variable float_of_str : string -> option pyfloat.
Variable int_of_float : pyfloat -> option Z.

(** [int(float(s))], [None] when either step raises. *)
Definition int_of_float_str (s : string) : option Z :=
  match float_of_str s with
  | Some f => int_of_float f
  | None => None
  end.

(** [[float(x) for x in txt.split() if x]], [None] when a [float(x)]
    raises. *)
Fixpoint floats_of (parts : list string) : option (list pyfloat) :=
  match parts with
  | [] => Some []
  | x :: parts' =>
      match float_of_str x with
      | None => None
      | Some f =>
          match floats_of parts' with
          | None => None
          | Some fs => Some (f :: fs)
          end
      end
  end.

(** Lines 250-256: the pair [(lon, lat)] that a [pos] text assigns, or
    [None] when the [try] block assigns nothing. *)
Definition parse_pos (txt : string) : option (pyfloat * pyfloat) :=
  match floats_of (filter Str.truthy (Str.split_ws txt)) with
  | Some (lon :: lat :: _) => Some (lon, lat)
  | _ => None
  end.

(** *** [index_airports] *)

Record airport : Type := mkAirport {
  a_code : option string;
  a_name : option string;
  a_icao : option string;
  a_lat : option pyfloat;
  a_lon : option pyfloat;
  a_city : option string;
  a_state_code : option string;
  a_state : option string
}.

(** The local variables of lines 237-242. *)
Record fields : Type := mkFields {
  icao : option string;
  lat : option pyfloat;
  lon : option pyfloat;
  city : option string;
  state_code : option string;
  state_name : option string
}.

Definition fields0 : fields := mkFields None None None None None None.

Definition set_icao v f :=
  mkFields v (lat f) (lon f) (city f) (state_code f) (state_name f).
Definition set_latlon la lo f :=
  mkFields (icao f) la lo (city f) (state_code f) (state_name f).
Definition set_city v f :=
  mkFields (icao f) (lat f) (lon f) v (state_code f) (state_name f).
Definition set_state_code v f :=
  mkFields (icao f) (lat f) (lon f) (city f) v (state_name f).
Definition set_state_name v f :=
  mkFields (icao f) (lat f) (lon f) (city f) (state_code f) v.

(** [if not <field>: t = strip(text); if t: <field> = t] *)
Definition fill (cur : option string) (e : elem) : option string :=
  if Str.truthy_opt cur then cur
  else if Str.truthy (stext e) then Some (stext e) else cur.

(** Lines 248-256, one [sub] of [child.iter()] under an [ARP] child. *)
Definition arp_sub (f : fields) (sub : elem) : fields :=
  if String.eqb (ltag sub) "pos" then
    match parse_pos (stext sub) with
    | Some (lo, la) => set_latlon (Some la) (Some lo) f
    | None => f
    end
  else f.

(** Lines 259-264: the first non-blank [name] or [cityName]. *)
Definition served_city (child : elem) : option string :=
  option_map stext
    (find (fun sub => (String.eqb (ltag sub) "name"
                       || String.eqb (ltag sub) "cityName")
                      && Str.truthy (stext sub))
          (iter child)).

(** Lines 267-276, one [sub] under an [extension] child. *)
Definition extension_sub (f : fields) (sub : elem) : fields :=
  let stag := ltag sub in
  if String.eqb stag "countyStatePostOfficeCode"
     && negb (Str.truthy_opt (state_code f))
  then set_state_code (fill (state_code f) sub) f
  else if String.eqb stag "stateName" && negb (Str.truthy_opt (state_name f))
  then set_state_name (fill (state_name f) sub) f
  else f.

(** Lines 283-292, one [addr_part] of an [address]. *)
Definition address_part (f : fields) (part : elem) : fields :=
  let atag := ltag part in
  if String.eqb atag "city" && negb (Str.truthy_opt (city f))
  then set_city (fill (city f) part) f
  else if (String.eqb atag "administrativeArea"
           || String.eqb atag "stateProvince")
          && negb (Str.truthy_opt (state_code f))
  then set_state_code (fill (state_code f) part) f
  else f.

(** Lines 279-301, one [sub] under an organisation or contact child. *)
Definition org_sub (f : fields) (sub : elem) : fields :=
  let stag := ltag sub in
  if String.eqb stag "address" then fold_left address_part (iter sub) f
  else if String.eqb stag "countyStatePostOfficeCode"
          && negb (Str.truthy_opt (state_code f))
  then set_state_code (fill (state_code f) sub) f
  else if String.eqb stag "stateName" && negb (Str.truthy_opt (state_name f))
  then set_state_name (fill (state_name f) sub) f
  else f.

Definition is_org_tag (t : string) : bool :=
  String.eqb t "AirportHeliportResponsibilityOrganisation"
  || String.eqb t "responsibleOrganisation"
  || String.eqb t "contact".

(** Lines 243-301, one direct [child] of the time slice. *)
Definition scan_child (f : fields) (child : elem) : fields :=
  let tag := ltag child in
  if String.eqb tag "locationIndicatorICAO"
  then set_icao (Str.or_none (stext child)) f
  else if String.eqb tag "ARP"
  then fold_left arp_sub (iter child) f
  else if String.eqb tag "servedCity" && negb (Str.truthy_opt (city f))
  then match served_city child with
       | Some c => set_city (Some c) f
       | None => f
       end
  else if String.eqb tag "extension"
  then fold_left extension_sub (iter child) f
  else if is_org_tag tag
  then fold_left org_sub (iter child) f
  else f.

Definition scan_children (cs : list elem) : fields :=
  fold_left scan_child cs fields0.

(** [x or None] on an optional string. *)
Definition opt_or_none (o : option string) : option string :=
  if Str.truthy_opt o then o else None.

(** The record stored at lines 307-316. *)
Definition airport_of (ts : elem) : airport :=
  let '(code, name) := extract_designator_and_name ts in
  let f := scan_children (echildren ts) in
  mkAirport code name (icao f) (lat f) (lon f)
            (opt_or_none (city f)) (opt_or_none (state_code f))
            (opt_or_none (state_name f)).

Record ap_state : Type := mkAp {
  airports : list (string * airport);
  gear_notes : list (string * list string);
  cur_airport_id : option string
}.

Definition ap_init : ap_state := mkAp [] [] None.

(** The elements that [index_airports] clears at their end event. *)
Definition ap_clears (t : string) : bool :=
  String.eqb t "AirportHeliportTimeSlice" || String.eqb t "AirportHeliport".

(** The body of the loop of lines 230-323. *)
Definition ap_step (st : ap_state) (ev : event_kind * elem) : ap_state :=
  let '(k, e) := ev in
  let tag := ltag e in
  if is_start k && String.eqb tag "AirportHeliport"
  then mkAp (airports st) (gear_notes st) (attrib_get GML_ID e)
  else if is_end k && String.eqb tag "AirportHeliportTimeSlice"
  then
    match cur_airport_id st with
    | Some aid =>
        if Str.truthy aid then
          let notes := extract_gear_notes e in
          mkAp (Dict.set String.eqb aid (airport_of e) (airports st))
               (match notes with
                | [] => gear_notes st
                | _ => Dict.set String.eqb aid notes (gear_notes st)
                end)
               (cur_airport_id st)
        else st
    | None => st
    end
  else if is_end k && String.eqb tag "AirportHeliport"
  then mkAp (airports st) (gear_notes st) None
  else st.

Definition ap_run (doc : elem) : ap_state :=
  fold_left ap_step (events ap_clears doc) ap_init.

Definition index_airports (doc : elem)
  : list (string * airport) * list (string * list string) :=
  let st := ap_run doc in (airports st, gear_notes st).

(** An identifier that some [AirportHeliport] element of the document
    carries as its [gml:id]. *)
Definition container_id (doc : elem) (k : string) : Prop :=
  exists e, In e (iter doc) /\ ltag e = "AirportHeliport"
            /\ attrib_get GML_ID e = Some k.

(** The invariant of the loop of [index_airports]: every key stored so far,
    and the current identifier, come from a container of the document. *)
Definition keys_ok (doc : elem) (st : ap_state) : Prop :=
  (forall k, In k (map fst (airports st)) -> k <> "" /\ container_id doc k)
  /\ (forall k, In k (map fst (gear_notes st)) -> k <> "" /\ container_id doc k)
  /\ (forall k, cur_airport_id st = Some k -> container_id doc k).

(** *** [index_runways] *)

(** [re.search(r"@gml:id='([^']+)'", href)] and its group 1. *)
Definition resolve_href (href : string) : option string :=
  match search GML_ID_REF_RE href with
  | Some m => group 1 m
  | None => None
  end.

(** The local variables of lines 347-350. *)
Record rts : Type := mkRts {
  designator : option string;
  airport_ref : option string;
  length_ft : option Z;
  width_ft : option Z
}.

Definition rts0 : rts := mkRts None None None None.

(** Lines 351-369, one direct [child] of a [RunwayTimeSlice]. *)
Definition rts_child (r : rts) (child : elem) : rts :=
  let ctag := ltag child in
  if String.eqb ctag "designator"
  then mkRts (Some (stext child)) (airport_ref r) (length_ft r) (width_ft r)
  else if String.eqb ctag "associatedAirportHeliport"
  then match resolve_href (attrib_get_str XLINK_HREF child) with
       | Some a => mkRts (designator r) (Some a) (length_ft r) (width_ft r)
       | None => r
       end
  else if String.eqb ctag "lengthStrip"
  then mkRts (designator r) (airport_ref r) (int_of_float_str (stext child))
             (width_ft r)
  else if String.eqb ctag "widthStrip"
  then mkRts (designator r) (airport_ref r) (length_ft r)
             (int_of_float_str (stext child))
  else r.

Definition scan_rts (ts : elem) : rts := fold_left rts_child (echildren ts) rts0.

(** [m.group(1) if m else cur_runway_id] *)
Definition group_suffix_of (prefix rid : string) : string :=
  match re_match (prefixed_id prefix) rid with
  | Some m => Str.or_empty (group 1 m)
  | None => rid
  end.

Definition pair_dims_t : Type := list ((string * string) * (option Z * option Z)).
Definition end_info_t : Type := list (string * (string * string * string)).
Definition end_disp_t : Type := list ((string * string) * Z).

Record rw_state : Type := mkRw {
  pair_dims : pair_dims_t;
  end_info : end_info_t;
  end_disp : end_disp_t;
  cur_runway_id : option string;
  cur_rwy_dir_id : option string
}.

Definition rw_init : rw_state := mkRw [] [] [] None None.

(** Lines 370-385: what a [RunwayTimeSlice] records. *)
Definition record_runway (st : rw_state) (ts : elem) : rw_state :=
  let r := scan_rts ts in
  match cur_runway_id st, airport_ref r with
  | Some rid, Some aref =>
      if Str.truthy rid && Str.truthy aref then
        if Str.contains "_BASE_END_" rid then
          mkRw (pair_dims st)
               (Dict.set String.eqb rid
                  (aref, Str.or_empty (designator r),
                   group_suffix_of "RWY_BASE_END_" rid) (end_info st))
               (end_disp st) (cur_runway_id st) (cur_rwy_dir_id st)
        else if Str.contains "_RECIPROCAL_END_" rid then
          mkRw (pair_dims st)
               (Dict.set String.eqb rid
                  (aref, Str.or_empty (designator r),
                   group_suffix_of "RWY_RECIPROCAL_END_" rid) (end_info st))
               (end_disp st) (cur_runway_id st) (cur_rwy_dir_id st)
        else
          mkRw (Dict.set pair_eqb (aref, group_suffix_of "RWY_" rid)
                  (length_ft r, width_ft r) (pair_dims st))
               (end_info st) (end_disp st)
               (cur_runway_id st) (cur_rwy_dir_id st)
      else st
  | _, _ => st
  end.

(** Lines 394-402: the last [displacedThresholdLength] that converts. *)
Definition disp_sub (d : option Z) (child : elem) : option Z :=
  if String.eqb (ltag child) "displacedThresholdLength" then
    if Str.truthy (stext child) then
      match int_of_float_str (stext child) with
      | Some z => Some z
      | None => d
      end
    else d
  else d.

Definition scan_disp (ts : elem) : option Z := fold_left disp_sub (iter ts) None.

(** Lines 405-409: the runway-end id that a runway-direction id names. *)
Definition end_id_of_direction (did : string) : option string :=
  match re_match RWY_DIRECTION_RE did with
  | Some m =>
      let kind := Str.or_empty (group 1 m) in
      let suffix := Str.or_empty (group 2 m) in
      let end_prefix :=
        if String.eqb kind "BASE_END" then "RWY_BASE_END_"
        else "RWY_RECIPROCAL_END_" in
      Some (end_prefix ++ suffix)%string
  | None => None
  end.

(** Lines 403-412: what a [RunwayDirectionTimeSlice] records. *)
Definition record_direction (st : rw_state) (ts : elem) : rw_state :=
  match cur_rwy_dir_id st, scan_disp ts with
  | Some did, Some disp =>
      if Str.truthy did then
        match end_id_of_direction did with
        | Some end_id =>
            match Dict.get String.eqb end_id (end_info st) with
            | Some (aref, des, _) =>
                mkRw (pair_dims st) (end_info st)
                     (Dict.set pair_eqb (aref, des) disp (end_disp st))
                     (cur_runway_id st) (cur_rwy_dir_id st)
            | None => st
            end
        | None => st
        end
      else st
  | _, _ => st
  end.

(** The elements that [index_runways] clears at their end event. *)
Definition rw_clears (t : string) : bool :=
  String.eqb t "RunwayTimeSlice" || String.eqb t "Runway"
  || String.eqb t "RunwayDirectionTimeSlice" || String.eqb t "RunwayDirection".

(** The body of the loop of lines 341-416. *)
Definition rw_step (st : rw_state) (ev : event_kind * elem) : rw_state :=
  let '(k, e) := ev in
  let tag := ltag e in
  if is_start k && String.eqb tag "Runway"
  then mkRw (pair_dims st) (end_info st) (end_disp st)
            (attrib_get GML_ID e) (cur_rwy_dir_id st)
  else if is_end k && String.eqb tag "RunwayTimeSlice"
  then record_runway st e
  else if is_end k && String.eqb tag "Runway"
  then mkRw (pair_dims st) (end_info st) (end_disp st)
            None (cur_rwy_dir_id st)
  else if is_start k && String.eqb tag "RunwayDirection"
  then mkRw (pair_dims st) (end_info st) (end_disp st)
            (cur_runway_id st) (attrib_get GML_ID e)
  else if is_end k && String.eqb tag "RunwayDirectionTimeSlice"
  then record_direction st e
  else if is_end k && String.eqb tag "RunwayDirection"
  then mkRw (pair_dims st) (end_info st) (end_disp st)
            (cur_runway_id st) None
  else st.

Definition rw_run (doc : elem) : rw_state :=
  fold_left rw_step (events rw_clears doc) rw_init.

(** One entry of a [by_airport] list. *)
Record runway_end : Type := mkEnd {
  r_designator : string;
  r_length_ft : option Z;
  r_width_ft : option Z
}.

Definition by_airport_t : Type := list (string * list runway_end).

(** Lines 422-432: the entry emitted for one item of [end_info]. *)
Definition emit_end (pd : pair_dims_t) (ed : end_disp_t)
           (aref des gs : string) : runway_end :=
  let '(len, wid) :=
    match Dict.get pair_eqb (aref, gs) pd with
    | Some dims => dims
    | None => (None, None)
    end in
  let disp :=
    match Dict.get pair_eqb (aref, des) ed with
    | Some d => d
    | None => 0%Z
    end in
  mkEnd des
        (match len with
         | Some l => Some (Z.max 0 (l - disp))
         | None => None
         end)
        wid.

(** [by_airport.setdefault(k, []).append(x)] *)
Definition append_at (k : string) (x : runway_end) (b : by_airport_t)
  : by_airport_t :=
  Dict.set String.eqb k
    (match Dict.get String.eqb k b with Some l => l | None => [] end ++ [x]) b.

(** Lines 421-432: the airport of an item of [end_info.items()], the entry
    emitted for it, and the loop. *)
Definition end_airport (it : string * (string * string * string)) : string :=
  let '(_, (aref, _, _)) := it in aref.
Definition emit_item (pd : pair_dims_t) (ed : end_disp_t)
           (it : string * (string * string * string)) : runway_end :=
  let '(_, (aref, des, gs)) := it in emit_end pd ed aref des gs.
Definition assemble_ends (pd : pair_dims_t) (ed : end_disp_t)
           (ei : end_info_t) (b : by_airport_t) : by_airport_t :=
  fold_left
    (fun b it => append_at (end_airport it) (emit_item pd ed it) b)
    ei b.

(** The loop of lines 435-442. *)
Definition assemble_fallback (pd : pair_dims_t) (b : by_airport_t)
  : by_airport_t :=
  fold_left
    (fun b item =>
       let '((aref, gs), (len, wid)) := item in
       if Dict.mem String.eqb aref b then b
       else Dict.set String.eqb aref [mkEnd gs len wid] b)
    pd b.

(** Lines 418-444. *)
Definition assemble (pd : pair_dims_t) (ei : end_info_t) (ed : end_disp_t)
  : by_airport_t :=
  assemble_fallback pd (assemble_ends pd ed ei []).

Definition index_runways (doc : elem) : by_airport_t :=
  let st := rw_run doc in
  assemble (pair_dims st) (end_info st) (end_disp st).

End WithFloat.

(** *** [index_gear_notes_across] *)

Definition is_airport_ref_tag (t : string) : bool :=
  String.eqb t "associatedAirportHeliport" || String.eqb t "airportHeliport"
  || String.eqb t "airportLocation" || String.eqb t "clientAirport".

(** Lines 150-157: the first reference that resolves, in document order. *)
Fixpoint first_airport_ref (l : list elem) : option string :=
  match l with
  | [] => None
  | child :: l' =>
      if is_airport_ref_tag (ltag child) then
        match resolve_href (attrib_get_str XLINK_HREF child) with
        | Some a => Some a
        | None => first_airport_ref l'
        end
      else first_airport_ref l'
  end.

(** [gear_notes.setdefault(k, []).extend(found)] *)
Definition extend_at (k : string) (found : list string)
           (g : list (string * list string)) : list (string * list string) :=
  Dict.set String.eqb k
    (match Dict.get String.eqb k g with Some l => l | None => [] end ++ found) g.

(** The body of the loop of lines 143-170 on one end event.  Every branch
    of the loop clears the element. *)
Definition gna_step (g : list (string * list string)) (e : elem)
  : list (string * list string) :=
  if negb (Str.endswith "TimeSlice" (ltag e)) then g
  else
    match first_airport_ref (iter e) with
    | Some aref =>
        if Str.truthy aref then
          match extract_gear_notes e with
          | [] => g
          | found => extend_at aref found g
          end
        else g
    | None => g
    end.

Definition index_gear_notes_across (doc : elem) : list (string * list string) :=
  fold_left gna_step (end_events (fun _ => true) doc) [].

Arguments icao {pyfloat}.
Arguments lat {pyfloat}.
Arguments lon {pyfloat}.
Arguments city {pyfloat}.
Arguments state_code {pyfloat}.
Arguments state_name {pyfloat}.
Arguments a_code {pyfloat}.
Arguments a_name {pyfloat}.
Arguments a_icao {pyfloat}.
Arguments a_lat {pyfloat}.
Arguments a_lon {pyfloat}.
Arguments a_city {pyfloat}.
Arguments a_state_code {pyfloat}.
Arguments a_state {pyfloat}.

(** *** The state fields of a time slice, named as the specification
    names them *)

(** [state_code] is truthy. *)
Definition has_code {pyfloat : Type} (f : fields pyfloat) : bool :=
  Str.truthy_opt (state_code f).

(** The first [Some] that [f] gives along a list. *)
Fixpoint first_some {A B : Type} (f : A -> option B) (l : list A) : option B :=
  match l with
  | [] => None
  | x :: l' => match f x with Some y => Some y | None => first_some f l' end
  end.

Definition is_state_code_elem (sub : elem) : bool :=
  String.eqb (ltag sub) "countyStatePostOfficeCode" && Str.truthy (stext sub).
Definition is_admin_area_elem (part : elem) : bool :=
  (String.eqb (ltag part) "administrativeArea"
   || String.eqb (ltag part) "stateProvince")
  && Str.truthy (stext part).

(** The state code that an [extension] child offers: its first non-blank
    [countyStatePostOfficeCode], in document order. *)
Definition ext_code (child : elem) : option string :=
  option_map stext (find is_state_code_elem (iter child)).

(** The state field that an [address] offers. *)
Definition addr_code (addr : elem) : option string :=
  option_map stext (find is_admin_area_elem (iter addr)).

(** The state code that an organisation or contact child offers: the first
    one met by the loop of lines 279-297. *)
Definition org_sub_code (sub : elem) : option string :=
  if String.eqb (ltag sub) "address" then addr_code sub
  else if is_state_code_elem sub then Some (stext sub)
  else None.
Definition org_code (child : elem) : option string :=
  first_some org_sub_code (iter child).

(** The agency extension's state code of a time slice, and the state field
    of its address blocks. *)
Definition extension_state_code (ts : elem) : option string :=
  first_some ext_code
    (filter (fun c => String.eqb (ltag c) "extension") (echildren ts)).
Definition address_state_field (ts : elem) : option string :=
  first_some
    (fun c => first_some
                (fun sub => if String.eqb (ltag sub) "address"
                            then addr_code sub else None)
                (iter c))
    (filter (fun c => is_org_tag (ltag c)) (echildren ts)).

(** *** Cross-references *)

(** The text [href] holds a predicate [@gml:id='v'] with a non-empty,
    quote-free identifier [v]. *)
Definition has_id_predicate (href v : string) : Prop :=
  exists pre post,
    href = (pre ++ "@gml:id='" ++ v ++ "'" ++ post)%string
    /\ v <> EmptyString
    /\ Str.forall_chars (fun c => negb (Ascii.eqb c "'")) v = true.

(** *** The coordinates of a time slice *)

(** The time slice without its [ARP] children. *)
Definition without_arp (ts : elem) : elem :=
  Elem (etag ts) (eattrib ts) (etext ts)
       (filter (fun c => negb (String.eqb (ltag c) "ARP")) (echildren ts)).

(** The [pos] elements that the scan of a time slice visits: those of
    [child.iter()] for each [ARP] child, in the order of the two loops
    of lines 243-256. *)
Definition arp_positions (ts : elem) : list elem :=
  flat_map
    (fun c => if String.eqb (ltag c) "ARP"
              then filter (fun sub => String.eqb (ltag sub) "pos") (iter c)
              else [])
    (echildren ts).

(** Two states of the scan that agree on every field but the
    coordinates. *)
Definition same_core {pyfloat : Type} (f g : fields pyfloat) : Prop :=
  icao f = icao g /\ city f = city g
  /\ state_code f = state_code g /\ state_name f = state_name g.

(** Claim C7 as the specification words it: with both present, the
    extension's code is what gets stored. *)
Definition extension_preferred : Prop :=
  forall (pyfloat : Type) (float_of_str : string -> option pyfloat)
         (ts : elem) (x y : string),
    extension_state_code ts = Some x ->
    address_state_field ts = Some y ->
    a_state_code (airport_of pyfloat float_of_str ts) = Some x.

End Indexer.

(* ================================================================== *)
(** ** A float instance for concrete runs *)

(** Plain decimal literals [[+-]digits[.digits]], kept exactly as a
    mantissa and a number of fraction digits.  Python's [float] accepts
    these (and more: exponents, infinities, NaN); [int] truncates towards
    zero.  The theorems below hold for every instance; this one serves the
    concrete documents. *)
Module Decimal.

Record dec : Type := mkDec { mant : Z; frac_digits : nat }.

Fixpoint digits (acc : Z) (n : nat) (after_dot seen : bool) (s : string)
  : option dec :=
  match s with
  | EmptyString => if seen then Some (mkDec acc n) else None
  | String c s' =>
      if is_digit c
      then digits (10 * acc + Str.digit_val c)%Z
                  (if after_dot then S n else n) after_dot true s'
      else if Ascii.eqb c "." && negb after_dot
      then digits acc n true seen s'
      else None
  end.

Definition neg (d : dec) : dec := mkDec (- mant d)%Z (frac_digits d).

Definition float_of_str (s : string) : option dec :=
  match Str.strip s with
  | String "-" s' => option_map neg (digits 0%Z 0 false false s')
  | String "+" s' => digits 0%Z 0 false false s'
  | s' => digits 0%Z 0 false false s'
  end.

Definition int_of_float (d : dec) : option Z :=
  Some (Z.quot (mant d) (10 ^ Z.of_nat (frac_digits d))).

End Decimal.

Module Samples.
Import Indexer.

Definition AIXM : string := "{http://www.aixm.aero/schema/5.1}".
Definition GML : string := "{http://www.opengis.net/gml/3.2}".

(** An element of the AIXM namespace with only text, and one with only
    children. *)
Definition leaf (name text : string) : elem :=
  Elem (AIXM ++ name) [] (Some text) [].
Definition node (name : string) (cs : list elem) : elem :=
  Elem (AIXM ++ name) [] None cs.
Definition feature (name id : string) (cs : list elem) : elem :=
  Elem (AIXM ++ name) [(GML_ID, id)] None cs.
Definition airport_link (href : string) : elem :=
  Elem (AIXM ++ "associatedAirportHeliport") [(XLINK_HREF, href)] None [].
Definition AH_1_href : string := "#/aixm:AirportHeliport[@gml:id='AH_1']".

(** The document of [test_index_runways_with_displaced_threshold]. *)
Definition runway_doc : elem :=
  Elem "root" [] None
    [ feature "Runway" "RWY_ABC123"
        [ node "timeSlice"
            [ node "RunwayTimeSlice"
                [ leaf "designator" "18/36"; airport_link AH_1_href;
                  leaf "lengthStrip" "8000"; leaf "widthStrip" "150" ] ] ];
      feature "Runway" "RWY_BASE_END_ABC123"
        [ node "timeSlice"
            [ node "RunwayTimeSlice"
                [ leaf "designator" "18"; airport_link AH_1_href ] ] ];
      feature "Runway" "RWY_RECIPROCAL_END_ABC123"
        [ node "timeSlice"
            [ node "RunwayTimeSlice"
                [ leaf "designator" "36"; airport_link AH_1_href ] ] ];
      feature "RunwayDirection" "RWY_DIRECTION_BASE_END_ABC123"
        [ node "timeSlice"
            [ node "RunwayDirectionTimeSlice"
                [ leaf "displacedThresholdLength" "500" ] ] ] ].

Definition gear_annotation (text : string) : elem :=
  node "annotation"
    [ node "Note"
        [ node "translatedNote"
            [ node "LinguisticNote" [ leaf "note" text ] ] ] ].

(** The time slice of [test_index_airports_extracts_core_fields_and_gear]. *)
Definition test_timeslice : elem :=
  node "AirportHeliportTimeSlice"
    [ leaf "designator" "TEST"; leaf "name" "Test Field";
      leaf "locationIndicatorICAO" "KTEST";
      node "ARP" [ node "ElevatedPoint" [ Elem (GML ++ "pos") [] (Some "-120.5 35.2") [] ] ];
      gear_annotation "A-GEAR BAK-12, (1200 FT)" ].

Definition airport_doc : elem :=
  Elem "root" [] None
    [ feature "AirportHeliport" "AH_1" [ node "timeSlice" [ test_timeslice ] ] ].

(** The same time slice outside any [AirportHeliport] container. *)
Definition orphan_doc : elem :=
  Elem "root" [] None [ node "timeSlice" [ test_timeslice ] ].

(** A time slice whose contact address comes before its extension. *)
Definition address_first_timeslice : elem :=
  node "AirportHeliportTimeSlice"
    [ leaf "designator" "TEST";
      node "contact"
        [ node "ContactInformation"
            [ node "address"
                [ node "PostalAddress" [ leaf "administrativeArea" "TX" ] ] ] ];
      node "extension"
        [ node "AirportHeliportExtension"
            [ leaf "countyStatePostOfficeCode" "CA" ] ] ].

(** The same children in the other order. *)
Definition extension_first_timeslice : elem :=
  node "AirportHeliportTimeSlice"
    (rev (echildren address_first_timeslice)).

(** A runway time slice with one airport reference that has no href and
    one whose href lacks the quoted identifier. *)
Definition unlinked_timeslice : elem :=
  node "RunwayTimeSlice"
    [ leaf "designator" "18";
      Elem (AIXM ++ "associatedAirportHeliport") [] None [];
      airport_link "#/aixm:AirportHeliport[@gml:id=AH_1]";
      leaf "lengthStrip" "8000" ].

(** The time slice of the test with a position text whose first part is
    no number, and a served city. *)
Definition malformed_arp_timeslice : elem :=
  node "AirportHeliportTimeSlice"
    [ leaf "designator" "TEST"; leaf "name" "Test Field";
      node "ARP" [ node "ElevatedPoint" [ Elem (GML ++ "pos") [] (Some "north 35.2") [] ] ];
      leaf "locationIndicatorICAO" "KTEST";
      node "servedCity" [ node "City" [ leaf "name" "Testville" ] ] ].

Definition malformed_arp_doc : elem :=
  Elem "root" [] None
    [ feature "AirportHeliport" "AH_1"
        [ node "timeSlice" [ malformed_arp_timeslice ] ] ].

Definition run_airports := index_airports Decimal.dec Decimal.float_of_str.
Definition run_runways :=
  index_runways Decimal.dec Decimal.float_of_str Decimal.int_of_float.

End Samples.

(* ================================================================== *)
(** ** The scan for airfields and the report *)

Module Report.

Definition is_timeslice_tag (t : string) : bool :=
  String.eqb t "AirportHeliportTimeSlice".

(** [iter_airport_timeslices] (lines 32-40): the time slices at their end
    events; each one is cleared when the consumer asks for the next. *)
Definition iter_airport_timeslices (doc : elem) : list elem :=
  filter (fun e => is_timeslice_tag (ltag e)) (end_events is_timeslice_tag doc).

(** [(code, name, source_file, sample_note)] *)
Definition result : Type := string * string * string * option string.

Definition result_key (r : result) : string * string :=
  let '(code, name, _, _) := r in (code, name).

(** Lines 194-200, for one time slice of the file [xml_path]. *)
Definition collect_timeslice (xml_path : string) (ts : elem) : list result :=
  if negb (timeslice_has_gear ts) then []
  else
    let '(code, name) := extract_designator_and_name ts in
    if negb (Str.truthy_opt code) && negb (Str.truthy_opt name) then []
    else [(Str.or_empty code, Str.or_empty name, xml_path, sample_gear_note ts)].

(** Lines 204-211.  [seen] is a set of keys; only membership is asked of
    it. *)
Fixpoint dedupe (seen : list (string * string)) (results : list result)
  : list result :=
  match results with
  | [] => []
  | r :: rest =>
      if existsb (pair_eqb (result_key r)) seen then dedupe seen rest
      else r :: dedupe (result_key r :: seen) rest
  end.

(** [collect_ag_airfields] over the files that [find_xml_files] yields,
    each given by its path and its parsed document. *)
Definition collect_all (files : list (string * elem)) : list result :=
  flat_map (fun f => flat_map (collect_timeslice (fst f))
                              (iter_airport_timeslices (snd f)))
           files.
Definition collect_ag_airfields (files : list (string * elem)) : list result :=
  dedupe [] (collect_all files).

(** The key of lines 492: [(type, tuple(from_threshold), tuple(misc))]. *)
Definition gear_key : Type := string * list Z * list Z.

Definition mention_key (m : mention) : gear_key :=
  (mtype m, distances_from_threshold_ft m, distances_misc_ft m).

Fixpoint list_Z_eqb (a b : list Z) : bool :=
  match a, b with
  | [], [] => true
  | x :: a', y :: b' => Z.eqb x y && list_Z_eqb a' b'
  | _, _ => false
  end.

Definition gear_key_eqb (a b : gear_key) : bool :=
  let '(t1, f1, m1) := a in
  let '(t2, f2, m2) := b in
  String.eqb t1 t2 && list_Z_eqb f1 f2 && list_Z_eqb m1 m2.

(** Lines 490-494 and 506: [norm] keeps the first item of each key, and
    [list(norm.values())] lists them in insertion order. *)
Definition dedup_gear (gear_items : list mention) : list mention :=
  map snd
      (fold_left
         (fun norm gi =>
            if Dict.mem gear_key_eqb (mention_key gi) norm then norm
            else Dict.set gear_key_eqb (mention_key gi) gi norm)
         gear_items []).

(** [g.get(aid, [])] *)
Definition notes_of (g : list (string * list string)) (aid : string)
  : list string :=
  match Dict.get String.eqb aid g with Some l => l | None => [] end.

(** Lines 486-488: the mentions of all the notes of an airfield. *)
Definition gear_items_of (gear_notes gear_notes2 : list (string * list string))
           (aid : string) : list mention :=
  flat_map parse_gear_from_text (notes_of gear_notes aid ++ notes_of gear_notes2 aid).

(** The ["gear"] field of an airfield of the JSON dataset. *)
Definition airfield_gear (gear_notes gear_notes2 : list (string * list string))
           (aid : string) : list mention :=
  dedup_gear (gear_items_of gear_notes gear_notes2 aid).

(** The double quote, as a character and as a string. *)
Definition dquote_char : ascii := ascii_of_nat 34.
Definition dquote : string := String dquote_char EmptyString.

(** [esc] of the CSV output (lines 459-463): a field with a comma, a
    double quote or a line feed is wrapped in double quotes, its own
    double quotes doubled. *)
Definition esc (s : option string) : string :=
  let s2 := Str.or_empty s in
  if Str.contains "," s2 || Str.contains dquote s2
     || Str.contains (String "010" EmptyString) s2
  then (dquote ++ Str.replace dquote (dquote ++ dquote) s2 ++ dquote)%string
  else s2.

End Report.

(* ================================================================== *)
(** ** Upper-casing a subject *)

(** [Str.upper] replaces the letters a-z by A-Z.  The definitions below
    carry it over positions and match objects, and decide whether a
    pattern can tell a letter from its capital. *)
Module CaseFold.

Definition up_caps (cs : list (nat * string)) : list (nat * string) :=
  map (fun nw => (fst nw, Str.upper (snd nw))) cs.

Definition up_pos (st : pos) : pos :=
  mkPos (option_map upper_char (prev st)) (Str.upper (rest st))
        (up_caps (caps st)).

Definition up_mobj (m : mobj) : mobj :=
  mkM (Str.upper (whole m)) (up_caps (groups m)) (span m).

(** The class [p] holds of a character exactly when it holds of its
    capital. *)
Definition class_blind (p : ascii -> bool) : bool :=
  forallb (fun c => Bool.eqb (p (upper_char c)) (p c)) all_ascii.

(** Every class of the pattern is blind to case. *)
Fixpoint case_blind (r : re) : bool :=
  match r with
  | Cls p | Many p _ _ => class_blind p
  | Seq a b | Alt a b => case_blind a && case_blind b
  | Grp _ a => case_blind a
  | Eps | Wb | Bol | Eol => true
  end.

(** A mention with its raw text upper-cased. *)
Definition up_raw (m : mention) : mention :=
  mkMention (mtype m) (distances_from_threshold_ft m) (distances_misc_ft m)
            (Str.upper (raw m)).

End CaseFold.

(* ================================================================== *)
(** * Properties *)

(** ** Distance sets *)

Section DistanceSets.

Lemma in_insert_sorted (x y : Z) (l : list Z) :
  In x (insert_sorted y l) <-> x = y \/ In x l.
Proof.
  induction l as [|z l IH]; simpl.
  - intuition.
  - destruct (Z.ltb_spec y z).
    + simpl. intuition.
    + destruct (Z.eqb_spec y z).
      * subst. simpl. intuition.
      * simpl. rewrite IH. intuition.
Qed.

Lemma in_sorted_set (x : Z) (l : list Z) : In x (sorted_set l) <-> In x l.
Proof.
  induction l as [|y l IH]; simpl.
  - tauto.
  - unfold sorted_set in *. simpl. rewrite in_insert_sorted, IH.
    intuition.
Qed.

Lemma mem_Z_in (d : Z) (l : list Z) : mem_Z d l = true <-> In d l.
Proof.
  unfold mem_Z. rewrite existsb_exists. split.
  - intros [y [Hy Heq]]. apply Z.eqb_eq in Heq. now subst.
  - intros H. exists d. split; [assumption | apply Z.eqb_refl].
Qed.

(** What [parse_gear_from_text] puts in the two sets of every mention. *)
Lemma mention_sets (note : string) (m : mention) :
  In m (parse_gear_from_text note) ->
  distances_from_threshold_ft m = sorted_set (thr_distances (Str.strip note))
  /\ distances_misc_ft m =
     sorted_set (filter (fun d => negb (mem_Z d (thr_distances (Str.strip note))))
                        (paren_distances (Str.strip note)))
  /\ raw m = Str.strip note.
Proof.
  unfold parse_gear_from_text.
  destruct (negb (Str.truthy (Str.strip note))); [intros []|].
  rewrite in_map_iff. intros [mo [<- _]]. simpl. auto.
Qed.

End DistanceSets.

(** C1. For every note and every mention parsed from it, no integer of the
    from-threshold set is in the misc set; a number read both before
    "FT FM THR" and inside parentheses is reported in from-threshold only. *)
Theorem C1_threshold_never_in_misc :
  forall (note : string) (m : mention),
    In m (parse_gear_from_text note) ->
    (forall d, In d (distances_from_threshold_ft m) ->
               ~ In d (distances_misc_ft m))
    /\ (forall d, In d (thr_distances (Str.strip note)) ->
                  In d (paren_distances (Str.strip note)) ->
                  In d (distances_from_threshold_ft m)
                  /\ ~ In d (distances_misc_ft m)).
Proof.
  intros note m Hm.
  destruct (mention_sets note m Hm) as (Hthr & Hmisc & _).
  assert (Hexcl : forall d, In d (thr_distances (Str.strip note)) ->
                            ~ In d (distances_misc_ft m)).
  { intros d Hd Hin. rewrite Hmisc in Hin.
    apply (proj1 (in_sorted_set _ _)) in Hin. apply filter_In in Hin.
    destruct Hin as [_ Hneg]. apply negb_true_iff in Hneg.
    apply (proj2 (mem_Z_in _ _)) in Hd. congruence. }
  split.
  - intros d Hd. apply Hexcl. rewrite Hthr in Hd. now apply (proj1 (in_sorted_set _ _)) in Hd.
  - intros d Hd _. split; [|now apply Hexcl].
    rewrite Hthr. now apply (proj2 (in_sorted_set _ _)).
Qed.

Lemma C1_witness :
  In (mkMention "BAK-12" [1500%Z] [1200%Z]
                "BAK-12 1500 FT FM THR (1500) (1200)")
     (parse_gear_from_text "BAK-12 1500 FT FM THR (1500) (1200)")
  /\ ~ In 1500%Z [1200%Z].
Proof.
  assert (Hm : In (mkMention "BAK-12" [1500%Z] [1200%Z]
                             "BAK-12 1500 FT FM THR (1500) (1200)")
                  (parse_gear_from_text "BAK-12 1500 FT FM THR (1500) (1200)")).
  { vm_compute. left. reflexivity. }
  split; [exact Hm|].
  apply (proj1 (C1_threshold_never_in_misc _ _ Hm) 1500%Z).
  simpl. left. reflexivity.
Defined.

(** C2. The note of the unit test yields exactly two mentions, BAK-12 and
    BAK14, both with from-threshold {1500}, misc {1200} and the note as raw
    field; and in any note all mentions carry the same two sets. *)
Theorem C2_basic_note :
  let note := "RWY 14/32 equipped with BAK-12 and BAK14. 1500 FT FM THR (1200)." in
  parse_gear_from_text note =
    [ mkMention "BAK-12" [1500%Z] [1200%Z] note;
      mkMention "BAK14" [1500%Z] [1200%Z] note ]
  /\ (forall (n : string) (m1 m2 : mention),
        In m1 (parse_gear_from_text n) -> In m2 (parse_gear_from_text n) ->
        distances_from_threshold_ft m1 = distances_from_threshold_ft m2
        /\ distances_misc_ft m1 = distances_misc_ft m2
        /\ raw m1 = raw m2).
Proof.
  split.
  - vm_compute. reflexivity.
  - intros n m1 m2 H1 H2.
    destruct (mention_sets n m1 H1) as (A1 & B1 & C1).
    destruct (mention_sets n m2 H2) as (A2 & B2 & C2).
    repeat split; congruence.
Qed.

Lemma C2_witness :
  distances_from_threshold_ft (mkMention "HOOK BAK-12" [] [1000%Z]
      "HOOK BAK12 available; MB60 also present (1000 FT).")
  = distances_from_threshold_ft (mkMention "MB60" [] [1000%Z]
      "HOOK BAK12 available; MB60 also present (1000 FT).").
Proof.
  refine (proj1 (proj2 C2_basic_note
            "HOOK BAK12 available; MB60 also present (1000 FT)." _ _ _ _)).
  - vm_compute. left. reflexivity.
  - vm_compute. right. left. reflexivity.
Defined.

(** ** Gear detection on a time slice *)

Lemma find_split {A} (p : A -> bool) (l : list A) (x : A) :
  find p l = Some x ->
  exists pre post, l = pre ++ x :: post /\ p x = true
                   /\ forallb (fun y => negb (p y)) pre = true.
Proof.
  induction l as [|a l IH]; simpl; [discriminate|].
  destruct (p a) eqn:Ha.
  - intros [= ->]. exists [], l. auto.
  - intros H. destruct (IH H) as (pre & post & -> & Hx & Hpre).
    exists (a :: pre), post. simpl. rewrite Ha. auto.
Qed.

Lemma find_none_existsb {A} (p : A -> bool) (l : list A) :
  find p l = None <-> existsb p l = false.
Proof.
  induction l as [|a l IH]; simpl; [tauto|].
  destruct (p a); simpl; [split; discriminate | exact IH].
Qed.

(** C10. [sample_gear_note] returns a note exactly when
    [timeslice_has_gear] is true, and what it returns is the stripped text
    of the first note element, in document order, whose text matches the
    generic or the gear-code pattern; below a time slice (whose own tag is
    not "note") that element is a proper descendant. *)
Theorem C10_sample_iff_has_gear :
  forall ts : elem,
    (sample_gear_note ts <> None <-> timeslice_has_gear ts = true)
    /\ (forall t, sample_gear_note ts = Some t ->
          exists pre n post,
            iter ts = pre ++ n :: post
            /\ ltag n = "note" /\ stext n = t /\ mentions_gear t = true
            /\ forallb (fun e => negb (is_gear_note e)) pre = true
            /\ (ltag ts <> "note" -> In n (flat_map iter (echildren ts)))).
Proof.
  intros ts. unfold sample_gear_note, timeslice_has_gear. split.
  - destruct (find is_gear_note (iter ts)) eqn:Hf; simpl.
    + split; [intros _|discriminate].
      destruct (existsb is_gear_note (iter ts)) eqn:He; [reflexivity|].
      apply find_none_existsb in He. congruence.
    + apply find_none_existsb in Hf. rewrite Hf. split; [tauto|discriminate].
  - intros t Ht.
    destruct (find is_gear_note (iter ts)) as [n|] eqn:Hf; [|discriminate].
    simpl in Ht. injection Ht as <-.
    destruct (find_split _ _ _ Hf) as (pre & post & Heq & Hn & Hpre).
    exists pre, n, post.
    unfold is_gear_note in Hn. apply andb_true_iff in Hn.
    destruct Hn as [Htag Hg]. apply String.eqb_eq in Htag.
    repeat split; try assumption.
    intros Hts.
    assert (Hin : In n (iter ts)) by (rewrite Heq; apply in_elt).
    destruct ts as [t a x cs]. simpl in Hin |- *.
    destruct Hin as [<-|Hin]; [|assumption].
    exfalso. apply Hts. exact Htag.
Qed.

Lemma C10_witness :
  exists pre n post,
    iter Samples.test_timeslice = pre ++ n :: post
    /\ ltag n = "note" /\ stext n = "A-GEAR BAK-12, (1200 FT)"
    /\ mentions_gear "A-GEAR BAK-12, (1200 FT)" = true
    /\ forallb (fun e => negb (is_gear_note e)) pre = true
    /\ (ltag Samples.test_timeslice <> "note" ->
        In n (flat_map iter (echildren Samples.test_timeslice))).
Proof.
  apply (proj2 (C10_sample_iff_has_gear Samples.test_timeslice)).
  vm_compute. reflexivity.
Defined.

(** ** Dictionaries *)

Section DictFacts.
Context {K V : Type}.
Variable keq : K -> K -> bool.
Hypothesis keq_eq : forall a b, keq a b = true <-> a = b.

Lemma keq_refl (k : K) : keq k k = true.
Proof. now apply keq_eq. Qed.

Lemma keq_neq (a b : K) : a <> b -> keq a b = false.
Proof.
  intros H. destruct (keq a b) eqn:E; [|reflexivity].
  apply keq_eq in E. contradiction.
Qed.

Lemma get_set_same (k : K) (v : V) (d : list (K * V)) :
  Dict.get keq k (Dict.set keq k v d) = Some v.
Proof.
  induction d as [|[k' v'] d IH]; simpl.
  - now rewrite keq_refl.
  - destruct (keq k' k) eqn:E; simpl; rewrite E; [reflexivity | exact IH].
Qed.

Lemma get_set_other (k k' : K) (v : V) (d : list (K * V)) :
  k <> k' -> Dict.get keq k' (Dict.set keq k v d) = Dict.get keq k' d.
Proof.
  intros Hne. induction d as [|[k0 v0] d IH]; simpl.
  - now rewrite keq_neq.
  - destruct (keq k0 k) eqn:E; simpl.
    + apply keq_eq in E. subst k0. now rewrite keq_neq.
    + destruct (keq k0 k'); [reflexivity | exact IH].
Qed.

Lemma set_keys (k : K) (v : V) (d : list (K * V)) (x : K) :
  In x (map fst (Dict.set keq k v d)) -> x = k \/ In x (map fst d).
Proof.
  induction d as [|[k0 v0] d IH]; simpl.
  - intros [<-|[]]. now left.
  - destruct (keq k0 k) eqn:E; simpl.
    + tauto.
    + intros [<-|H]; [tauto|]. destruct (IH H); tauto.
Qed.
End DictFacts.

Lemma pair_eqb_eq (a b : string * string) : pair_eqb a b = true <-> a = b.
Proof.
  destruct a as [a1 a2], b as [b1 b2]. unfold pair_eqb. simpl.
  rewrite andb_true_iff, !String.eqb_eq. split.
  - intros [-> ->]. reflexivity.
  - intros [= -> ->]. auto.
Qed.

(** ** Final assembly of [index_runways] *)

Section Assembly.
Import Indexer.

Variable pd : pair_dims_t.
Variable ed : end_disp_t.

Local Abbreviation emit := (emit_item pd ed).
Local Abbreviation of_airport a := (fun it => String.eqb (end_airport it) a).

Lemma get_append_at_same (a : string) (x : runway_end) (b : by_airport_t) :
  Dict.get String.eqb a (append_at a x b)
  = Some (match Dict.get String.eqb a b with Some l => l | None => [] end ++ [x]).
Proof. unfold append_at. apply get_set_same, String.eqb_eq. Qed.

Lemma get_append_at_other (a a' : string) (x : runway_end) (b : by_airport_t) :
  a' <> a ->
  Dict.get String.eqb a (append_at a' x b) = Dict.get String.eqb a b.
Proof. intros H. unfold append_at. apply get_set_other; [apply String.eqb_eq | exact H]. Qed.

Lemma get_assemble_ends (ei : end_info_t) :
  forall (b : by_airport_t) (a : string),
    Dict.get String.eqb a (assemble_ends pd ed ei b)
    = match filter (of_airport a) ei with
      | [] => Dict.get String.eqb a b
      | mine =>
          Some (match Dict.get String.eqb a b with Some l => l | None => [] end
                ++ map emit mine)
      end.
Proof.
  unfold assemble_ends.
  induction ei as [|[eid [[a' d] g]] ei IH]; intros b a; simpl; [reflexivity|].
  rewrite IH. simpl.
  destruct (String.eqb_spec a' a) as [->|Hne].
  - rewrite get_append_at_same.
    destruct (filter (of_airport a) ei) as [|it mine]; simpl.
    + reflexivity.
    + now rewrite <- app_assoc.
  - now rewrite get_append_at_other.
Qed.

Lemma fallback_keeps (pairs : pair_dims_t) :
  forall (b : by_airport_t) (a : string),
    Dict.mem String.eqb a b = true ->
    Dict.get String.eqb a (assemble_fallback pairs b) = Dict.get String.eqb a b.
Proof.
  unfold assemble_fallback.
  induction pairs as [|[[a' g] [l w]] pairs IH]; intros b a Hmem; simpl;
    [reflexivity|].
  destruct (Dict.mem String.eqb a' b) eqn:Hm'.
  - now apply IH.
  - assert (Hne : a' <> a) by (intros ->; congruence).
    rewrite IH.
    + apply get_set_other; [apply String.eqb_eq | exact Hne].
    + unfold Dict.mem in *.
      rewrite get_set_other; [exact Hmem | apply String.eqb_eq | exact Hne].
Qed.

Lemma emit_end_resolved (a des gs : string) (L : Z) (w : option Z) :
  Dict.get pair_eqb (a, gs) pd = Some (Some L, w) ->
  emit_end pd ed a des gs
  = mkEnd des
      (Some (Z.max 0 (L - match Dict.get pair_eqb (a, des) ed with
                          | Some D => D
                          | None => 0
                          end)))
      w.
Proof. intros H. unfold emit_end. now rewrite H. Qed.

Lemma get_assemble (ei : end_info_t) (a : string) :
  filter (of_airport a) ei <> [] ->
  Dict.get String.eqb a (assemble pd ei ed)
  = Some (map emit (filter (of_airport a) ei)).
Proof.
  intros Hne. unfold assemble.
  assert (H : Dict.get String.eqb a (assemble_ends pd ed ei [])
              = Some (map emit (filter (of_airport a) ei))).
  { rewrite get_assemble_ends.
    destruct (filter (of_airport a) ei); [contradiction | reflexivity]. }
  rewrite fallback_keeps; [exact H|].
  unfold Dict.mem. now rewrite H.
Qed.

End Assembly.

(** C3. In the final assembly, the list emitted for an airport holds one
    entry per recorded runway end of that airport, in order; an end whose
    pair resolves to a length L gets max(0, L - D), D being the displaced
    threshold recorded for (airport, designator) or 0, and the pair's
    width unchanged.  The document with a pair of 8000 by 150, both ends,
    and 500 displaced on the base end yields 7500 and 8000, width 150. *)
Theorem C3_effective_length :
  (forall (pd : Indexer.pair_dims_t) (ei : Indexer.end_info_t)
          (ed : Indexer.end_disp_t)
          (end_id a des gs : string) (L : Z) (w : option Z),
      In (end_id, (a, des, gs)) ei ->
      Dict.get pair_eqb (a, gs) pd = Some (Some L, w) ->
      exists ends,
        Dict.get String.eqb a (Indexer.assemble pd ei ed) = Some ends
        /\ ends = map (Indexer.emit_item pd ed)
                      (filter (fun it => String.eqb (Indexer.end_airport it) a) ei)
        /\ In (Indexer.mkEnd des
                 (Some (Z.max 0 (L - match Dict.get pair_eqb (a, des) ed with
                                     | Some D => D
                                     | None => 0
                                     end)))
                 w)
              ends)
  /\ Samples.run_runways Samples.runway_doc
     = [("AH_1", [ Indexer.mkEnd "18" (Some 7500%Z) (Some 150%Z);
                   Indexer.mkEnd "36" (Some 8000%Z) (Some 150%Z) ])].
Proof.
  split; [|vm_compute; reflexivity].
  intros pd ei ed end_id a des gs L w Hin Hpair.
  assert (Hmine : In (end_id, (a, des, gs))
                     (filter (fun it => String.eqb (Indexer.end_airport it) a) ei)).
  { apply filter_In. split; [exact Hin | simpl; apply String.eqb_refl]. }
  eexists. split; [|split; [reflexivity|]].
  - apply get_assemble. intros Hnil. rewrite Hnil in Hmine. exact Hmine.
  - rewrite <- (emit_end_resolved pd ed a des gs L w Hpair).
    apply (in_map (Indexer.emit_item pd ed) _ _ Hmine).
Qed.

Lemma C3_witness :
  exists ends,
    Dict.get String.eqb "AH_1"
      (Indexer.assemble [(("AH_1", "ABC123"), (Some 300%Z, Some 150%Z))]
                        [("RWY_BASE_END_ABC123", ("AH_1", "18", "ABC123"))]
                        [(("AH_1", "18"), 500%Z)]) = Some ends
    /\ ends = [Indexer.mkEnd "18" (Some 0%Z) (Some 150%Z)]
    /\ In (Indexer.mkEnd "18" (Some 0%Z) (Some 150%Z)) ends.
Proof.
  apply (proj1 C3_effective_length
           [(("AH_1", "ABC123"), (Some 300%Z, Some 150%Z))]
           [("RWY_BASE_END_ABC123", ("AH_1", "18", "ABC123"))]
           [(("AH_1", "18"), 500%Z)]
           "RWY_BASE_END_ABC123" "AH_1" "18" "ABC123" 300%Z (Some 150%Z)).
  - simpl. left. reflexivity.
  - reflexivity.
Defined.

(** ** Elements and events *)

Lemma elem_ind' (P : elem -> Prop) :
  (forall t a x cs, Forall P cs -> P (Elem t a x cs)) -> forall e, P e.
Proof.
  intros step. fix IH 1. intros [t a x cs]. apply step.
  induction cs as [|c cs IHcs]; constructor; [apply IH | exact IHcs].
Qed.

Lemma fold_left_invariant {S E : Type} (step : S -> E -> S)
      (Inv : S -> Prop) (Q : E -> Prop) :
  (forall s e, Q e -> Inv s -> Inv (step s e)) ->
  forall l s, Forall Q l -> Inv s -> Inv (fold_left step l s).
Proof.
  intros Hstep l. induction l as [|e l IH]; intros s Hl Hs; simpl; [exact Hs|].
  inversion Hl; subst. apply IH; [assumption|]. now apply Hstep.
Qed.

(** Every start event carries the tag and the attributes of an element of
    the document. *)
Lemma start_event_origin (clears : string -> bool) (doc : elem) :
  Forall (fun ev => fst ev = Start ->
                    exists e, In e (iter doc) /\ etag e = etag (snd ev)
                              /\ eattrib e = eattrib (snd ev))
         (events clears doc).
Proof.
  induction doc as [t a x cs IH] using elem_ind'.
  cbn [events]. apply Forall_cons.
  - intros _. exists (Elem t a x cs). simpl. auto.
  - apply Forall_app. split.
    + apply Forall_forall. intros ev Hev.
      apply in_flat_map in Hev. destruct Hev as (c & Hc & Hev).
      rewrite Forall_forall in IH. specialize (IH c Hc).
      rewrite Forall_forall in IH. intros Hs.
      destruct (IH ev Hev Hs) as (e & He & Ht & Ha).
      exists e. split; [|auto]. simpl. right.
      apply in_flat_map. exists c. auto.
    + apply Forall_cons; [|apply Forall_nil]. simpl. discriminate.
Qed.

(** ** [index_airports]: the container identifier *)

Section AirportKeys.
Import Indexer.
Variable pyfloat : Type.
Variable float_of_str : string -> option pyfloat.

Local Abbreviation step := (ap_step pyfloat float_of_str).
Local Abbreviation state := (ap_state pyfloat).
Local Abbreviation keys_ok := (Indexer.keys_ok pyfloat).

Lemma dropped_without_id (st : state) (ts : elem) :
  ltag ts = "AirportHeliportTimeSlice" ->
  Str.truthy_opt (cur_airport_id _ st) = false ->
  step st (End, ts) = st.
Proof.
  intros Htag Hcur. unfold ap_step. rewrite Htag. simpl.
  destruct (cur_airport_id pyfloat st) as [aid|]; [|reflexivity].
  unfold Str.truthy_opt in Hcur. simpl in Hcur. now rewrite Hcur.
Qed.

Lemma keys_ok_step (doc : elem) (st : state) (ev : event_kind * elem) :
  (fst ev = Start ->
   exists e, In e (iter doc) /\ etag e = etag (snd ev)
             /\ eattrib e = eattrib (snd ev)) ->
  keys_ok doc st -> keys_ok doc (step st ev).
Proof.
  intros Horigin Hst. pose proof Hst as (Ha & Hg & Hc).
  destruct ev as [k e]. unfold ap_step.
  destruct (is_start k && (ltag e =? "AirportHeliport")) eqn:B1.
  - apply andb_true_iff in B1. destruct B1 as [Hk Htag].
    destruct k; [|discriminate]. apply String.eqb_eq in Htag.
    split; [exact Ha | split; [exact Hg|]].
    simpl. intros id Hid.
    destruct (Horigin eq_refl) as (e' & Hin & Ht & Hat).
    exists e'. split; [exact Hin|]. simpl in Ht, Hat. split.
    + unfold ltag. now rewrite Ht.
    + unfold attrib_get in *. now rewrite Hat.
  - destruct (is_end k && (ltag e =? "AirportHeliportTimeSlice")) eqn:B2.
    + destruct (cur_airport_id pyfloat st) as [aid|] eqn:Hcur;
        [|exact Hst].
      destruct (Str.truthy aid) eqn:Haid; [|exact Hst].
      assert (Hok : aid <> "" /\ container_id doc aid).
      { split; [intros ->; discriminate | now apply Hc]. }
      split; [|split]; simpl.
      * intros id Hid. apply set_keys in Hid.
        destruct Hid as [->|Hid]; [exact Hok | now apply Ha].
      * intros id Hid.
        destruct (extract_gear_notes e); [now apply Hg|].
        apply set_keys in Hid.
        destruct Hid as [->|Hid]; [exact Hok | now apply Hg].
      * exact Hc.
    + destruct (is_end k && (ltag e =? "AirportHeliport")); [|exact Hst].
      split; [exact Ha | split; [exact Hg|]]. simpl. discriminate.
Qed.

Lemma keys_ok_run (doc : elem) : keys_ok doc (ap_run pyfloat float_of_str doc).
Proof.
  unfold ap_run.
  apply (fold_left_invariant step (keys_ok doc)
           (fun ev => fst ev = Start ->
                      exists e, In e (iter doc) /\ etag e = etag (snd ev)
                                /\ eattrib e = eattrib (snd ev))).
  - intros s e Hq Hs. now apply keys_ok_step.
  - apply start_event_origin.
  - split; [|split]; simpl; intros k H; try contradiction; discriminate.
Qed.

End AirportKeys.

(** C4. A time slice that ends while the container's identifier is
    unknown leaves both maps as they were; the identifier is unknown before
    the first container opens and after a container closes; hence, for
    every document, every key of the airports map and of the gear-notes map
    is the non-empty gml:id of an AirportHeliport element of that
    document. *)
Theorem C4_no_entry_without_container_id :
  forall (pyfloat : Type) (float_of_str : string -> option pyfloat),
    (forall (st : Indexer.ap_state pyfloat) (ts : elem),
        ltag ts = "AirportHeliportTimeSlice" ->
        Str.truthy_opt (Indexer.cur_airport_id _ st) = false ->
        Indexer.ap_step _ float_of_str st (End, ts) = st)
    /\ Indexer.cur_airport_id _ (Indexer.ap_init pyfloat) = None
    /\ (forall (st : Indexer.ap_state pyfloat) (e : elem),
           ltag e = "AirportHeliport" ->
           Indexer.cur_airport_id _
             (Indexer.ap_step _ float_of_str st (End, e)) = None)
    /\ (forall (doc : elem) (k : string),
           In k (map fst (fst (Indexer.index_airports _ float_of_str doc)))
           \/ In k (map fst (snd (Indexer.index_airports _ float_of_str doc))) ->
           k <> "" /\ Indexer.container_id doc k).
Proof.
  intros pyfloat float_of_str. split; [|split; [|split]].
  - apply dropped_without_id.
  - reflexivity.
  - intros st e Htag. unfold Indexer.ap_step. rewrite Htag. reflexivity.
  - intros doc k H.
    destruct (keys_ok_run pyfloat float_of_str doc) as (Ha & Hg & _).
    unfold Indexer.index_airports in H. simpl in H.
    destruct H as [H|H]; [now apply Ha | now apply Hg].
Qed.

Lemma C4_witness :
  Indexer.ap_step _ Decimal.float_of_str (Indexer.ap_init Decimal.dec)
                  (End, Samples.test_timeslice)
  = Indexer.ap_init Decimal.dec
  /\ Samples.run_airports Samples.orphan_doc = ([], [])
  /\ ("AH_1" <> "" /\ Indexer.container_id Samples.airport_doc "AH_1").
Proof.
  split; [|split].
  - apply (proj1 (C4_no_entry_without_container_id _ Decimal.float_of_str));
      reflexivity.
  - vm_compute. reflexivity.
  - apply (proj2 (proj2 (proj2
             (C4_no_entry_without_container_id _ Decimal.float_of_str)))
             Samples.airport_doc "AH_1").
    left. vm_compute. left. reflexivity.
Defined.

(** ** [index_airports]: the state code *)

Section StateCode.
Import Indexer.
Variable pyfloat : Type.
Variable float_of_str : string -> option pyfloat.

Local Abbreviation fields := (Indexer.fields pyfloat).
Local Abbreviation scan_child := (Indexer.scan_child pyfloat float_of_str).
Local Abbreviation scan_children := (Indexer.scan_children pyfloat float_of_str).
Local Abbreviation arp_sub := (Indexer.arp_sub pyfloat float_of_str).
Local Abbreviation extension_sub := (Indexer.extension_sub pyfloat).
Local Abbreviation address_part := (Indexer.address_part pyfloat).
Local Abbreviation org_sub := (Indexer.org_sub pyfloat).

Lemma fold_left_preserves {E : Type} (step : fields -> E -> fields)
      (P : fields -> Prop) :
  (forall f e, P f -> P (step f e)) ->
  forall l f, P f -> P (fold_left step l f).
Proof.
  intros H l. induction l as [|e l IH]; intros f Hf; simpl; [exact Hf|].
  apply IH, H, Hf.
Qed.

(** Once a state code is there, no step replaces it. *)
Lemma arp_sub_code (f : fields) (sub : elem) :
  state_code (arp_sub f sub) = state_code f.
Proof.
  unfold Indexer.arp_sub. destruct (ltag sub =? "pos"); [|reflexivity].
  destruct (parse_pos _ _ _) as [[lo la]|]; reflexivity.
Qed.

Lemma fill_truthy (cur : option string) (e : elem) :
  Str.truthy_opt cur = false ->
  fill cur e = if Str.truthy (stext e) then Some (stext e) else cur.
Proof. intros H. unfold fill. now rewrite H. Qed.

Lemma extension_sub_sticky (f : fields) (sub : elem) :
  has_code f = true -> state_code (extension_sub f sub) = state_code f.
Proof.
  unfold has_code, Indexer.extension_sub. intros H. rewrite H. simpl.
  rewrite andb_false_r.
  destruct ((ltag sub =? "stateName") && _); reflexivity.
Qed.

Lemma address_part_sticky (f : fields) (part : elem) :
  has_code f = true -> state_code (address_part f part) = state_code f.
Proof.
  unfold has_code, Indexer.address_part. intros H. rewrite H. simpl.
  rewrite andb_false_r.
  destruct ((ltag part =? "city") && _); reflexivity.
Qed.

Lemma fold_sticky {E : Type} (step : fields -> E -> fields) :
  (forall f e, has_code f = true -> state_code (step f e) = state_code f) ->
  forall l f, has_code f = true ->
              state_code (fold_left step l f) = state_code f.
Proof.
  intros H l f Hf.
  apply (fold_left_preserves step
           (fun g => state_code g = state_code f)); [|reflexivity].
  intros g e Hg. rewrite H; [exact Hg|]. unfold has_code. rewrite Hg. exact Hf.
Qed.

Lemma org_sub_sticky (f : fields) (sub : elem) :
  has_code f = true -> state_code (org_sub f sub) = state_code f.
Proof.
  intros H. unfold Indexer.org_sub.
  destruct (ltag sub =? "address").
  - now apply fold_sticky; [apply address_part_sticky|].
  - unfold has_code in H. rewrite H. simpl. rewrite andb_false_r.
    destruct ((ltag sub =? "stateName") && _); reflexivity.
Qed.

Lemma scan_child_sticky (f : fields) (child : elem) :
  has_code f = true -> state_code (scan_child f child) = state_code f.
Proof.
  intros H. unfold Indexer.scan_child.
  destruct (ltag child =? "locationIndicatorICAO"); [reflexivity|].
  destruct (ltag child =? "ARP").
  { apply (fold_left_preserves arp_sub
             (fun g => state_code g = state_code f)); [|reflexivity].
    intros g e Hg. now rewrite arp_sub_code. }
  destruct ((ltag child =? "servedCity") && _).
  { destruct (served_city child); reflexivity. }
  destruct (ltag child =? "extension").
  { now apply fold_sticky; [apply extension_sub_sticky|]. }
  destruct (is_org_tag (ltag child)); [|reflexivity].
  now apply fold_sticky; [apply org_sub_sticky|].
Qed.

(** Without a state code yet, each loop stores the first one it meets. *)
Lemma extension_fold_code (l : list elem) :
  forall f, has_code f = false ->
    state_code (fold_left extension_sub l f)
    = match find is_state_code_elem l with
      | Some n => Some (stext n)
      | None => state_code f
      end.
Proof.
  induction l as [|a l IH]; intros f Hf; simpl; [reflexivity|].
  unfold is_state_code_elem at 1.
  assert (Hstep : state_code (extension_sub f a)
                  = if (ltag a =? "countyStatePostOfficeCode")
                       && Str.truthy (stext a)
                    then Some (stext a) else state_code f).
  { unfold Indexer.extension_sub. unfold has_code in Hf. rewrite Hf. simpl.
    rewrite andb_true_r.
    destruct (ltag a =? "countyStatePostOfficeCode"); simpl.
    - rewrite fill_truthy by exact Hf. destruct (Str.truthy (stext a)); reflexivity.
    - destruct ((ltag a =? "stateName") && _); reflexivity. }
  destruct ((ltag a =? "countyStatePostOfficeCode") && Str.truthy (stext a)) eqn:Hp.
  - rewrite fold_sticky; [exact Hstep | apply extension_sub_sticky |].
    unfold has_code. rewrite Hstep. apply andb_true_iff in Hp. apply Hp.
  - rewrite IH; [now rewrite Hstep|]. unfold has_code. now rewrite Hstep.
Qed.

Lemma address_fold_code (l : list elem) :
  forall f, has_code f = false ->
    state_code (fold_left address_part l f)
    = match find is_admin_area_elem l with
      | Some n => Some (stext n)
      | None => state_code f
      end.
Proof.
  induction l as [|a l IH]; intros f Hf; simpl; [reflexivity|].
  unfold is_admin_area_elem at 1.
  assert (Hstep : state_code (address_part f a)
                  = if ((ltag a =? "administrativeArea")
                        || (ltag a =? "stateProvince"))
                       && Str.truthy (stext a)
                    then Some (stext a) else state_code f).
  { unfold Indexer.address_part. unfold has_code in Hf. rewrite Hf. simpl.
    rewrite andb_true_r.
    destruct ((ltag a =? "city") && _) eqn:Hc.
    - apply andb_true_iff in Hc. destruct Hc as [Hc _].
      apply String.eqb_eq in Hc. rewrite Hc. reflexivity.
    - destruct ((ltag a =? "administrativeArea") || (ltag a =? "stateProvince"));
        simpl; [|reflexivity].
      rewrite fill_truthy by exact Hf. destruct (Str.truthy (stext a)); reflexivity. }
  destruct (((ltag a =? "administrativeArea") || (ltag a =? "stateProvince"))
            && Str.truthy (stext a)) eqn:Hp.
  - rewrite fold_sticky; [exact Hstep | apply address_part_sticky |].
    unfold has_code. rewrite Hstep. apply andb_true_iff in Hp. apply Hp.
  - rewrite IH; [now rewrite Hstep|]. unfold has_code. now rewrite Hstep.
Qed.

Lemma org_sub_step_code (f : fields) (sub : elem) :
  has_code f = false ->
  state_code (org_sub f sub)
  = match org_sub_code sub with Some y => Some y | None => state_code f end.
Proof.
  intros Hf. unfold Indexer.org_sub, org_sub_code.
  destruct (ltag sub =? "address") eqn:Ha.
  - rewrite address_fold_code by exact Hf. unfold addr_code.
    destruct (find is_admin_area_elem (iter sub)); reflexivity.
  - unfold is_state_code_elem. unfold has_code in Hf. rewrite Hf. simpl.
    rewrite andb_true_r.
    destruct (ltag sub =? "countyStatePostOfficeCode"); simpl.
    + rewrite fill_truthy by exact Hf. destruct (Str.truthy (stext sub)); reflexivity.
    + destruct ((ltag sub =? "stateName") && _); reflexivity.
Qed.

Lemma truthy_stext_of_find (p : elem -> bool) (l : list elem) (n : elem) :
  (forall e, p e = true -> Str.truthy (stext e) = true) ->
  find p l = Some n -> Str.truthy (stext n) = true.
Proof. intros Hp Hf. apply find_some in Hf. apply Hp, Hf. Qed.

Lemma org_sub_code_truthy (sub : elem) (y : string) :
  org_sub_code sub = Some y -> Str.truthy y = true.
Proof.
  unfold org_sub_code, addr_code.
  destruct (ltag sub =? "address").
  - destruct (find is_admin_area_elem (iter sub)) as [n|] eqn:Hf; [|discriminate].
    intros [= <-]. apply (truthy_stext_of_find _ _ _ (fun e H =>
      proj2 (proj1 (andb_true_iff _ _) H)) Hf).
  - destruct (is_state_code_elem sub) eqn:Hs; [|discriminate].
    intros [= <-]. apply andb_true_iff in Hs. apply Hs.
Qed.

Lemma org_fold_code (l : list elem) :
  forall f, has_code f = false ->
    state_code (fold_left org_sub l f)
    = match first_some org_sub_code l with
      | Some y => Some y
      | None => state_code f
      end.
Proof.
  induction l as [|a l IH]; intros f Hf; simpl; [reflexivity|].
  pose proof (org_sub_step_code f a Hf) as Hstep.
  destruct (org_sub_code a) as [y|] eqn:Hy.
  - rewrite fold_sticky; [exact Hstep | apply org_sub_sticky |].
    unfold has_code. rewrite Hstep. apply (org_sub_code_truthy a y Hy).
  - rewrite IH; [now rewrite Hstep|]. unfold has_code. now rewrite Hstep.
Qed.

Lemma scan_children_app (pre post : list elem) :
  scan_children (pre ++ post) = fold_left scan_child post (scan_children pre).
Proof. unfold Indexer.scan_children. apply fold_left_app. Qed.

Lemma first_found_wins (pre post : list elem) :
  has_code (scan_children pre) = true ->
  state_code (scan_children (pre ++ post)) = state_code (scan_children pre).
Proof.
  intros H. rewrite scan_children_app.
  now apply fold_sticky; [apply scan_child_sticky|].
Qed.

Lemma extension_first (pre post : list elem) (ext : elem) (x : string) :
  ltag ext = "extension" ->
  has_code (scan_children pre) = false ->
  ext_code ext = Some x ->
  state_code (scan_children (pre ++ ext :: post)) = Some x.
Proof.
  intros Htag Hpre Hx. unfold ext_code in Hx.
  destruct (find is_state_code_elem (iter ext)) as [n|] eqn:Hf; [|discriminate].
  injection Hx as <-.
  assert (Hext : state_code (scan_child (scan_children pre) ext) = Some (stext n)).
  { unfold Indexer.scan_child. rewrite Htag. simpl.
    rewrite extension_fold_code by exact Hpre. now rewrite Hf. }
  replace (pre ++ ext :: post) with ((pre ++ [ext]) ++ post)
    by (rewrite <- app_assoc; reflexivity).
  rewrite first_found_wins.
  - rewrite scan_children_app. exact Hext.
  - unfold has_code. rewrite scan_children_app. simpl. rewrite Hext.
    apply (truthy_stext_of_find _ _ _ (fun e H =>
      proj2 (proj1 (andb_true_iff _ _) H)) Hf).
Qed.

Lemma org_first (pre post : list elem) (org : elem) (y : string) :
  is_org_tag (ltag org) = true ->
  has_code (scan_children pre) = false ->
  org_code org = Some y ->
  state_code (scan_children (pre ++ org :: post)) = Some y.
Proof.
  intros Htag Hpre Hy. unfold org_code in Hy.
  assert (Horg : state_code (scan_child (scan_children pre) org) = Some y).
  { unfold Indexer.scan_child.
    assert (Hsel : (ltag org =? "locationIndicatorICAO") = false
                   /\ (ltag org =? "ARP") = false
                   /\ (ltag org =? "servedCity") = false
                   /\ (ltag org =? "extension") = false).
    { unfold is_org_tag in Htag.
      apply orb_true_iff in Htag. destruct Htag as [Htag|Htag];
        [apply orb_true_iff in Htag; destruct Htag as [Htag|Htag]|];
        apply String.eqb_eq in Htag; rewrite Htag; repeat split; reflexivity. }
    destruct Hsel as (-> & -> & -> & ->). simpl. rewrite Htag.
    rewrite org_fold_code by exact Hpre. now rewrite Hy. }
  assert (Hty : Str.truthy y = true).
  { clear Horg. induction (iter org) as [|a l IH]; simpl in Hy; [discriminate|].
    destruct (org_sub_code a) as [z|] eqn:Hz.
    - injection Hy as <-. apply (org_sub_code_truthy a z Hz).
    - apply IH, Hy. }
  replace (pre ++ org :: post) with ((pre ++ [org]) ++ post)
    by (rewrite <- app_assoc; reflexivity).
  rewrite first_found_wins.
  - rewrite scan_children_app. exact Horg.
  - unfold has_code. rewrite scan_children_app. simpl. rewrite Horg. exact Hty.
Qed.

End StateCode.

(** C7, as stated, fails: with the address block before the extension in
    the time slice, the address's field is stored. *)
Lemma C7_counterexample : ~ Indexer.extension_preferred.
Proof.
  intros H.
  specialize (H Decimal.dec Decimal.float_of_str
                Samples.address_first_timeslice "CA" "TX" eq_refl eq_refl).
  vm_compute in H. discriminate H.
Qed.

(** C7, amended. The stored state code is the first non-empty one met in
    document order over the children of the time slice: once one is found,
    every later state field of the same time slice is ignored; an
    extension stores its code when no earlier child has supplied one, and
    so does an organisation or contact block (address field or code) when
    it comes first. *)
Theorem C7_first_state_code_wins :
  forall (pyfloat : Type) (float_of_str : string -> option pyfloat),
    (forall ts : elem,
        Indexer.a_state_code (Indexer.airport_of pyfloat float_of_str ts)
        = Indexer.opt_or_none
            (Indexer.state_code
               (Indexer.scan_children pyfloat float_of_str (echildren ts))))
    /\ (forall pre post : list elem,
          Indexer.has_code (Indexer.scan_children pyfloat float_of_str pre) = true ->
          Indexer.state_code
            (Indexer.scan_children pyfloat float_of_str (pre ++ post))
          = Indexer.state_code (Indexer.scan_children pyfloat float_of_str pre))
    /\ (forall (pre post : list elem) (ext : elem) (x : string),
          ltag ext = "extension" ->
          Indexer.has_code (Indexer.scan_children pyfloat float_of_str pre) = false ->
          Indexer.ext_code ext = Some x ->
          Indexer.state_code
            (Indexer.scan_children pyfloat float_of_str (pre ++ ext :: post))
          = Some x)
    /\ (forall (pre post : list elem) (org : elem) (y : string),
          Indexer.is_org_tag (ltag org) = true ->
          Indexer.has_code (Indexer.scan_children pyfloat float_of_str pre) = false ->
          Indexer.org_code org = Some y ->
          Indexer.state_code
            (Indexer.scan_children pyfloat float_of_str (pre ++ org :: post))
          = Some y).
Proof.
  intros pyfloat float_of_str. split; [|split; [|split]].
  - intros ts. unfold Indexer.airport_of.
    destruct (extract_designator_and_name ts). reflexivity.
  - apply first_found_wins.
  - apply extension_first.
  - apply org_first.
Qed.

Lemma C7_witness :
  Indexer.state_code
    (Indexer.scan_children Decimal.dec Decimal.float_of_str
       (echildren Samples.address_first_timeslice)) = Some "TX"
  /\ Indexer.state_code
       (Indexer.scan_children Decimal.dec Decimal.float_of_str
          (echildren Samples.extension_first_timeslice)) = Some "CA".
Proof.
  split.
  - apply (proj2 (proj2 (proj2
             (C7_first_state_code_wins Decimal.dec Decimal.float_of_str)))
             [Samples.leaf "designator" "TEST"]
             [Samples.node "extension"
                [Samples.node "AirportHeliportExtension"
                   [Samples.leaf "countyStatePostOfficeCode" "CA"]]]
             (Samples.node "contact"
                [Samples.node "ContactInformation"
                   [Samples.node "address"
                      [Samples.node "PostalAddress"
                         [Samples.leaf "administrativeArea" "TX"]]]])
             "TX"); reflexivity.
  - apply (proj1 (proj2 (proj2
             (C7_first_state_code_wins Decimal.dec Decimal.float_of_str)))
             []
             [Samples.node "contact"
                [Samples.node "ContactInformation"
                   [Samples.node "address"
                      [Samples.node "PostalAddress"
                         [Samples.leaf "administrativeArea" "TX"]]]];
              Samples.leaf "designator" "TEST"]
             (Samples.node "extension"
                [Samples.node "AirportHeliportExtension"
                   [Samples.leaf "countyStatePostOfficeCode" "CA"]])
             "CA"); reflexivity.
Defined.

(** ** Strings *)

Section StringFacts.

Lemma append_nil_r (s : string) : (s ++ "")%string = s.
Proof. induction s as [|c s IH]; simpl; [reflexivity | now rewrite IH]. Qed.

Lemma append_assoc (a b c : string) :
  ((a ++ b) ++ c)%string = (a ++ (b ++ c))%string.
Proof. induction a as [|x a IH]; simpl; [reflexivity | now rewrite IH]. Qed.

Lemma length_append (a b : string) :
  String.length (a ++ b) = String.length a + String.length b.
Proof. induction a as [|x a IH]; simpl; [reflexivity | now rewrite IH]. Qed.

Lemma substring_prefix (a b : string) :
  String.substring 0 (String.length a) (a ++ b) = a.
Proof.
  induction a as [|x a IH]; simpl.
  - destruct b; reflexivity.
  - now rewrite IH.
Qed.

Lemma consumed_append (w r : string) : consumed (w ++ r) r = w.
Proof.
  unfold consumed. rewrite length_append.
  replace (String.length w + String.length r - String.length r)
    with (String.length w) by lia.
  apply substring_prefix.
Qed.

Lemma split_ws_aux_token (a : string) :
  forall cur s,
    Str.forall_chars (fun c => negb (is_space c)) a = true ->
    Str.split_ws_aux cur (a ++ s) = Str.split_ws_aux (cur ++ a) s.
Proof.
  induction a as [|c a IH]; intros cur s Ha; simpl.
  - now rewrite append_nil_r.
  - simpl in Ha. apply andb_true_iff in Ha. destruct Ha as [Hc Ha].
    apply negb_true_iff in Hc. rewrite Hc.
    rewrite (IH _ _ Ha), append_assoc. reflexivity.
Qed.

Lemma split_ws_two_tokens (a b : string) :
  Str.is_token a = true -> Str.is_token b = true ->
  Str.split_ws (a ++ " " ++ b) = [a; b].
Proof.
  unfold Str.is_token, Str.split_ws. intros Ha Hb.
  apply andb_true_iff in Ha. destruct Ha as [Ta Ha].
  apply andb_true_iff in Hb. destruct Hb as [Tb Hb].
  rewrite (split_ws_aux_token a _ _ Ha). simpl. rewrite Ta. simpl.
  rewrite <- (append_nil_r b) at 1.
  rewrite (split_ws_aux_token b _ _ Hb). simpl. now rewrite Tb.
Qed.

End StringFacts.

(** ** [index_airports]: the ARP coordinates *)

Section Coordinates.
Import Indexer.
Variable pyfloat : Type.
Variable float_of_str : string -> option pyfloat.

Local Abbreviation fields := (Indexer.fields pyfloat).
Local Abbreviation scan_child := (Indexer.scan_child pyfloat float_of_str).
Local Abbreviation scan_children := (Indexer.scan_children pyfloat float_of_str).
Local Abbreviation arp_sub := (Indexer.arp_sub pyfloat float_of_str).
Local Abbreviation parse_pos := (Indexer.parse_pos pyfloat float_of_str).
Local Abbreviation floats_of := (Indexer.floats_of pyfloat float_of_str).
Local Abbreviation airport_of := (Indexer.airport_of pyfloat float_of_str).

Lemma parse_pos_lon_lat (a b : string) (x y : pyfloat) :
  Str.is_token a = true -> Str.is_token b = true ->
  float_of_str a = Some x -> float_of_str b = Some y ->
  parse_pos (a ++ " " ++ b) = Some (x, y).
Proof.
  intros Ha Hb Hx Hy. unfold Indexer.parse_pos.
  rewrite (split_ws_two_tokens a b Ha Hb). simpl.
  unfold Str.is_token in Ha, Hb.
  apply andb_true_iff in Ha. apply andb_true_iff in Hb.
  destruct Ha as [-> _], Hb as [-> _]. simpl. now rewrite Hx, Hy.
Qed.

Lemma floats_of_fails (l : list string) (x : string) :
  In x l -> float_of_str x = None -> floats_of l = None.
Proof.
  induction l as [|a l IH]; simpl; [intros []|].
  intros [->|Hin] Hx.
  - now rewrite Hx.
  - destruct (float_of_str a); [|reflexivity]. now rewrite (IH Hin Hx).
Qed.

Lemma split_ws_aux_truthy (s : string) :
  forall cur, Forall (fun x => Str.truthy x = true) (Str.split_ws_aux cur s).
Proof.
  induction s as [|c s IH]; intros cur; simpl.
  - destruct (Str.truthy cur) eqn:E; auto.
  - destruct (is_space c).
    + apply Forall_app. split; [|apply IH].
      destruct (Str.truthy cur) eqn:E; auto.
    + apply IH.
Qed.

Lemma filter_all {A} (p : A -> bool) (l : list A) :
  Forall (fun x => p x = true) l -> filter p l = l.
Proof.
  induction 1 as [|x l Hx _ IH]; simpl; [reflexivity|]. now rewrite Hx, IH.
Qed.

Lemma parse_pos_fails (txt x : string) :
  In x (Str.split_ws txt) -> float_of_str x = None -> parse_pos txt = None.
Proof.
  intros Hin Hx. unfold Indexer.parse_pos.
  rewrite filter_all by apply split_ws_aux_truthy.
  now rewrite (floats_of_fails _ x Hin Hx).
Qed.

Lemma parse_pos_absent (sub : elem) :
  etext sub = None -> parse_pos (stext sub) = None.
Proof. intros H. unfold stext. rewrite H. reflexivity. Qed.

Lemma arp_sub_stores (f : fields) (sub : elem) (lo la : pyfloat) :
  ltag sub = "pos" -> parse_pos (stext sub) = Some (lo, la) ->
  lat (arp_sub f sub) = Some la /\ lon (arp_sub f sub) = Some lo.
Proof.
  intros Htag Hp. unfold Indexer.arp_sub. rewrite Htag, Hp. simpl. auto.
Qed.

(** A position that assigns nothing leaves the state as it is. *)
Lemma arp_fold_fails (l : list elem) (f : fields) :
  (forall sub, In sub l -> ltag sub = "pos" -> parse_pos (stext sub) = None) ->
  fold_left arp_sub l f = f.
Proof.
  revert f. induction l as [|a l IH]; intros f H; simpl; [reflexivity|].
  assert (Ha : arp_sub f a = f).
  { unfold Indexer.arp_sub. destruct (String.eqb_spec (ltag a) "pos") as [E|E];
      [|reflexivity].
    now rewrite (H a (or_introl eq_refl) E). }
  rewrite Ha. apply IH. intros sub Hin. apply H. now right.
Qed.

(** The fields other than the coordinates. *)
Lemma same_core_refl (f : fields) : same_core f f.
Proof. repeat split. Qed.

Lemma same_core_trans (f g h : fields) :
  same_core f g -> same_core g h -> same_core f h.
Proof.
  intros (A1 & A2 & A3 & A4) (B1 & B2 & B3 & B4).
  repeat split; congruence.
Qed.

Lemma same_core_sym (f g : fields) : same_core f g -> same_core g f.
Proof. intros (A1 & A2 & A3 & A4). repeat split; congruence. Qed.

Lemma fold_same_core {E : Type} (step : fields -> E -> fields) :
  (forall f g e, same_core f g -> same_core (step f e) (step g e)) ->
  forall l f g, same_core f g -> same_core (fold_left step l f) (fold_left step l g).
Proof.
  intros H l. induction l as [|e l IH]; intros f g Hfg; simpl; [exact Hfg|].
  apply IH, H, Hfg.
Qed.

Lemma fold_keeps_core {E : Type} (step : fields -> E -> fields) :
  (forall f e, same_core (step f e) f) ->
  forall l f, same_core (fold_left step l f) f.
Proof.
  intros H l. induction l as [|e l IH]; intros f; simpl; [apply same_core_refl|].
  eapply same_core_trans; [apply IH | apply H].
Qed.

Ltac core_cases :=
  repeat match goal with
         | |- context [if ?b then _ else _] => destruct b; simpl
         | |- context [match ?o with Some _ => _ | None => _ end] =>
             destruct o; simpl
         end;
  repeat split; reflexivity.

Lemma arp_sub_core (f : fields) (sub : elem) : same_core (arp_sub f sub) f.
Proof.
  unfold Indexer.arp_sub. destruct (ltag sub =? "pos"); [|apply same_core_refl].
  destruct (Indexer.parse_pos _ _ _) as [[lo la]|]; repeat split.
Qed.

Lemma extension_sub_cong (f g : fields) (sub : elem) :
  same_core f g ->
  same_core (Indexer.extension_sub pyfloat f sub)
            (Indexer.extension_sub pyfloat g sub).
Proof.
  destruct f, g. unfold same_core. simpl. intros (-> & -> & -> & ->).
  unfold Indexer.extension_sub, fill. simpl. core_cases.
Qed.

Lemma address_part_cong (f g : fields) (part : elem) :
  same_core f g ->
  same_core (Indexer.address_part pyfloat f part)
            (Indexer.address_part pyfloat g part).
Proof.
  destruct f, g. unfold same_core. simpl. intros (-> & -> & -> & ->).
  unfold Indexer.address_part, fill. simpl. core_cases.
Qed.

Lemma org_sub_cong (f g : fields) (sub : elem) :
  same_core f g ->
  same_core (Indexer.org_sub pyfloat f sub) (Indexer.org_sub pyfloat g sub).
Proof.
  intros H. unfold Indexer.org_sub.
  destruct (ltag sub =? "address").
  - now apply fold_same_core; [apply address_part_cong|].
  - destruct f, g. unfold same_core in *. simpl in *.
    destruct H as (-> & -> & -> & ->). unfold fill. simpl. core_cases.
Qed.

Lemma scan_child_cong (f g : fields) (child : elem) :
  (ltag child =? "ARP") = false ->
  same_core f g -> same_core (scan_child f child) (scan_child g child).
Proof.
  intros Hna H. unfold Indexer.scan_child. rewrite Hna.
  destruct (ltag child =? "locationIndicatorICAO").
  { destruct H as (A1 & A2 & A3 & A4). repeat split; assumption. }
  assert (Hcity : city f = city g) by apply H. rewrite Hcity.
  destruct ((ltag child =? "servedCity") && _).
  { destruct (served_city child); [|exact H].
    destruct H as (A1 & A2 & A3 & A4). repeat split; assumption. }
  destruct (ltag child =? "extension").
  { now apply fold_same_core; [apply extension_sub_cong|]. }
  destruct (is_org_tag (ltag child)); [|exact H].
  now apply fold_same_core; [apply org_sub_cong|].
Qed.

Lemma scan_child_arp_core (f : fields) (child : elem) :
  (ltag child =? "ARP") = true -> same_core (scan_child f child) f.
Proof.
  intros Ha. apply String.eqb_eq in Ha. unfold Indexer.scan_child.
  rewrite Ha. simpl. apply fold_keeps_core, arp_sub_core.
Qed.

Lemma scan_without_arp_core (cs : list elem) :
  forall f g, same_core f g ->
    same_core (fold_left scan_child cs f)
              (fold_left scan_child
                 (filter (fun c => negb (ltag c =? "ARP")) cs) g).
Proof.
  induction cs as [|c cs IH]; intros f g H; simpl; [exact H|].
  destruct (ltag c =? "ARP") eqn:Ha; simpl.
  - apply IH. eapply same_core_trans; [|exact H]. now apply scan_child_arp_core.
  - apply IH. now apply scan_child_cong.
Qed.

(** The coordinates stay absent when no position assigns them. *)
Lemma scan_child_latlon (f : fields) (child : elem) :
  (ltag child =? "ARP") = false ->
  lat (scan_child f child) = lat f /\ lon (scan_child f child) = lon f.
Proof.
  intros Hna. unfold Indexer.scan_child. rewrite Hna.
  destruct (ltag child =? "locationIndicatorICAO"); [split; reflexivity|].
  destruct ((ltag child =? "servedCity") && _).
  { destruct (served_city child); split; reflexivity. }
  destruct (ltag child =? "extension").
  { apply (fold_left_preserves pyfloat (Indexer.extension_sub pyfloat)
             (fun g => lat g = lat f /\ lon g = lon f)); [|split; reflexivity].
    intros g e [Hla Hlo]. rewrite <- Hla, <- Hlo.
    unfold Indexer.extension_sub.
    repeat match goal with
           | |- context [if ?b then _ else _] => destruct b; simpl
           end; split; reflexivity. }
  destruct (is_org_tag (ltag child)); [|split; reflexivity].
  apply (fold_left_preserves pyfloat (Indexer.org_sub pyfloat)
           (fun g => lat g = lat f /\ lon g = lon f)); [|split; reflexivity].
  intros g e [Hla Hlo]. rewrite <- Hla, <- Hlo.
  unfold Indexer.org_sub.
  destruct (ltag e =? "address").
  - apply (fold_left_preserves pyfloat (Indexer.address_part pyfloat)
             (fun h => lat h = lat g /\ lon h = lon g)); [|split; reflexivity].
    intros h e' [Hla' Hlo']. rewrite <- Hla', <- Hlo'.
    unfold Indexer.address_part.
    repeat match goal with
           | |- context [if ?b then _ else _] => destruct b; simpl
           end; split; reflexivity.
  - repeat match goal with
           | |- context [if ?b then _ else _] => destruct b; simpl
           end; split; reflexivity.
Qed.

Lemma scan_latlon_absent (cs : list elem) :
  (forall arp, In arp cs -> ltag arp = "ARP" ->
     forall sub, In sub (iter arp) -> ltag sub = "pos" ->
                 parse_pos (stext sub) = None) ->
  forall f, lat f = None -> lon f = None ->
    lat (fold_left scan_child cs f) = None
    /\ lon (fold_left scan_child cs f) = None.
Proof.
  induction cs as [|c cs IH]; intros H f Hla Hlo; simpl; [auto|].
  apply IH.
  - intros arp Hin. apply H. now right.
  - destruct (ltag c =? "ARP") eqn:Ha.
    + apply String.eqb_eq in Ha. unfold Indexer.scan_child. rewrite Ha. simpl.
      rewrite arp_fold_fails; [exact Hla|].
      intros sub. apply (H c (or_introl eq_refl) Ha).
    + rewrite (proj1 (scan_child_latlon f c Ha)). exact Hla.
  - destruct (ltag c =? "ARP") eqn:Ha.
    + apply String.eqb_eq in Ha. unfold Indexer.scan_child. rewrite Ha. simpl.
      rewrite arp_fold_fails; [exact Hlo|].
      intros sub. apply (H c (or_introl eq_refl) Ha).
    + rewrite (proj2 (scan_child_latlon f c Ha)). exact Hlo.
Qed.

(** The designator and the name do not look at [ARP] children. *)
Lemma designator_and_name_done (code name : option string) (cs : list elem) :
  Str.truthy_opt code && Str.truthy_opt name = true ->
  designator_and_name_loop code name cs = (code, name).
Proof.
  intros H. destruct cs as [|c cs]; simpl; [reflexivity|].
  apply andb_true_iff in H. destruct H as [Hc Hn].
  destruct code as [code|]; [|discriminate]. destruct name as [name|]; [|discriminate].
  simpl. rewrite andb_false_r, andb_false_r.
  unfold Str.truthy_opt in *. simpl in *. now rewrite Hc, Hn.
Qed.

Lemma designator_and_name_without_arp (cs : list elem) :
  forall code name,
    designator_and_name_loop code name
      (filter (fun c => negb (ltag c =? "ARP")) cs)
    = designator_and_name_loop code name cs.
Proof.
  induction cs as [|c cs IH]; intros code name; simpl; [reflexivity|].
  destruct (String.eqb_spec (ltag c) "ARP") as [Ha|Ha]; simpl.
  - rewrite Ha. simpl.
    destruct (Str.truthy_opt code && Str.truthy_opt name) eqn:Hd.
    + rewrite IH. now apply designator_and_name_done.
    + apply IH.
  - destruct ((ltag c =? "designator") && negb (is_some code)).
    + destruct (Str.truthy_opt (Str.or_none (stext c)) && Str.truthy_opt name);
        [reflexivity | apply IH].
    + destruct ((ltag c =? "name") && negb (is_some name)).
      * destruct (Str.truthy_opt code && Str.truthy_opt (Str.or_none (stext c)));
          [reflexivity | apply IH].
      * destruct (Str.truthy_opt code && Str.truthy_opt name);
          [reflexivity | apply IH].
Qed.

(** The coordinates after the scan are those that the positions under the
    [ARP] children assign, taken in the order of the scan. *)
Lemma arp_sub_latlon_cong (f g : fields) (sub : elem) :
  lat f = lat g -> lon f = lon g ->
  lat (arp_sub f sub) = lat (arp_sub g sub)
  /\ lon (arp_sub f sub) = lon (arp_sub g sub).
Proof.
  intros Hla Hlo. unfold Indexer.arp_sub.
  destruct (ltag sub =? "pos"); [|now split].
  destruct (parse_pos (stext sub)) as [[lo la]|]; simpl; now split.
Qed.

Lemma arp_fold_latlon_cong (l : list elem) :
  forall f g, lat f = lat g -> lon f = lon g ->
    lat (fold_left arp_sub l f) = lat (fold_left arp_sub l g)
    /\ lon (fold_left arp_sub l f) = lon (fold_left arp_sub l g).
Proof.
  induction l as [|a l IH]; intros f g Hla Hlo; simpl; [now split|].
  destruct (arp_sub_latlon_cong f g a Hla Hlo) as [H1 H2]. now apply IH.
Qed.

Lemma arp_fold_positions (l : list elem) :
  forall f, fold_left arp_sub (filter (fun sub => ltag sub =? "pos") l) f
            = fold_left arp_sub l f.
Proof.
  induction l as [|a l IH]; intros f; simpl; [reflexivity|].
  destruct (ltag a =? "pos") eqn:E; simpl; [apply IH|].
  rewrite IH. unfold Indexer.arp_sub at 3. now rewrite E.
Qed.

Lemma scan_latlon_positions (cs : list elem) :
  forall f,
    let ps := flat_map
                (fun c => if ltag c =? "ARP"
                          then filter (fun sub => ltag sub =? "pos") (iter c)
                          else []) cs in
    lat (fold_left scan_child cs f) = lat (fold_left arp_sub ps f)
    /\ lon (fold_left scan_child cs f) = lon (fold_left arp_sub ps f).
Proof.
  induction cs as [|c cs IH]; intros f; cbn [flat_map fold_left]; [now split|].
  rewrite fold_left_app.
  destruct (IH (scan_child f c)) as [H1 H2]. cbv zeta in H1, H2.
  rewrite H1, H2. apply arp_fold_latlon_cong.
  - destruct (ltag c =? "ARP") eqn:Ha.
    + rewrite arp_fold_positions. apply String.eqb_eq in Ha.
      unfold Indexer.scan_child. rewrite Ha. reflexivity.
    + apply (scan_child_latlon f c Ha).
  - destruct (ltag c =? "ARP") eqn:Ha.
    + rewrite arp_fold_positions. apply String.eqb_eq in Ha.
      unfold Indexer.scan_child. rewrite Ha. reflexivity.
    + apply (scan_child_latlon f c Ha).
Qed.

(** The last position that converts is the one whose pair stays. *)
Lemma arp_fold_last (l1 l2 : list elem) (sub : elem) (lo la : pyfloat)
      (f : fields) :
  ltag sub = "pos" -> parse_pos (stext sub) = Some (lo, la) ->
  (forall s, In s l2 -> parse_pos (stext s) = None) ->
  lat (fold_left arp_sub (l1 ++ sub :: l2) f) = Some la
  /\ lon (fold_left arp_sub (l1 ++ sub :: l2) f) = Some lo.
Proof.
  intros Htag Hp Hl2. rewrite fold_left_app. cbn [fold_left].
  rewrite arp_fold_fails by (intros s Hin _; now apply Hl2).
  now apply arp_sub_stores.
Qed.

Lemma arp_positions_tag (ts sub : elem) :
  In sub (arp_positions ts) -> ltag sub = "pos".
Proof.
  unfold arp_positions. intros H. apply in_flat_map in H.
  destruct H as (c & _ & H). destruct (ltag c =? "ARP"); [|contradiction].
  apply filter_In in H. now apply String.eqb_eq.
Qed.

Lemma airport_of_latlon (ts : elem) :
  a_lat (airport_of ts)
  = lat (fold_left arp_sub (arp_positions ts) (Indexer.fields0 pyfloat))
  /\ a_lon (airport_of ts)
     = lon (fold_left arp_sub (arp_positions ts) (Indexer.fields0 pyfloat)).
Proof.
  unfold Indexer.airport_of, Indexer.scan_children, arp_positions.
  destruct (extract_designator_and_name ts) as [code name].
  cbn [a_lat a_lon].
  apply (scan_latlon_positions (echildren ts) (Indexer.fields0 pyfloat)).
Qed.

End Coordinates.

(** C9. The position text is read as "lon lat" and stored as latitude and
    longitude: the record of a time slice carries the pair of the last
    position under its ARP children that converts, the second number as
    latitude and the first as longitude.  An absent text, or one with a
    part that [float] rejects, assigns nothing; when no position under the
    ARP children of a time slice assigns anything, latitude and longitude
    are absent.  In every case each other field of the record is what the
    time slice without its ARP children gives, and the record is stored
    under the container's identifier.  On the time slice of the test the
    stored record has latitude 35.2 and longitude -120.5, and with the
    position text "north 35.2" it has neither, with its code, name, ICAO
    indicator and city in place. *)
Theorem C9_coordinates :
  (forall (pyfloat : Type) (float_of_str : string -> option pyfloat),
    (forall (a b : string) (x y : pyfloat),
        Str.is_token a = true -> Str.is_token b = true ->
        float_of_str a = Some x -> float_of_str b = Some y ->
        Indexer.parse_pos pyfloat float_of_str (a ++ " " ++ b) = Some (x, y))
    /\ (forall (f : Indexer.fields pyfloat) (sub : elem) (lo la : pyfloat),
          ltag sub = "pos" ->
          Indexer.parse_pos pyfloat float_of_str (stext sub) = Some (lo, la) ->
          Indexer.lat (Indexer.arp_sub pyfloat float_of_str f sub) = Some la
          /\ Indexer.lon (Indexer.arp_sub pyfloat float_of_str f sub) = Some lo)
    /\ (forall sub : elem,
          etext sub = None ->
          Indexer.parse_pos pyfloat float_of_str (stext sub) = None)
    /\ (forall txt x : string,
          In x (Str.split_ws txt) -> float_of_str x = None ->
          Indexer.parse_pos pyfloat float_of_str txt = None)
    /\ (forall ts : elem,
          (forall arp, In arp (echildren ts) -> ltag arp = "ARP" ->
             forall sub, In sub (iter arp) -> ltag sub = "pos" ->
               Indexer.parse_pos pyfloat float_of_str (stext sub) = None) ->
          let r := Indexer.airport_of pyfloat float_of_str ts in
          let r' := Indexer.airport_of pyfloat float_of_str
                      (Indexer.without_arp ts) in
          Indexer.a_lat r = None /\ Indexer.a_lon r = None
          /\ Indexer.a_code r = Indexer.a_code r'
          /\ Indexer.a_name r = Indexer.a_name r'
          /\ Indexer.a_icao r = Indexer.a_icao r'
          /\ Indexer.a_city r = Indexer.a_city r'
          /\ Indexer.a_state_code r = Indexer.a_state_code r'
          /\ Indexer.a_state r = Indexer.a_state r')
    /\ (forall (st : Indexer.ap_state pyfloat) (ts : elem) (aid : string),
          ltag ts = "AirportHeliportTimeSlice" ->
          Indexer.cur_airport_id _ st = Some aid -> Str.truthy aid = true ->
          Dict.get String.eqb aid
            (Indexer.airports _ (Indexer.ap_step _ float_of_str st (End, ts)))
          = Some (Indexer.airport_of pyfloat float_of_str ts))
    /\ (forall (ts : elem) (before after : list elem) (sub : elem)
               (lo la : pyfloat),
          Indexer.arp_positions ts = before ++ sub :: after ->
          Indexer.parse_pos pyfloat float_of_str (stext sub) = Some (lo, la) ->
          (forall s, In s after ->
                     Indexer.parse_pos pyfloat float_of_str (stext s) = None) ->
          Indexer.a_lat (Indexer.airport_of pyfloat float_of_str ts) = Some la
          /\ Indexer.a_lon (Indexer.airport_of pyfloat float_of_str ts)
             = Some lo)
    /\ (forall ts : elem,
          (forall s, In s (Indexer.arp_positions ts) ->
                     Indexer.parse_pos pyfloat float_of_str (stext s) = None) ->
          Indexer.a_lat (Indexer.airport_of pyfloat float_of_str ts) = None
          /\ Indexer.a_lon (Indexer.airport_of pyfloat float_of_str ts) = None)
    /\ (forall ts : elem,
          let r := Indexer.airport_of pyfloat float_of_str ts in
          let r' := Indexer.airport_of pyfloat float_of_str
                      (Indexer.without_arp ts) in
          Indexer.a_code r = Indexer.a_code r'
          /\ Indexer.a_name r = Indexer.a_name r'
          /\ Indexer.a_icao r = Indexer.a_icao r'
          /\ Indexer.a_city r = Indexer.a_city r'
          /\ Indexer.a_state_code r = Indexer.a_state_code r'
          /\ Indexer.a_state r = Indexer.a_state r'))
  /\ Dict.get String.eqb "AH_1"
       (fst (Samples.run_airports Samples.airport_doc))
     = Some (Indexer.mkAirport Decimal.dec
               (Some "TEST") (Some "Test Field") (Some "KTEST")
               (Some (Decimal.mkDec 352 1)) (Some (Decimal.mkDec (-1205) 1))
               None None None)
  /\ Dict.get String.eqb "AH_1"
       (fst (Samples.run_airports Samples.malformed_arp_doc))
     = Some (Indexer.mkAirport Decimal.dec
               (Some "TEST") (Some "Test Field") (Some "KTEST")
               None None (Some "Testville") None None).
Proof.
  split; [|split; vm_compute; reflexivity].
  intros pyfloat float_of_str.
  assert (Hcore : forall ts : elem,
             let r := Indexer.airport_of pyfloat float_of_str ts in
             let r' := Indexer.airport_of pyfloat float_of_str
                         (Indexer.without_arp ts) in
             Indexer.a_code r = Indexer.a_code r'
             /\ Indexer.a_name r = Indexer.a_name r'
             /\ Indexer.a_icao r = Indexer.a_icao r'
             /\ Indexer.a_city r = Indexer.a_city r'
             /\ Indexer.a_state_code r = Indexer.a_state_code r'
             /\ Indexer.a_state r = Indexer.a_state r').
  { intros ts r r'. subst r r'. unfold Indexer.airport_of.
    unfold extract_designator_and_name.
    destruct ts as [t a x cs]. simpl.
    rewrite designator_and_name_without_arp.
    destruct (designator_and_name_loop None None cs) as [code name]. simpl.
    destruct (scan_without_arp_core pyfloat float_of_str cs
                (Indexer.fields0 pyfloat) (Indexer.fields0 pyfloat)
                (same_core_refl pyfloat _)) as (A1 & A2 & A3 & A4).
    unfold Indexer.scan_children.
    repeat split; try reflexivity; congruence. }
  split; [apply parse_pos_lon_lat|].
  split; [apply arp_sub_stores|].
  split; [apply parse_pos_absent|].
  split; [apply parse_pos_fails|].
  split.
  { intros ts Hfail r r'.
    destruct (Hcore ts) as (B1 & B2 & B3 & B4 & B5 & B6).
    subst r r'.
    assert (Hll : Indexer.a_lat (Indexer.airport_of pyfloat float_of_str ts)
                  = None
                  /\ Indexer.a_lon (Indexer.airport_of pyfloat float_of_str ts)
                     = None).
    { unfold Indexer.airport_of.
      destruct (extract_designator_and_name ts) as [code name]. simpl.
      exact (scan_latlon_absent pyfloat float_of_str (echildren ts) Hfail
               (Indexer.fields0 pyfloat) eq_refl eq_refl). }
    destruct Hll as [Hla Hlo].
    split; [exact Hla|]. split; [exact Hlo|].
    split; [exact B1|]. split; [exact B2|]. split; [exact B3|].
    split; [exact B4|]. split; [exact B5|exact B6]. }
  split.
  { intros st ts aid Htag Hcur Haid. unfold Indexer.ap_step.
    rewrite Htag. simpl. rewrite Hcur, Haid. simpl.
    apply get_set_same, String.eqb_eq. }
  split.
  { intros ts before after sub lo la Hps Hp Hafter.
    destruct (airport_of_latlon pyfloat float_of_str ts) as [-> ->].
    rewrite Hps. apply arp_fold_last; [|exact Hp|exact Hafter].
    apply (arp_positions_tag ts). rewrite Hps.
    apply in_or_app. right. now left. }
  split; [|exact Hcore].
  intros ts Hnone.
  destruct (airport_of_latlon pyfloat float_of_str ts) as [-> ->].
  rewrite arp_fold_fails by (intros s Hin _; now apply Hnone).
  split; reflexivity.
Qed.

Lemma C9_witness :
  Indexer.parse_pos Decimal.dec Decimal.float_of_str ("-120.5" ++ " " ++ "35.2")
  = Some (Decimal.mkDec (-1205) 1, Decimal.mkDec 352 1)
  /\ Indexer.parse_pos Decimal.dec Decimal.float_of_str "-120.5 north" = None
  /\ (Indexer.a_lat
        (Indexer.airport_of Decimal.dec Decimal.float_of_str
           Samples.test_timeslice)
      = Some (Decimal.mkDec 352 1)
      /\ Indexer.a_lon
           (Indexer.airport_of Decimal.dec Decimal.float_of_str
              Samples.test_timeslice)
         = Some (Decimal.mkDec (-1205) 1))
  /\ (Indexer.a_lat
        (Indexer.airport_of Decimal.dec Decimal.float_of_str
           Samples.malformed_arp_timeslice)
      = None
      /\ Indexer.a_lon
           (Indexer.airport_of Decimal.dec Decimal.float_of_str
              Samples.malformed_arp_timeslice)
         = None).
Proof.
  pose proof (proj1 C9_coordinates Decimal.dec Decimal.float_of_str)
    as (H1 & _ & _ & H4 & _ & _ & H7 & H8 & _).
  split; [|split; [|split]].
  - apply H1; reflexivity.
  - apply (H4 "-120.5 north" "north").
    + vm_compute. right. left. reflexivity.
    + reflexivity.
  - apply (H7 Samples.test_timeslice [] []
              (Elem (Samples.GML ++ "pos") [] (Some "-120.5 35.2") [])).
    + reflexivity.
    + reflexivity.
    + intros s [].
  - apply (H8 Samples.malformed_arp_timeslice).
    intros s Hin. vm_compute in Hin. destruct Hin as [<-|[]]. reflexivity.
Defined.

(** ** The matcher *)

Section MatcherFacts.

Lemma in_all_ascii (c : ascii) : In c all_ascii.
Proof.
  unfold all_ascii. rewrite <- (ascii_nat_embedding c).
  apply in_map, in_seq. pose proof (nat_ascii_bounded c). lia.
Qed.

(** What a greedy repetition consumes. *)
Lemma many_spec (p : ascii -> bool) (s : string) :
  forall mn mx pv cs e,
    In e (many p mn mx pv cs s) ->
    exists w, s = (w ++ rest e)%string
              /\ Str.forall_chars p w = true
              /\ mn <= String.length w
              /\ caps e = cs.
Proof.
  induction s as [|c s IH]; intros mn mx pv cs e Hin.
  - simpl in Hin. destruct mn; [|contradiction].
    destruct Hin as [<-|[]]. exists EmptyString. simpl. auto.
  - simpl in Hin.
    assert (Hstop : In e (match mn with
                          | O => [mkPos pv (String c s) cs]
                          | S _ => []
                          end) ->
                    exists w, String c s = (w ++ rest e)%string
                              /\ Str.forall_chars p w = true
                              /\ mn <= String.length w /\ caps e = cs).
    { destruct mn; [|contradiction]. intros [<-|[]].
      exists EmptyString. simpl. auto. }
    destruct (p c && more mx) eqn:Hc; [|now apply Hstop].
    apply in_app_or in Hin. destruct Hin as [Hin|Hin]; [|now apply Hstop].
    apply andb_true_iff in Hc. destruct Hc as [Hc _].
    destruct (IH _ _ _ _ _ Hin) as (w & Hs & Hw & Hlen & Hcaps).
    exists (String c w). simpl. rewrite Hc, Hw, <- Hs.
    repeat split; [lia | exact Hcaps].
Qed.

(** A match consumes a prefix of what is left of the subject. *)
Lemma mt_prefix (r : re) :
  forall st e, In e (mt r st) -> exists w, rest st = (w ++ rest e)%string.
Proof.
  induction r as [|p|r1 IH1 r2 IH2|r1 IH1 r2 IH2|p mn mx|n r1 IH1| | |];
    intros st e Hin; simpl in Hin.
  - destruct Hin as [<-|[]]. now exists EmptyString.
  - destruct (rest st) as [|c s'] eqn:Hr; [contradiction|].
    destruct (p c); [|contradiction]. destruct Hin as [<-|[]].
    now exists (String c EmptyString).
  - apply in_flat_map in Hin. destruct Hin as (e1 & H1 & H2).
    destruct (IH1 _ _ H1) as (w1 & E1). destruct (IH2 _ _ H2) as (w2 & E2).
    exists (w1 ++ w2)%string. now rewrite E1, E2, append_assoc.
  - apply in_app_or in Hin. destruct Hin as [H|H]; [now apply IH1 | now apply IH2].
  - destruct (many_spec _ _ _ _ _ _ _ Hin) as (w & Hs & _). now exists w.
  - apply in_map_iff in Hin. destruct Hin as (e1 & <- & H1). simpl.
    now apply IH1.
  - destruct (xorb _ _); [|contradiction]. destruct Hin as [<-|[]].
    now exists EmptyString.
  - destruct (prev st); [contradiction|]. destruct Hin as [<-|[]].
    now exists EmptyString.
  - destruct (rest st) as [|c [|c' s']] eqn:Hr; try contradiction.
    + destruct Hin as [<-|[]]. now exists EmptyString.
    + destruct (Ascii.eqb c "010"); [|contradiction]. destruct Hin as [<-|[]].
      now exists EmptyString.
Qed.

(** A finite pattern only matches a text of its enumeration. *)
Lemma enum_sound (r : re) :
  finite r = true ->
  forall st e, In e (mt r st) ->
    exists w, In w (enum r) /\ rest st = (w ++ rest e)%string.
Proof.
  induction r as [|p|r1 IH1 r2 IH2|r1 IH1 r2 IH2|p mn mx|n r1 IH1| | |];
    intros Hfin st e Hin; simpl in Hin, Hfin.
  - destruct Hin as [<-|[]]. exists EmptyString. simpl. auto.
  - destruct (rest st) as [|c s'] eqn:Hr; [contradiction|].
    destruct (p c) eqn:Hc; [|contradiction]. destruct Hin as [<-|[]].
    exists (String c EmptyString). split; [|reflexivity].
    cbn [enum]. apply (in_map (fun c => String c EmptyString)).
    apply filter_In. split; [apply in_all_ascii | exact Hc].
  - apply andb_true_iff in Hfin. destruct Hfin as [F1 F2].
    apply in_flat_map in Hin. destruct Hin as (e1 & H1 & H2).
    destruct (IH1 F1 _ _ H1) as (w1 & I1 & E1).
    destruct (IH2 F2 _ _ H2) as (w2 & I2 & E2).
    exists (w1 ++ w2)%string. split.
    + simpl. apply in_flat_map. exists w1. split; [exact I1|].
      now apply in_map.
    + now rewrite E1, E2, append_assoc.
  - apply andb_true_iff in Hfin. destruct Hfin as [F1 F2].
    apply in_app_or in Hin. destruct Hin as [H|H].
    + destruct (IH1 F1 _ _ H) as (w & I & E). exists w. split; [|exact E].
      simpl. apply in_or_app. now left.
    + destruct (IH2 F2 _ _ H) as (w & I & E). exists w. split; [|exact E].
      simpl. apply in_or_app. now right.
  - discriminate.
  - apply in_map_iff in Hin. destruct Hin as (e1 & <- & H1). simpl.
    now apply IH1.
  - destruct (xorb _ _); [|contradiction]. destruct Hin as [<-|[]].
    exists EmptyString. simpl. auto.
  - destruct (prev st); [contradiction|]. destruct Hin as [<-|[]].
    exists EmptyString. simpl. auto.
  - destruct (rest st) as [|c [|c' s']] eqn:Hr; try contradiction.
    + destruct Hin as [<-|[]]. exists EmptyString. simpl. auto.
    + destruct (Ascii.eqb c "010"); [|contradiction]. destruct Hin as [<-|[]].
      exists EmptyString. simpl. auto.
Qed.

(** A pattern without groups leaves the captures alone. *)
Lemma groupless_caps (r : re) :
  groupless r = true ->
  forall st e, In e (mt r st) -> caps e = caps st.
Proof.
  induction r as [|p|r1 IH1 r2 IH2|r1 IH1 r2 IH2|p mn mx|n r1 IH1| | |];
    intros Hg st e Hin; simpl in Hin, Hg.
  - now destruct Hin as [<-|[]].
  - destruct (rest st) as [|c s']; [contradiction|].
    destruct (p c); [|contradiction]. now destruct Hin as [<-|[]].
  - apply andb_true_iff in Hg. destruct Hg as [G1 G2].
    apply in_flat_map in Hin. destruct Hin as (e1 & H1 & H2).
    rewrite (IH2 G2 _ _ H2). now apply IH1.
  - apply andb_true_iff in Hg. destruct Hg as [G1 G2].
    apply in_app_or in Hin. destruct Hin as [H|H]; [now apply IH1 | now apply IH2].
  - now destruct (many_spec _ _ _ _ _ _ _ Hin) as (w & _ & _ & _ & Hc).
  - discriminate.
  - destruct (xorb _ _); [|contradiction]. now destruct Hin as [<-|[]].
  - destruct (prev st); [contradiction|]. now destruct Hin as [<-|[]].
  - destruct (rest st) as [|c [|c' s']]; try contradiction.
    + now destruct Hin as [<-|[]].
    + destruct (Ascii.eqb c "010"); [|contradiction]. now destruct Hin as [<-|[]].
Qed.

(** A match object comes from an end position of the matcher. *)
Lemma match_at_some (r : re) (pv : option ascii) (s : string) (m : mobj) :
  match_at r pv s = Some m ->
  exists e, In e (mt r (mkPos pv s []))
            /\ whole m = consumed s (rest e) /\ groups m = caps e.
Proof.
  unfold match_at. destruct (mt r (mkPos pv s [])) as [|e l] eqn:Hm; [discriminate|].
  intros [= <-]. exists e. simpl. auto.
Qed.

Lemma search_from_some (r : re) (s : string) :
  forall pv m, search_from r pv s = Some m ->
    exists pre pv' s', s = (pre ++ s')%string /\ match_at r pv' s' = Some m.
Proof.
  induction s as [|c s IH]; intros pv m H; simpl in H.
  - destruct (match_at r pv "") eqn:Hm; [|discriminate].
    injection H as <-. exists EmptyString, pv, EmptyString. auto.
  - destruct (match_at r pv (String c s)) eqn:Hm.
    + injection H as <-. exists EmptyString, pv, (String c s). auto.
    + destruct (IH _ _ H) as (pre & pv' & s' & -> & Hs').
      exists (String c pre), pv', s'. auto.
Qed.

Lemma finditer_from_in (r : re) (s : string) :
  forall skip pv m, In m (finditer_from r skip pv s) ->
    exists pv' s', match_at r pv' s' = Some m.
Proof.
  induction s as [|c s IH]; intros skip pv m H; destruct skip; simpl in H.
  - destruct (match_at r pv "") eqn:Hm; [|contradiction].
    destruct H as [<-|[]]. eauto.
  - contradiction.
  - destruct (match_at r pv (String c s)) eqn:Hm.
    + destruct H as [<-|H]; [eauto | now apply IH in H].
    + now apply IH in H.
  - now apply IH in H.
Qed.

Lemma finditer_in (r : re) (s : string) (m : mobj) :
  In m (finditer r s) -> exists pv' s', match_at r pv' s' = Some m.
Proof. apply finditer_from_in. Qed.

End MatcherFacts.

Section MatcherInversion.

Lemma mt_seq (a b : re) (st e : pos) :
  In e (mt (Seq a b) st) -> exists e1, In e1 (mt a st) /\ In e (mt b e1).
Proof. intros H. apply in_flat_map in H. exact H. Qed.

Lemma mt_alt (a b : re) (st e : pos) :
  In e (mt (Alt a b) st) -> In e (mt a st) \/ In e (mt b st).
Proof. intros H. apply in_app_or in H. exact H. Qed.

Lemma mt_eps (st e : pos) : In e (mt Eps st) -> e = st.
Proof. intros [<-|[]]. reflexivity. Qed.

Lemma mt_wb (st e : pos) : In e (mt Wb st) -> e = st.
Proof.
  simpl. destruct (xorb _ _); [|contradiction]. intros [<-|[]]. reflexivity.
Qed.

Lemma mt_cls (p : ascii -> bool) (st e : pos) :
  In e (mt (Cls p) st) ->
  exists c, rest st = String c (rest e) /\ p c = true /\ caps e = caps st.
Proof.
  simpl. destruct (rest st) as [|c s']; [contradiction|].
  destruct (p c) eqn:Hc; [|contradiction]. intros [<-|[]].
  exists c. simpl. auto.
Qed.

Lemma mt_grp (n : nat) (a : re) (st e : pos) :
  In e (mt (Grp n a) st) ->
  exists e1, In e1 (mt a st)
             /\ rest e = rest e1
             /\ caps e = (n, consumed (rest st) (rest e1)) :: caps e1.
Proof.
  intros H. apply in_map_iff in H. destruct H as (e1 & <- & H1).
  exists e1. simpl. auto.
Qed.

(** A group around a finite, group-free pattern captures a text of its
    enumeration. *)
Lemma mt_grp_finite (n : nat) (a : re) (st e : pos) :
  finite a = true -> groupless a = true ->
  In e (mt (Grp n a) st) ->
  exists w, In w (enum a) /\ rest st = (w ++ rest e)%string
            /\ caps e = (n, w) :: caps st.
Proof.
  intros Hf Hg H. destruct (mt_grp _ _ _ _ H) as (e1 & H1 & Hr & Hc).
  destruct (enum_sound a Hf _ _ H1) as (w & Hw & Hs).
  exists w. rewrite Hr, Hc, Hs, consumed_append.
  rewrite (groupless_caps a Hg _ _ H1). auto.
Qed.

(** The shape of a match of [GEAR_TYPE_RE]: the code alone, or a HOOK
    token, white space, and the code. *)
Lemma gear_match_shape (pv : option ascii) (s : string) (m : mobj) :
  match_at GEAR_TYPE_RE pv s = Some m ->
  exists g, In g (enum gear_codes) /\ group 2 m = Some g
    /\ ((group 1 m = None /\ whole m = g)
        \/ (exists h ws, In h (enum (lit_i "HOOK"))
              /\ group 1 m = Some h
              /\ Str.forall_chars is_space ws = true
              /\ 1 <= String.length ws
              /\ whole m = (h ++ ws ++ g)%string)).
Proof.
  intros Hm. destruct (match_at_some _ _ _ _ Hm) as (e & He & Hw & Hg).
  unfold GEAR_TYPE_RE in He. cbn [seqs] in He.
  apply mt_seq in He. destruct He as (e1 & H1 & He).
  apply mt_wb in H1. subst e1.
  apply mt_seq in He. destruct He as (e2 & H2 & He).
  apply mt_seq in He. destruct He as (e3 & H3 & He).
  apply mt_wb in He. subst e3.
  apply mt_grp_finite in H3; [|reflexivity|reflexivity].
  destruct H3 as (g & Hgin & Hr2 & Hc).
  exists g. split; [exact Hgin|].
  unfold group. rewrite Hg, Hc. cbn [assoc_nat Nat.eqb].
  unfold opt in H2. apply mt_alt in H2. destruct H2 as [H2|H2].
  - apply mt_seq in H2. destruct H2 as (e4 & H4 & H2).
    apply mt_grp_finite in H4; [|reflexivity|reflexivity].
    destruct H4 as (h & Hhin & Hr4 & Hc4).
    unfold sp_plus in H2. cbn [mt] in H2.
    destruct (many_spec _ _ _ _ _ _ _ H2) as (ws & Hws & Hsp & Hlen & Hc2).
    split; [reflexivity|]. right. exists h, ws.
    rewrite Hc2, Hc4. cbn [assoc_nat Nat.eqb].
    split; [exact Hhin|]. split; [reflexivity|].
    split; [exact Hsp|]. split; [exact Hlen|].
    rewrite Hw. cbn [rest] in Hr4. rewrite Hr4, Hws, Hr2.
    replace (h ++ ws ++ g ++ rest e)%string
      with ((h ++ ws ++ g) ++ rest e)%string
      by (now rewrite !append_assoc).
    apply consumed_append.
  - apply mt_eps in H2. subst e2. cbn [caps assoc_nat].
    split; [reflexivity|]. left. split; [reflexivity|].
    rewrite Hw. cbn [rest] in Hr2. rewrite Hr2. apply consumed_append.
Qed.

(** The shape of a match of the cross-reference pattern. *)
Lemma gml_id_match_shape (pv : option ascii) (s : string) (m : mobj) :
  match_at GML_ID_REF_RE pv s = Some m ->
  exists v post,
    s = ("@gml:id='" ++ v ++ "'" ++ post)%string
    /\ group 1 m = Some v
    /\ 1 <= String.length v
    /\ Str.forall_chars (fun c => negb (Ascii.eqb c "'")) v = true.
Proof.
  intros Hm. destruct (match_at_some _ _ _ _ Hm) as (e & He & Hw & Hg).
  unfold GML_ID_REF_RE in He. cbn [seqs] in He.
  apply mt_seq in He. destruct He as (e1 & H1 & He).
  apply mt_seq in He. destruct He as (e2 & H2 & He).
  apply (enum_sound (lit "@gml:id='") eq_refl) in H1.
  destruct H1 as (w1 & Hw1 & Hs1).
  vm_compute in Hw1. destruct Hw1 as [<-|[]]. cbn [rest] in Hs1.
  apply mt_grp in H2. destruct H2 as (e0 & H0 & Hr & Hc).
  cbn [mt] in H0.
  destruct (many_spec _ _ _ _ _ _ _ H0) as (v & Hv & Hnq & Hlen & Hc0).
  apply mt_cls in He. destruct He as (c & Hrc & Hq & Hce).
  apply Ascii.eqb_eq in Hq. subst c.
  exists v, (rest e). split; [|split; [|split]]; try assumption.
  - rewrite Hs1, Hv, <- Hr, Hrc. reflexivity.
  - unfold group. rewrite Hg, Hce, Hc, Hv, consumed_append. reflexivity.
Qed.

End MatcherInversion.

(** ** Gear codes *)

Section GearCodes.

Lemma hook_tokens_upper :
  forallb (fun h => String.eqb (Str.upper h) "HOOK") (enum (lit_i "HOOK")) = true.
Proof. vm_compute. reflexivity. Qed.

(** On every text of the catalogue, normalizing twice is normalizing
    once, and the result has no lower-case letter. *)
Lemma catalogue_checked :
  forallb (fun g =>
             String.eqb (normalize_code (normalize_code g)) (normalize_code g)
             && Str.forall_chars (fun c => negb (is_lower c)) (normalize_code g))
          (enum gear_codes) = true.
Proof. vm_compute. reflexivity. Qed.

Lemma bak12_table :
  forallb (fun l =>
             String.eqb (normalize_raw ("BAK12" ++ l)) ("BAK-12" ++ l)
             && String.eqb (normalize_raw ("BAK-12" ++ l)) ("BAK-12" ++ l))
          opt_upper_letters = true.
Proof. vm_compute. reflexivity. Qed.

Lemma e_series_table :
  forallb (fun n =>
             forallb (fun l =>
                        String.eqb (normalize_raw ("E" ++ n ++ l)) ("E-" ++ n ++ l)
                        && String.eqb (normalize_raw ("E-" ++ n ++ l))
                                      ("E-" ++ n ++ l))
                     opt_upper_letters)
          ["5"; "28"; "32"] = true.
Proof. vm_compute. reflexivity. Qed.

Lemma upper_char_idem (c : ascii) : upper_char (upper_char c) = upper_char c.
Proof. destruct c as [[] [] [] [] [] [] [] []]; reflexivity. Qed.

Lemma upper_idem (s : string) : Str.upper (Str.upper s) = Str.upper s.
Proof.
  induction s as [|c s IH]; simpl; [reflexivity|].
  now rewrite upper_char_idem, IH.
Qed.

Lemma catalogue_code (txt : string) (m : mobj) :
  In m (finditer GEAR_TYPE_RE txt) ->
  exists g, In g (enum gear_codes) /\ group 2 m = Some g
    /\ ((group 1 m = None /\ whole m = g)
        \/ (exists h ws, In h (enum (lit_i "HOOK"))
              /\ group 1 m = Some h
              /\ Str.forall_chars is_space ws = true
              /\ 1 <= String.length ws
              /\ whole m = (h ++ ws ++ g)%string)).
Proof.
  intros H. destruct (finditer_in _ _ _ H) as (pv & s & Hm).
  exact (gear_match_shape pv s m Hm).
Qed.

End GearCodes.

(** C5. The normalizer works on the upper-cased code; BAK12 and BAK-12,
    with an optional trailing letter, become BAK-12 and the letter; MB-60 and
    MB60 become MB60; E5, E28 and E32, hyphenated or not, with an optional
    letter, become E-5, E-28, E-32 and the letter.  A match of the gear
    pattern is either the code alone, and the type is the normalized code,
    or a HOOK token followed by white space and the code, and the type is
    "HOOK " and the normalized code.  The note of the unit test yields
    HOOK BAK-12 and MB60. *)
Theorem C5_gear_code_normalization :
  (forall g, normalize_code g = normalize_code (Str.upper g))
  /\ (forall g l, In l opt_upper_letters ->
        Str.upper g = ("BAK12" ++ l)%string \/ Str.upper g = ("BAK-12" ++ l)%string ->
        normalize_code g = ("BAK-12" ++ l)%string)
  /\ (forall g, Str.upper g = "MB-60" \/ Str.upper g = "MB60" ->
        normalize_code g = "MB60")
  /\ (forall g n l, In n ["5"; "28"; "32"] -> In l opt_upper_letters ->
        Str.upper g = ("E" ++ n ++ l)%string \/ Str.upper g = ("E-" ++ n ++ l)%string ->
        normalize_code g = ("E-" ++ n ++ l)%string)
  /\ (forall note m,
        In m (finditer GEAR_TYPE_RE (Str.strip note)) ->
        exists g,
          group 2 m = Some g
          /\ Str.forall_chars (fun c => negb (is_lower c)) (normalize_code g) = true
          /\ ((group 1 m = None /\ whole m = g
               /\ mtype (mention_of (Str.strip note) m) = normalize_code g)
              \/ (exists h ws,
                    group 1 m = Some h /\ Str.upper h = "HOOK"
                    /\ Str.forall_chars is_space ws = true /\ ws <> ""
                    /\ whole m = (h ++ ws ++ g)%string
                    /\ mtype (mention_of (Str.strip note) m)
                       = ("HOOK " ++ normalize_code g)%string)))
  /\ map mtype
         (parse_gear_from_text "HOOK BAK12 available; MB60 also present (1000 FT).")
     = ["HOOK BAK-12"; "MB60"].
Proof.
  split; [|split; [|split; [|split; [|split]]]].
  - intros g. unfold normalize_code. now rewrite upper_idem.
  - intros g l Hl H. unfold normalize_code.
    pose proof (proj1 (forallb_forall _ _) bak12_table l Hl) as Ht.
    apply andb_true_iff in Ht. destruct Ht as [T1 T2].
    apply String.eqb_eq in T1, T2.
    destruct H as [-> | ->]; assumption.
  - intros g H. unfold normalize_code. destruct H as [-> | ->]; reflexivity.
  - intros g n l Hn Hl H. unfold normalize_code.
    pose proof (proj1 (forallb_forall _ _) e_series_table n Hn) as Ht.
    pose proof (proj1 (forallb_forall _ _) Ht l Hl) as Ht'.
    apply andb_true_iff in Ht'. destruct Ht' as [T1 T2].
    apply String.eqb_eq in T1, T2.
    destruct H as [-> | ->]; assumption.
  - intros note m Hm.
    destruct (catalogue_code _ _ Hm) as (g & Hg & H2 & Hshape).
    pose proof (proj1 (forallb_forall _ _) catalogue_checked g Hg) as Hc.
    apply andb_true_iff in Hc. destruct Hc as [_ Hlow].
    exists g. split; [exact H2|]. split; [exact Hlow|].
    unfold mention_of. cbn [mtype]. rewrite H2. cbn [Str.or_empty].
    destruct Hshape as [[H1 Hw] | (h & ws & Hh & H1 & Hsp & Hlen & Hw)].
    + left. rewrite H1. auto.
    + right. exists h, ws.
      pose proof (proj1 (forallb_forall _ _) hook_tokens_upper h Hh) as Hu.
      apply String.eqb_eq in Hu.
      rewrite H1. unfold gear_type.
      assert (Ht : Str.truthy_opt (Some h) = true).
      { destruct h; [discriminate Hu | reflexivity]. }
      rewrite Ht.
      repeat split; try assumption.
      intros ->. simpl in Hlen. lia.
  - vm_compute. reflexivity.
Qed.

Lemma C5_witness :
  normalize_code "bak12b" = "BAK-12B"
  /\ normalize_code "e28x" = "E-28X"
  /\ normalize_code "Mb-60" = "MB60".
Proof.
  split; [|split].
  - apply (proj1 (proj2 C5_gear_code_normalization) "bak12b" "B").
    + vm_compute. do 2 right. left. reflexivity.
    + left. reflexivity.
  - apply (proj1 (proj2 (proj2 (proj2 C5_gear_code_normalization)))
             "e28x" "28" "X").
    + simpl. auto.
    + vm_compute. do 24 right. left. reflexivity.
    + left. reflexivity.
  - apply (proj1 (proj2 (proj2 C5_gear_code_normalization)) "Mb-60").
    left. reflexivity.
Defined.

(** C6. The normalized form of every code that the gear pattern captures
    is left unchanged by the normalizer, and so are the canonical codes
    BAK-12, BAK-12A, BAK14, MB60, EMAS, MAAS, E-5, E-28 and E-32. *)
Theorem C6_normalization_idempotent :
  (forall txt m g,
      In m (finditer GEAR_TYPE_RE txt) -> group 2 m = Some g ->
      normalize_code (normalize_code g) = normalize_code g)
  /\ Forall (fun c => normalize_code c = c)
            ["BAK-12"; "BAK-12A"; "BAK14"; "MB60"; "EMAS"; "MAAS";
             "E-5"; "E-28"; "E-32"].
Proof.
  split.
  - intros txt m g Hm Hg.
    destruct (catalogue_code _ _ Hm) as (g' & Hin & H2 & _).
    assert (g' = g) by congruence. subst g'.
    pose proof (proj1 (forallb_forall _ _) catalogue_checked g Hin) as Hc.
    apply andb_true_iff in Hc. destruct Hc as [Hid _].
    now apply String.eqb_eq in Hid.
  - repeat (apply Forall_cons; [vm_compute; reflexivity|]). apply Forall_nil.
Qed.

Lemma C6_witness :
  normalize_code (normalize_code "bak12a") = normalize_code "bak12a".
Proof.
  apply (proj1 C6_normalization_idempotent "hook bak12a"
           (mkM "hook bak12a" [(2, "bak12a"); (1, "hook")] 11) "bak12a").
  - vm_compute. left. reflexivity.
  - reflexivity.
Defined.

(** ** Cross-references *)

Section References.
Import Indexer.

Lemma resolve_href_sound (href v : string) :
  resolve_href href = Some v -> has_id_predicate href v.
Proof.
  unfold resolve_href.
  destruct (search GML_ID_REF_RE href) as [m|] eqn:Hs; [|discriminate].
  intros Hg. unfold search in Hs.
  destruct (search_from_some _ _ _ _ Hs) as (pre & pv & s' & -> & Hm).
  destruct (gml_id_match_shape _ _ _ Hm) as (v' & post & -> & Hg' & Hlen & Hq).
  assert (v' = v) by congruence. subst v'.
  exists pre, post. split; [reflexivity|]. split; [|exact Hq].
  intros ->. simpl in Hlen. lia.
Qed.

Lemma resolve_href_unmatched (href : string) :
  (forall v, ~ has_id_predicate href v) -> resolve_href href = None.
Proof.
  intros H. destruct (resolve_href href) as [v|] eqn:Hr; [|reflexivity].
  exfalso. exact (H v (resolve_href_sound _ _ Hr)).
Qed.

Lemma resolve_href_absent (e : elem) :
  attrib_get XLINK_HREF e = None ->
  resolve_href (attrib_get_str XLINK_HREF e) = None.
Proof. intros H. unfold attrib_get_str. rewrite H. reflexivity. Qed.

Lemma first_airport_ref_none (l : list elem) :
  (forall c, In c l -> is_airport_ref_tag (ltag c) = true ->
             resolve_href (attrib_get_str XLINK_HREF c) = None) ->
  first_airport_ref l = None.
Proof.
  induction l as [|c l IH]; intros H; simpl; [reflexivity|].
  destruct (is_airport_ref_tag (ltag c)) eqn:Ht.
  - rewrite (H c (or_introl eq_refl) Ht). apply IH.
    intros c' Hin. apply H. now right.
  - apply IH. intros c' Hin. apply H. now right.
Qed.

Lemma gna_step_unresolved (g : list (string * list string)) (e : elem) :
  (forall c, In c (iter e) -> is_airport_ref_tag (ltag c) = true ->
             resolve_href (attrib_get_str XLINK_HREF c) = None) ->
  gna_step g e = g.
Proof.
  intros H. unfold gna_step.
  destruct (negb (Str.endswith "TimeSlice" (ltag e))); [reflexivity|].
  now rewrite (first_airport_ref_none _ H).
Qed.

Section Runways.
Variable pyfloat : Type.
Variable float_of_str : string -> option pyfloat.
Variable int_of_float : pyfloat -> option Z.

Local Abbreviation rw_step := (Indexer.rw_step pyfloat float_of_str int_of_float).
Local Abbreviation record_runway :=
  (Indexer.record_runway pyfloat float_of_str int_of_float).
Local Abbreviation record_direction :=
  (Indexer.record_direction pyfloat float_of_str int_of_float).
Local Abbreviation scan_rts := (Indexer.scan_rts pyfloat float_of_str int_of_float).
Local Abbreviation rts_child := (Indexer.rts_child pyfloat float_of_str int_of_float).

Lemma scan_rts_unresolved (ts : elem) :
  (forall c, In c (echildren ts) -> ltag c = "associatedAirportHeliport" ->
             resolve_href (attrib_get_str XLINK_HREF c) = None) ->
  airport_ref (scan_rts ts) = None.
Proof.
  intros H. unfold Indexer.scan_rts.
  apply (fold_left_invariant rts_child (fun r => airport_ref r = None)
           (fun c => ltag c = "associatedAirportHeliport" ->
                     resolve_href (attrib_get_str XLINK_HREF c) = None)).
  - intros r c Hc Hr. unfold Indexer.rts_child.
    destruct (ltag c =? "designator"); [exact Hr|].
    destruct (String.eqb_spec (ltag c) "associatedAirportHeliport") as [E|E].
    + now rewrite (Hc E).
    + destruct (ltag c =? "lengthStrip"); [exact Hr|].
      destruct (ltag c =? "widthStrip"); exact Hr.
  - apply Forall_forall. exact H.
  - reflexivity.
Qed.

Lemma runway_slice_dropped (st : rw_state) (ts : elem) :
  ltag ts = "RunwayTimeSlice" ->
  (forall c, In c (echildren ts) -> ltag c = "associatedAirportHeliport" ->
             resolve_href (attrib_get_str XLINK_HREF c) = None) ->
  rw_step st (End, ts) = st.
Proof.
  intros Htag H. unfold Indexer.rw_step. rewrite Htag.
  change (record_runway st ts = st). unfold Indexer.record_runway.
  rewrite (scan_rts_unresolved ts H).
  destruct (cur_runway_id st); reflexivity.
Qed.

Lemma correction_dropped (st : rw_state) (ts : elem) (did : string) :
  ltag ts = "RunwayDirectionTimeSlice" ->
  cur_rwy_dir_id st = Some did ->
  (forall end_id, end_id_of_direction did = Some end_id ->
                  Dict.get String.eqb end_id (end_info st) = None) ->
  rw_step st (End, ts) = st.
Proof.
  intros Htag Hcur H. unfold Indexer.rw_step. rewrite Htag.
  change (record_direction st ts = st). unfold Indexer.record_direction.
  rewrite Hcur.
  destruct (Indexer.scan_disp _ _ _ ts); [|reflexivity].
  destruct (Str.truthy did); [|reflexivity].
  destruct (end_id_of_direction did) as [end_id|] eqn:He; [|reflexivity].
  now rewrite (H end_id eq_refl).
Qed.

End Runways.

(** In [index_gear_notes_across] every element is cleared at its end
    event, so a time slice only ever sees emptied children: no reference
    resolves and the result is empty for every document. *)
Lemma cleared_children_at_end (doc : elem) :
  Forall (fun ev => fst ev = End ->
                    Forall (fun c => eattrib c = [] /\ echildren c = [])
                           (echildren (snd ev)))
         (events (fun _ => true) doc).
Proof.
  induction doc as [t a x cs IH] using elem_ind'.
  cbn [events]. apply Forall_cons; [discriminate|].
  apply Forall_app. split.
  - apply Forall_forall. intros ev Hev.
    apply in_flat_map in Hev. destruct Hev as (c & Hc & Hev).
    rewrite Forall_forall in IH. specialize (IH c Hc).
    rewrite Forall_forall in IH. exact (IH ev Hev).
  - apply Forall_cons; [|apply Forall_nil]. intros _. simpl.
    apply Forall_forall. intros c Hc. apply in_map_iff in Hc.
    destruct Hc as (c0 & <- & _). simpl. auto.
Qed.

Lemma airport_ref_tag_not_timeslice (t : string) :
  is_airport_ref_tag t = true -> Str.endswith "TimeSlice" t = false.
Proof.
  unfold is_airport_ref_tag. intros H.
  repeat (apply orb_true_iff in H; destruct H as [H|H]);
    apply String.eqb_eq in H; subst t; reflexivity.
Qed.

Lemma gna_step_cleared (g : list (string * list string)) (e : elem) :
  Forall (fun c => eattrib c = [] /\ echildren c = []) (echildren e) ->
  gna_step g e = g.
Proof.
  intros Hcl. unfold gna_step.
  destruct (Str.endswith "TimeSlice" (ltag e)) eqn:Hts; [|reflexivity].
  simpl. rewrite first_airport_ref_none; [reflexivity|].
  intros c Hin Htag. destruct e as [t a x cs]. simpl in Hin, Hcl.
  destruct Hin as [<-|Hin].
  - apply airport_ref_tag_not_timeslice in Htag. congruence.
  - apply in_flat_map in Hin. destruct Hin as (c0 & Hc0 & Hin).
    rewrite Forall_forall in Hcl. destruct (Hcl c0 Hc0) as [Ha Hch].
    destruct c0 as [t0 a0 x0 cs0]. simpl in Ha, Hch. subst a0 cs0.
    simpl in Hin. destruct Hin as [<-|[]]. reflexivity.
Qed.

Lemma index_gear_notes_across_empty (doc : elem) :
  index_gear_notes_across doc = [].
Proof.
  unfold index_gear_notes_across, end_events.
  pose proof (cleared_children_at_end doc) as H.
  induction (events (fun _ => true) doc) as [|[k e] l IH]; [reflexivity|].
  inversion H as [|? ? Hev Hl]; subst. simpl.
  destruct k; simpl; [now apply IH|].
  rewrite gna_step_cleared; [now apply IH | now apply Hev].
Qed.

End References.

(** C8. An absent attribute, or a text without a predicate
    [@gml:id='...'], resolves to no identifier.  A runway time slice none
    of whose airport references resolves leaves the three maps of
    [index_runways] as they were; so does a displaced-threshold time slice
    whose runway end is not on record; and a time slice none of whose
    references resolves leaves the map of [index_gear_notes_across] as it
    was.  The steps are total functions: nothing is raised. *)
Theorem C8_unresolved_reference_dropped :
  forall (pyfloat : Type) (float_of_str : string -> option pyfloat)
         (int_of_float : pyfloat -> option Z),
    (forall e : elem,
        attrib_get XLINK_HREF e = None ->
        Indexer.resolve_href (attrib_get_str XLINK_HREF e) = None)
    /\ (forall href : string,
          (forall v, ~ Indexer.has_id_predicate href v) ->
          Indexer.resolve_href href = None)
    /\ (forall (st : Indexer.rw_state) (ts : elem),
          ltag ts = "RunwayTimeSlice" ->
          (forall c, In c (echildren ts) ->
                     ltag c = "associatedAirportHeliport" ->
                     Indexer.resolve_href (attrib_get_str XLINK_HREF c) = None) ->
          Indexer.rw_step pyfloat float_of_str int_of_float st (End, ts) = st)
    /\ (forall (st : Indexer.rw_state) (ts : elem) (did : string),
          ltag ts = "RunwayDirectionTimeSlice" ->
          Indexer.cur_rwy_dir_id st = Some did ->
          (forall end_id, Indexer.end_id_of_direction did = Some end_id ->
             Dict.get String.eqb end_id (Indexer.end_info st) = None) ->
          Indexer.rw_step pyfloat float_of_str int_of_float st (End, ts) = st)
    /\ (forall (g : list (string * list string)) (e : elem),
          (forall c, In c (iter e) ->
                     Indexer.is_airport_ref_tag (ltag c) = true ->
                     Indexer.resolve_href (attrib_get_str XLINK_HREF c) = None) ->
          Indexer.gna_step g e = g).
Proof.
  intros pyfloat float_of_str int_of_float.
  split; [apply resolve_href_absent|].
  split; [apply resolve_href_unmatched|].
  split; [apply runway_slice_dropped|].
  split; [apply correction_dropped | apply gna_step_unresolved].
Qed.

Lemma C8_witness :
  Indexer.rw_step Decimal.dec Decimal.float_of_str Decimal.int_of_float
    (Indexer.mkRw [] [] [] (Some "RWY_BASE_END_ABC123") None)
    (End, Samples.unlinked_timeslice)
  = Indexer.mkRw [] [] [] (Some "RWY_BASE_END_ABC123") None.
Proof.
  apply (proj1 (proj2 (proj2
           (C8_unresolved_reference_dropped
              Decimal.dec Decimal.float_of_str Decimal.int_of_float)))).
  - reflexivity.
  - intros c [<-|[<-|[<-|[<-|[]]]]] _; vm_compute; reflexivity.
Defined.

(* ================================================================== *)
(** * Further properties of the module *)

(** ** Tags and direct children *)

Lemma after_first_skip (c : ascii) (a b : string) :
  Str.forall_chars (fun x => negb (Ascii.eqb x c)) a = true ->
  Str.after_first c (a ++ String c b) = Some b.
Proof.
  induction a as [|x a IH]; simpl; intros H.
  - now rewrite Ascii.eqb_refl.
  - apply andb_true_iff in H. destruct H as [Hx Ha].
    apply negb_true_iff in Hx. rewrite Hx. now apply IH.
Qed.

(** X1. [localname] returns what follows the namespace of a tag
    [{ns}local], and returns a tag without namespace as it is. *)
Theorem X1_localname_strips_namespace :
  (forall ns l : string,
      Str.forall_chars (fun x => negb (Ascii.eqb x "}")) ns = true ->
      localname ("{" ++ ns ++ "}" ++ l) = l)
  /\ (forall t : string, Str.startswith "{" t = false -> localname t = t).
Proof.
  split.
  - intros ns l H. unfold localname. cbn [append Str.startswith String.prefix].
    destruct (ascii_dec "{" "{") as [_|N]; [|now elim N].
    cbn [Str.after_first]. change (Ascii.eqb "{" "}") with false. cbv iota.
    rewrite (after_first_skip "}" ns l H).
    now destruct (ns ++ String "}" l)%string.
  - intros t H. unfold localname. now rewrite H.
Qed.

Lemma X1_witness : localname "{ns}tag" = "tag" /\ localname "tag" = "tag".
Proof.
  split.
  - apply (proj1 X1_localname_strips_namespace "ns" "tag"). reflexivity.
  - apply (proj2 X1_localname_strips_namespace "tag"). reflexivity.
Defined.

Lemma designator_and_name_loop_spec (cs : list elem) :
  forall code name : option string,
    is_some code = Str.truthy_opt code ->
    is_some name = Str.truthy_opt name ->
    designator_and_name_loop code name cs
    = (match code with
       | Some _ => code
       | None => first_child_text "designator" cs
       end,
       match name with
       | Some _ => name
       | None => first_child_text "name" cs
       end).
Proof.
  unfold first_child_text.
  induction cs as [|c cs IH]; intros code name Hc Hn.
  - simpl. destruct code, name; reflexivity.
  - cbn [designator_and_name_loop find].
    destruct (String.eqb_spec (ltag c) "designator") as [Ed|Ed].
    + assert (En : (ltag c =? "name") = false) by (rewrite Ed; reflexivity).
      rewrite En. cbn [andb].
      destruct code as [code|]; cbn [is_some negb].
      * destruct (Str.truthy_opt (Some code) && Str.truthy_opt name) eqn:B.
        -- apply andb_true_iff in B. destruct B as [_ B].
           destruct name; [reflexivity | discriminate B].
        -- rewrite (IH _ _ Hc Hn). reflexivity.
      * unfold Str.or_none.
        destruct (Str.truthy (stext c)) eqn:T; cbn [option_map].
        -- destruct (Str.truthy_opt (Some (stext c)) && Str.truthy_opt name) eqn:B.
           ++ apply andb_true_iff in B. destruct B as [_ B].
              destruct name; [reflexivity | discriminate B].
           ++ rewrite IH; [reflexivity | | exact Hn].
              unfold Str.truthy_opt. simpl. now rewrite T.
        -- cbn [Str.truthy_opt Str.or_empty Str.truthy andb].
           rewrite (IH _ _ Hc Hn). reflexivity.
    + cbn [andb].
      destruct (String.eqb_spec (ltag c) "name") as [En|En]; cbn [andb].
      * destruct name as [name|]; cbn [is_some negb].
        -- destruct (Str.truthy_opt code && Str.truthy_opt (Some name)) eqn:B.
           ++ apply andb_true_iff in B. destruct B as [B _].
              destruct code; [reflexivity | discriminate B].
           ++ rewrite (IH _ _ Hc Hn). reflexivity.
        -- unfold Str.or_none.
           destruct (Str.truthy (stext c)) eqn:T; cbn [option_map].
           ++ destruct (Str.truthy_opt code && Str.truthy_opt (Some (stext c))) eqn:B.
              ** apply andb_true_iff in B. destruct B as [B _].
                 destruct code; [reflexivity | discriminate B].
              ** rewrite IH; [reflexivity | exact Hc |].
                 unfold Str.truthy_opt. simpl. now rewrite T.
           ++ rewrite andb_false_r. rewrite (IH _ _ Hc Hn). reflexivity.
      * destruct (Str.truthy_opt code && Str.truthy_opt name) eqn:B.
        -- apply andb_true_iff in B. destruct B as [B1 B2].
           destruct code; [|discriminate B1]. destruct name; [|discriminate B2].
           reflexivity.
        -- rewrite (IH _ _ Hc Hn). reflexivity.
Qed.

(** X2. [extract_designator_and_name] returns the text of the first direct
    child [designator] with a non-blank text and the text of the first
    direct child [name] with a non-blank text, each absent when there is
    none; elements nested deeper are not looked at. *)
Theorem X2_designator_and_name_first_direct_child :
  forall ts : elem,
    extract_designator_and_name ts
    = (first_child_text "designator" (echildren ts),
       first_child_text "name" (echildren ts)).
Proof.
  intros ts. unfold extract_designator_and_name.
  now rewrite designator_and_name_loop_spec.
Qed.

(** ** Gear notes of a time slice *)

Lemma hd_map_filter {A B} (f : A -> B) (p : A -> bool) (l : list A) :
  hd_error (map f (filter p l)) = option_map f (find p l).
Proof.
  induction l as [|a l IH]; simpl; [reflexivity|].
  destruct (p a); [reflexivity | exact IH].
Qed.

(** X3. The notes that [extract_gear_notes] lists all mention arresting
    gear; the list is empty exactly when [timeslice_has_gear] is false, and
    its first element is the note that [sample_gear_note] returns. *)
Theorem X3_gear_notes_agree :
  forall ts : elem,
    Forall (fun n => mentions_gear n = true) (extract_gear_notes ts)
    /\ (extract_gear_notes ts = [] <-> timeslice_has_gear ts = false)
    /\ hd_error (extract_gear_notes ts) = sample_gear_note ts.
Proof.
  intros ts. unfold extract_gear_notes, timeslice_has_gear, sample_gear_note.
  split; [|split].
  - apply Forall_forall. intros n Hn. apply in_map_iff in Hn.
    destruct Hn as (e & <- & He). apply filter_In in He.
    destruct He as [_ He]. unfold is_gear_note in He.
    apply andb_true_iff in He. apply He.
  - induction (iter ts) as [|a l IH]; simpl; [tauto|].
    destruct (is_gear_note a); simpl; [split; discriminate | exact IH].
  - apply hd_map_filter.
Qed.

(** ** Mentions of a note *)

Lemma finditer_nil_iff (r : re) (s : string) :
  forall pv, finditer_from r 0 pv s = [] <-> search_from r pv s = None.
Proof.
  induction s as [|c s IH]; intros pv; simpl.
  - destruct (match_at r pv ""); split; congruence.
  - destruct (match_at r pv (String c s)); [split; congruence | apply IH].
Qed.

(** X4. [parse_gear_from_text] returns no mention exactly when the gear-code
    pattern is nowhere in the stripped note (so a note that only has the
    generic A-GEAR wording yields none), and a note that yields a mention is
    one that the gear test of the indexers accepts. *)
Theorem X4_no_mention_iff_no_code :
  forall note : string,
    (parse_gear_from_text note = []
     <-> search GEAR_TYPE_RE (Str.strip note) = None)
    /\ (parse_gear_from_text note <> [] ->
        mentions_gear (Str.strip note) = true).
Proof.
  intros note.
  assert (Hiff : parse_gear_from_text note = []
                 <-> search GEAR_TYPE_RE (Str.strip note) = None).
  { unfold parse_gear_from_text.
    destruct (Str.strip note) as [|c s] eqn:Hs.
    - simpl. split; [intros _; vm_compute; reflexivity | reflexivity].
    - cbn [Str.truthy negb]. unfold search, finditer.
      rewrite <- finditer_nil_iff.
      destruct (finditer_from GEAR_TYPE_RE 0 None (String c s)); simpl;
        split; congruence. }
  split; [exact Hiff|].
  intros Hne. unfold mentions_gear.
  destruct (search GEAR_TYPE_RE (Str.strip note)) eqn:Hs.
  - simpl. apply orb_true_r.
  - exfalso. apply Hne. now apply Hiff.
Qed.

Lemma X4_witness :
  mentions_gear (Str.strip " MB-60 at departure end ") = true.
Proof.
  apply (proj2 (X4_no_mention_iff_no_code " MB-60 at departure end ")).
  vm_compute. discriminate.
Defined.

Lemma rstrip_idem (s : string) : Str.rstrip (Str.rstrip s) = Str.rstrip s.
Proof.
  induction s as [|c s IH]; [reflexivity|].
  cbn [Str.rstrip]. destruct (Str.rstrip s) as [|d r] eqn:Hr.
  - destruct (is_space c) eqn:Hc; [reflexivity|].
    cbn [Str.rstrip]. now rewrite Hc.
  - change (Str.rstrip (String c (String d r)))
      with (match Str.rstrip (String d r) with
            | EmptyString => if is_space c then EmptyString
                             else String c EmptyString
            | String x y => String c (String x y)
            end).
    now rewrite IH.
Qed.

Lemma lstrip_fixed (s : string) :
  match s with String c _ => is_space c = false | EmptyString => True end ->
  Str.lstrip s = s.
Proof. destruct s as [|c s]; simpl; [reflexivity|]. now intros ->. Qed.

Lemma lstrip_head (s : string) :
  match Str.lstrip s with
  | String c _ => is_space c = false
  | EmptyString => True
  end.
Proof.
  induction s as [|c s IH]; simpl; [exact I|].
  destruct (is_space c) eqn:Hc; [exact IH | exact Hc].
Qed.

Lemma rstrip_head (s : string) :
  match s with String c _ => is_space c = false | EmptyString => True end ->
  match Str.rstrip s with
  | String c _ => is_space c = false
  | EmptyString => True
  end.
Proof.
  destruct s as [|c s]; simpl; [auto|]. intros Hc.
  destruct (Str.rstrip s); [now rewrite Hc | exact Hc].
Qed.

Lemma strip_idem (s : string) : Str.strip (Str.strip s) = Str.strip s.
Proof.
  unfold Str.strip.
  rewrite (lstrip_fixed (Str.rstrip (Str.lstrip s))).
  - apply rstrip_idem.
  - apply rstrip_head, lstrip_head.
Qed.

(** X5. Surrounding white space does not matter to the parser, and a
    mention parsed from a note that [extract_gear_notes] collected carries
    exactly that note as its raw field. *)
Theorem X5_raw_is_the_indexed_note :
  (forall note : string,
      parse_gear_from_text (Str.strip note) = parse_gear_from_text note)
  /\ (forall (ts : elem) (n : string) (m : mention),
        In n (extract_gear_notes ts) ->
        In m (parse_gear_from_text n) ->
        raw m = n).
Proof.
  split.
  - intros note. unfold parse_gear_from_text. now rewrite strip_idem.
  - intros ts n m Hn Hm.
    destruct (mention_sets n m Hm) as (_ & _ & Hraw). rewrite Hraw.
    unfold extract_gear_notes in Hn. apply in_map_iff in Hn.
    destruct Hn as (e & <- & _). unfold stext. apply strip_idem.
Qed.

Lemma X5_witness :
  raw (mkMention "BAK-12" [] [1200%Z] "A-GEAR BAK-12, (1200 FT)")
  = "A-GEAR BAK-12, (1200 FT)".
Proof.
  apply (proj2 X5_raw_is_the_indexed_note Samples.test_timeslice).
  - vm_compute. left. reflexivity.
  - vm_compute. left. reflexivity.
Defined.

Lemma hdrel_insert_sorted (x y : Z) (l : list Z) :
  HdRel Z.lt y l -> (y < x)%Z -> HdRel Z.lt y (insert_sorted x l).
Proof.
  intros H Hyx. destruct l as [|z l]; simpl.
  - now constructor.
  - destruct (x <? z)%Z; [now constructor|].
    destruct (x =? z)%Z; [exact H|].
    inversion H; subst. now constructor.
Qed.

Lemma insert_sorted_sorted (x : Z) (l : list Z) :
  Sorted Z.lt l -> Sorted Z.lt (insert_sorted x l).
Proof.
  induction l as [|y l IH]; intros Hs; simpl.
  - repeat constructor.
  - destruct (Z.ltb_spec x y).
    + constructor; [exact Hs | now constructor].
    + destruct (Z.eqb_spec x y); [exact Hs|].
      inversion Hs; subst. constructor; [now apply IH|].
      apply hdrel_insert_sorted; [assumption | lia].
Qed.

Lemma sorted_set_sorted (l : list Z) : StronglySorted Z.lt (sorted_set l).
Proof.
  apply Sorted_StronglySorted; [exact Z.lt_trans|].
  induction l as [|x l IH]; simpl; [constructor|].
  now apply insert_sorted_sorted.
Qed.

(** X6. In every mention the from-threshold list and the misc list are
    strictly increasing: sorted, and without a repeated value. *)
Theorem X6_distance_lists_strictly_increasing :
  forall (note : string) (m : mention),
    In m (parse_gear_from_text note) ->
    StronglySorted Z.lt (distances_from_threshold_ft m)
    /\ StronglySorted Z.lt (distances_misc_ft m).
Proof.
  intros note m Hm. destruct (mention_sets note m Hm) as (-> & -> & _).
  split; apply sorted_set_sorted.
Qed.

Lemma X6_witness :
  StronglySorted Z.lt [150%Z] /\ StronglySorted Z.lt [30%Z; 200%Z].
Proof.
  apply (X6_distance_lists_strictly_increasing
           "MB60 150 ft fm thr (0200ft.) (150') (30) (200)"
           (mkMention "MB60" [150%Z] [30%Z; 200%Z]
              "MB60 150 ft fm thr (0200ft.) (150') (30) (200)")).
  vm_compute. left. reflexivity.
Defined.

Lemma many_spec_max (p : ascii -> bool) (s : string) :
  forall mn k pv cs e,
    In e (many p mn (Some k) pv cs s) ->
    String.length s <= String.length (rest e) + k.
Proof.
  induction s as [|c s IH]; intros mn k pv cs e Hin.
  - simpl in Hin. destruct mn; [|contradiction].
    destruct Hin as [<-|[]]. simpl. lia.
  - simpl in Hin.
    assert (Hstop : In e (match mn with
                          | O => [mkPos pv (String c s) cs]
                          | S _ => []
                          end) ->
                    String.length (String c s) <= String.length (rest e) + k).
    { destruct mn; [|contradiction]. intros [<-|[]]. simpl. lia. }
    destruct k as [|k].
    + rewrite andb_false_r in Hin. now apply Hstop.
    + destruct (p c); cbn [andb] in Hin; [|now apply Hstop].
      apply in_app_or in Hin. destruct Hin as [Hin|Hin]; [|now apply Hstop].
      apply IH in Hin. cbn [String.length Nat.pred] in *. lia.
Qed.

(** The text captured by [(\d{2,5})]. *)
Lemma digits_group (n : nat) (st e : pos) :
  In e (mt (Grp n (Many is_digit 2 (Some 5))) st) ->
  exists w, caps e = (n, w) :: caps st
            /\ Str.forall_chars is_digit w = true
            /\ String.length w <= 5.
Proof.
  intros H. apply mt_grp in H. destruct H as (e1 & H1 & _ & Hc).
  cbn [mt] in H1.
  pose proof (many_spec_max _ _ _ _ _ _ _ H1) as Hmax.
  destruct (many_spec _ _ _ _ _ _ _ H1) as (w & Hs & Hd & _ & Hc1).
  exists w. rewrite Hc, Hc1, Hs, consumed_append.
  repeat split; [exact Hd|].
  rewrite Hs, length_append in Hmax. lia.
Qed.

Lemma thr_group_digits (txt : string) (m : mobj) :
  In m (finditer FT_FROM_THR_RE txt) ->
  exists w, group 1 m = Some w /\ Str.forall_chars is_digit w = true
            /\ String.length w <= 5.
Proof.
  intros H. destruct (finditer_in _ _ _ H) as (pv & s & Hm).
  destruct (match_at_some _ _ _ _ Hm) as (e & He & _ & Hg).
  unfold FT_FROM_THR_RE in He. cbn [seqs] in He.
  apply mt_seq in He. destruct He as (e1 & H1 & He).
  destruct (digits_group _ _ _ H1) as (w & Hc & Hd & Hl).
  exists w. split; [|auto].
  unfold group. rewrite Hg.
  apply groupless_caps in He; [|reflexivity].
  rewrite He, Hc. reflexivity.
Qed.

Lemma paren_group_digits (txt : string) (m : mobj) :
  In m (finditer PAREN_FEET_RE txt) ->
  exists w, group 1 m = Some w /\ Str.forall_chars is_digit w = true
            /\ String.length w <= 5.
Proof.
  intros H. destruct (finditer_in _ _ _ H) as (pv & s & Hm).
  destruct (match_at_some _ _ _ _ Hm) as (e & He & _ & Hg).
  unfold PAREN_FEET_RE in He. cbn [seqs] in He.
  apply mt_seq in He. destruct He as (e0 & H0 & He).
  apply mt_cls in H0. destruct H0 as (c & _ & _ & Hc0).
  apply mt_seq in He. destruct He as (e1 & H1 & He).
  destruct (digits_group _ _ _ H1) as (w & Hc & Hd & Hl).
  exists w. split; [|auto].
  unfold group. rewrite Hg.
  apply groupless_caps in He; [|reflexivity].
  rewrite He, Hc. reflexivity.
Qed.

Lemma digit_val_range (c : ascii) :
  is_digit c = true -> (0 <= Str.digit_val c <= 9)%Z.
Proof.
  unfold is_digit, between, Str.digit_val. intros H.
  apply andb_true_iff in H. destruct H as [H1 H2].
  apply Nat.leb_le in H1, H2. lia.
Qed.

Lemma int_digits_acc_range (w : string) :
  forall acc : Z,
    (0 <= acc)%Z -> Str.forall_chars is_digit w = true ->
    (acc * 10 ^ Z.of_nat (String.length w) <= Str.int_digits_acc acc w
     < (acc + 1) * 10 ^ Z.of_nat (String.length w))%Z.
Proof.
  induction w as [|c w IH]; intros acc Hacc Hd.
  - simpl. lia.
  - simpl in Hd. apply andb_true_iff in Hd. destruct Hd as [Hc Hw].
    pose proof (digit_val_range c Hc) as Hv.
    cbn [Str.int_digits_acc String.length].
    specialize (IH (10 * acc + Str.digit_val c)%Z ltac:(lia) Hw).
    rewrite Nat2Z.inj_succ, Z.pow_succ_r by lia.
    assert (0 < 10 ^ Z.of_nat (String.length w))%Z by (apply Z.pow_pos_nonneg; lia).
    nia.
Qed.

Lemma int_of_digits_range (w : string) :
  Str.forall_chars is_digit w = true -> String.length w <= 5 ->
  (0 <= Str.int_of_digits w <= 99999)%Z.
Proof.
  intros Hd Hl. unfold Str.int_of_digits.
  pose proof (int_digits_acc_range w 0%Z ltac:(lia) Hd) as H.
  assert (10 ^ Z.of_nat (String.length w) <= 10 ^ 5)%Z
    by (apply Z.pow_le_mono_r; lia).
  change (10 ^ 5)%Z with 100000%Z in *. lia.
Qed.

Lemma thr_distances_range (txt : string) (d : Z) :
  In d (thr_distances txt) -> (0 <= d <= 99999)%Z.
Proof.
  unfold thr_distances, findall1. rewrite map_map, in_map_iff.
  intros (m & <- & Hm).
  destruct (thr_group_digits _ _ Hm) as (w & -> & Hd & Hl).
  now apply int_of_digits_range.
Qed.

Lemma paren_distances_range (txt : string) (d : Z) :
  In d (paren_distances txt) -> (0 <= d <= 99999)%Z.
Proof.
  unfold paren_distances, findall1. rewrite map_map, in_map_iff.
  intros (m & <- & Hm).
  destruct (paren_group_digits _ _ Hm) as (w & -> & Hd & Hl).
  now apply int_of_digits_range.
Qed.

(** X7. Every distance of every mention, from-threshold or misc, is an
    integer between 0 and 99999: the patterns read two to five digits. *)
Theorem X7_distances_within_five_digits :
  forall (note : string) (m : mention) (d : Z),
    In m (parse_gear_from_text note) ->
    In d (distances_from_threshold_ft m) \/ In d (distances_misc_ft m) ->
    (0 <= d <= 99999)%Z.
Proof.
  intros note m d Hm Hd.
  destruct (mention_sets note m Hm) as (Ht & Hmi & _).
  rewrite Ht, Hmi in Hd. destruct Hd as [Hd|Hd].
  - apply (proj1 (in_sorted_set _ _)) in Hd.
    now apply (thr_distances_range (Str.strip note)).
  - apply (proj1 (in_sorted_set _ _)) in Hd. apply filter_In in Hd.
    now apply (paren_distances_range (Str.strip note)).
Qed.

Lemma X7_witness : (0 <= 0 <= 99999)%Z /\ (0 <= 99999 <= 99999)%Z.
Proof.
  split.
  - apply (X7_distances_within_five_digits
             "EMAS 00 FT FM THR (99999)"
             (mkMention "EMAS" [0%Z] [99999%Z] "EMAS 00 FT FM THR (99999)")).
    + vm_compute. left. reflexivity.
    + left. simpl. left. reflexivity.
  - apply (X7_distances_within_five_digits
             "EMAS 00 FT FM THR (99999)"
             (mkMention "EMAS" [0%Z] [99999%Z] "EMAS 00 FT FM THR (99999)")).
    + vm_compute. left. reflexivity.
    + right. simpl. left. reflexivity.
Defined.

(** ** Final assembly of [index_runways]: the fallback *)

Lemma fallback_first_pair (pairs : Indexer.pair_dims_t) :
  forall (b : Indexer.by_airport_t) (a : string),
    Dict.get String.eqb a b = None ->
    Dict.get String.eqb a (Indexer.assemble_fallback pairs b)
    = option_map (fun it => [Indexer.mkEnd (snd (fst it)) (fst (snd it))
                                           (snd (snd it))])
                 (find (fun it => String.eqb (fst (fst it)) a) pairs).
Proof.
  unfold Indexer.assemble_fallback.
  induction pairs as [|[[a' g] [l w]] pairs IH]; intros b a Hnone; simpl;
    [exact Hnone|].
  destruct (String.eqb_spec a' a) as [->|Hne].
  - unfold Dict.mem. rewrite Hnone.
    pose proof (fallback_keeps pairs) as Hk. unfold Indexer.assemble_fallback in Hk.
    rewrite Hk.
    + simpl. apply get_set_same, String.eqb_eq.
    + unfold Dict.mem. rewrite get_set_same; [reflexivity | apply String.eqb_eq].
  - destruct (Dict.mem String.eqb a' b).
    + now apply IH.
    + apply IH. rewrite get_set_other; [exact Hnone | apply String.eqb_eq | exact Hne].
Qed.

(** X8. What [index_runways] assembles for an airport: with recorded
    runway ends, one entry per end; without any, a single entry, made of
    the suffix and the dimensions of the first pair recorded for that
    airport (later pairs of the same airport are not listed); with neither,
    nothing.  No airport gets an empty list. *)
Theorem X8_assembly_per_airport :
  forall (pd : Indexer.pair_dims_t) (ei : Indexer.end_info_t)
         (ed : Indexer.end_disp_t) (a : string),
    Dict.get String.eqb a (Indexer.assemble pd ei ed)
    = match filter (fun it => String.eqb (Indexer.end_airport it) a) ei with
      | [] =>
          option_map (fun it => [Indexer.mkEnd (snd (fst it)) (fst (snd it))
                                               (snd (snd it))])
                     (find (fun it => String.eqb (fst (fst it)) a) pd)
      | mine => Some (map (Indexer.emit_item pd ed) mine)
      end
    /\ Dict.get String.eqb a (Indexer.assemble pd ei ed) <> Some [].
Proof.
  intros pd ei ed a.
  assert (H : Dict.get String.eqb a (Indexer.assemble pd ei ed)
              = match filter (fun it => String.eqb (Indexer.end_airport it) a) ei with
                | [] =>
                    option_map (fun it => [Indexer.mkEnd (snd (fst it))
                                             (fst (snd it)) (snd (snd it))])
                               (find (fun it => String.eqb (fst (fst it)) a) pd)
                | mine => Some (map (Indexer.emit_item pd ed) mine)
                end).
  { destruct (filter (fun it => String.eqb (Indexer.end_airport it) a) ei)
      as [|it mine] eqn:Hf.
    - unfold Indexer.assemble. apply fallback_first_pair.
      rewrite get_assemble_ends, Hf. reflexivity.
    - rewrite <- Hf. apply get_assemble. rewrite Hf. discriminate. }
  split; [exact H|]. rewrite H.
  destruct (filter (fun it => String.eqb (Indexer.end_airport it) a) ei).
  - destruct (find _ pd); simpl; discriminate.
  - simpl. discriminate.
Qed.

(** ** The scan for airfields *)

Section Collect.
Import Report.

Lemma existsb_pair_in (k : string * string) (seen : list (string * string)) :
  existsb (pair_eqb k) seen = true <-> In k seen.
Proof.
  rewrite existsb_exists. split.
  - intros (x & Hx & E). apply pair_eqb_eq in E. now subst.
  - intros H. exists k. split; [exact H | now apply pair_eqb_eq].
Qed.

Lemma dedupe_subset (rs : list result) :
  forall seen r, In r (dedupe seen rs) -> In r rs.
Proof.
  induction rs as [|x rs IH]; intros seen r H; simpl in H; [contradiction|].
  destruct (existsb (pair_eqb (result_key x)) seen).
  - right. now apply IH in H.
  - destruct H as [<-|H]; [now left | right; now apply IH in H].
Qed.

Lemma dedupe_keys (rs : list result) :
  forall seen,
    NoDup (map result_key (dedupe seen rs))
    /\ (forall k, In k (map result_key (dedupe seen rs)) -> ~ In k seen).
Proof.
  induction rs as [|x rs IH]; intros seen; simpl.
  - split; [constructor | intros k []].
  - destruct (existsb (pair_eqb (result_key x)) seen) eqn:E; [apply IH|].
    destruct (IH (result_key x :: seen)) as [Hnd Hfresh]. simpl. split.
    + constructor; [|exact Hnd]. intros Hin. apply (Hfresh _ Hin). now left.
    + intros k [<-|Hk].
      * intros Hin. apply existsb_pair_in in Hin. congruence.
      * intros Hin. apply (Hfresh _ Hk). now right.
Qed.

Lemma dedupe_first (rs : list result) :
  forall seen k,
    find (fun r => pair_eqb (result_key r) k) (dedupe seen rs)
    = if existsb (pair_eqb k) seen then None
      else find (fun r => pair_eqb (result_key r) k) rs.
Proof.
  induction rs as [|x rs IH]; intros seen k; simpl.
  - now destruct (existsb (pair_eqb k) seen).
  - destruct (existsb (pair_eqb (result_key x)) seen) eqn:Ex.
    + rewrite IH. destruct (existsb (pair_eqb k) seen) eqn:Ek; [reflexivity|].
      destruct (pair_eqb (result_key x) k) eqn:E; [|reflexivity].
      apply pair_eqb_eq in E. congruence.
    + simpl. destruct (pair_eqb (result_key x) k) eqn:E.
      * apply pair_eqb_eq in E. subst k. now rewrite Ex.
      * rewrite IH. simpl.
        assert (E' : pair_eqb k (result_key x) = false).
        { destruct (pair_eqb k (result_key x)) eqn:E'; [|reflexivity].
          apply pair_eqb_eq in E'. subst k.
          rewrite (proj2 (pair_eqb_eq _ _) eq_refl) in E. discriminate. }
        now rewrite E'.
Qed.

Lemma collect_timeslice_entry (path : string) (ts : elem) (r : result) :
  In r (collect_timeslice path ts) ->
  timeslice_has_gear ts = true
  /\ exists code name note,
       r = (code, name, path, Some note) /\ (code <> "" \/ name <> "")
       /\ sample_gear_note ts = Some note.
Proof.
  unfold collect_timeslice.
  destruct (timeslice_has_gear ts) eqn:Hg; simpl; [|contradiction].
  destruct (extract_designator_and_name ts) as [code name].
  destruct (Str.truthy_opt code) eqn:Hc; simpl.
  - intros [<-|[]]. split; [reflexivity|].
    destruct (sample_gear_note ts) as [note|] eqn:Hs.
    + exists (Str.or_empty code), (Str.or_empty name), note.
      repeat split. left. intros E. unfold Str.truthy_opt in Hc.
      rewrite E in Hc. discriminate.
    + exfalso. unfold sample_gear_note in Hs.
      destruct (find is_gear_note (iter ts)) eqn:Hf; [discriminate|].
      apply find_none_existsb in Hf. unfold timeslice_has_gear in Hg. congruence.
  - destruct (Str.truthy_opt name) eqn:Hn; simpl; [|contradiction].
    intros [<-|[]]. split; [reflexivity|].
    destruct (sample_gear_note ts) as [note|] eqn:Hs.
    + exists (Str.or_empty code), (Str.or_empty name), note.
      repeat split. right. intros E. unfold Str.truthy_opt in Hn.
      rewrite E in Hn. discriminate.
    + exfalso. unfold sample_gear_note in Hs.
      destruct (find is_gear_note (iter ts)) eqn:Hf; [discriminate|].
      apply find_none_existsb in Hf. unfold timeslice_has_gear in Hg. congruence.
Qed.

End Collect.

(** X9. [collect_ag_airfields] keeps, for every pair (code, name), exactly
    the first entry collected with that pair: no pair occurs twice in the
    result, and looking a pair up in the result gives what looking it up in
    the collected list gives. *)
Theorem X9_airfields_first_per_code_and_name :
  forall (files : list (string * elem)),
    NoDup (map Report.result_key (Report.collect_ag_airfields files))
    /\ (forall k : string * string,
          find (fun r => pair_eqb (Report.result_key r) k)
               (Report.collect_ag_airfields files)
          = find (fun r => pair_eqb (Report.result_key r) k)
                 (Report.collect_all files)).
Proof.
  intros files. unfold Report.collect_ag_airfields. split.
  - apply dedupe_keys.
  - intros k. now rewrite dedupe_first.
Qed.

(** X10. Every airfield that [collect_ag_airfields] returns comes from a
    time slice of one of the files that mentions gear: its source is that
    file, its code and name are not both empty, and its sample note is
    never absent. *)
Theorem X10_collected_airfields_have_a_note :
  forall (files : list (string * elem))
         (code name path : string) (note : option string),
    In (code, name, path, note) (Report.collect_ag_airfields files) ->
    (code <> "" \/ name <> "")
    /\ exists (doc ts : elem) (n : string),
         In (path, doc) files
         /\ In ts (Report.iter_airport_timeslices doc)
         /\ timeslice_has_gear ts = true
         /\ note = Some n /\ sample_gear_note ts = Some n.
Proof.
  intros files code name path note H.
  unfold Report.collect_ag_airfields in H. apply dedupe_subset in H.
  unfold Report.collect_all in H. apply in_flat_map in H.
  destruct H as ([p doc] & Hf & H). simpl in H.
  apply in_flat_map in H. destruct H as (ts & Hts & H).
  apply collect_timeslice_entry in H.
  destruct H as (Hg & c & n & nt & E & Hcn & Hs).
  injection E as -> -> -> ->.
  split; [exact Hcn|]. exists doc, ts, nt. auto.
Qed.

Lemma X10_witness :
  ("TEST" <> "" \/ "Test Field" <> "")
  /\ exists (doc ts : elem) (n : string),
       In ("apt.xml", doc) [("apt.xml", Samples.airport_doc)]
       /\ In ts (Report.iter_airport_timeslices doc)
       /\ timeslice_has_gear ts = true
       /\ Some "A-GEAR BAK-12, (1200 FT)" = Some n
       /\ sample_gear_note ts = Some n.
Proof.
  apply (X10_collected_airfields_have_a_note
           [("apt.xml", Samples.airport_doc)]).
  vm_compute. left. reflexivity.
Defined.

(** ** The gear list of the report *)

Section GearList.
Import Report.

Lemma list_Z_eqb_eq (a b : list Z) : list_Z_eqb a b = true <-> a = b.
Proof.
  revert b. induction a as [|x a IH]; intros [|y b]; simpl;
    try (split; [discriminate | discriminate]); try tauto.
  rewrite andb_true_iff, Z.eqb_eq, IH. split.
  - intros [-> ->]. reflexivity.
  - intros [= -> ->]. auto.
Qed.

Lemma gear_key_eqb_eq (a b : gear_key) : gear_key_eqb a b = true <-> a = b.
Proof.
  destruct a as [[t1 f1] m1], b as [[t2 f2] m2]. unfold gear_key_eqb.
  rewrite !andb_true_iff, String.eqb_eq, !list_Z_eqb_eq. split.
  - intros [[-> ->] ->]. reflexivity.
  - intros [= -> -> ->]. auto.
Qed.

Local Abbreviation keq := gear_key_eqb.
Local Abbreviation step :=
  (fun (norm : list (gear_key * mention)) (gi : mention) =>
     if Dict.mem keq (mention_key gi) norm then norm
     else Dict.set keq (mention_key gi) gi norm).

Lemma set_fresh (k : gear_key) (v : mention) (d : list (gear_key * mention)) :
  Dict.get keq k d = None -> Dict.set keq k v d = d ++ [(k, v)].
Proof.
  induction d as [|[k' v'] d IH]; simpl; [reflexivity|].
  destruct (keq k' k); [discriminate|]. intros H. now rewrite IH.
Qed.

Lemma norm_lookup (items : list mention) :
  forall (norm : list (gear_key * mention)) (k : gear_key),
    Dict.get keq k (fold_left step items norm)
    = match Dict.get keq k norm with
      | Some v => Some v
      | None => find (fun m => keq (mention_key m) k) items
      end.
Proof.
  induction items as [|gi items IH]; intros norm k; cbn [fold_left find].
  - now destruct (Dict.get keq k norm).
  - rewrite IH. unfold Dict.mem.
    destruct (Dict.get keq (mention_key gi) norm) as [v|] eqn:Hg.
    + destruct (Dict.get keq k norm) eqn:Hk; [reflexivity|].
      destruct (keq (mention_key gi) k) eqn:E; [|reflexivity].
      apply gear_key_eqb_eq in E. congruence.
    + destruct (keq (mention_key gi) k) eqn:E.
      * apply gear_key_eqb_eq in E. subst k.
        rewrite get_set_same by apply gear_key_eqb_eq. now rewrite Hg.
      * rewrite get_set_other; [reflexivity | apply gear_key_eqb_eq |].
        intros Heq. apply gear_key_eqb_eq in Heq. congruence.
Qed.

Lemma nodup_snoc {A : Type} (l : list A) (x : A) :
  NoDup l -> ~ In x l -> NoDup (l ++ [x]).
Proof.
  induction l as [|a l IH]; simpl; intros Hnd Hx.
  - constructor; [intros [] | constructor].
  - inversion Hnd; subst. constructor.
    + intros Hin. apply in_app_or in Hin.
      destruct Hin as [Hin|[<-|[]]]; [contradiction | apply Hx; now left].
    + apply IH; [assumption|]. intros H. apply Hx. now right.
Qed.

Lemma get_none_fresh (k : gear_key) (d : list (gear_key * mention)) :
  Dict.get keq k d = None -> ~ In k (map fst d).
Proof.
  induction d as [|[k0 v0] d IH]; simpl; [tauto|].
  destruct (keq k0 k) eqn:E; [discriminate|].
  intros Hg [Heq|Hin]; [|now apply IH].
  apply gear_key_eqb_eq in Heq. congruence.
Qed.

Lemma norm_invariant (items : list mention) :
  forall norm : list (gear_key * mention),
    Forall (fun kv => fst kv = mention_key (snd kv)) norm ->
    NoDup (map fst norm) ->
    Forall (fun kv => fst kv = mention_key (snd kv)) (fold_left step items norm)
    /\ NoDup (map fst (fold_left step items norm)).
Proof.
  induction items as [|gi items IH]; intros norm Hk Hnd; cbn [fold_left]; [auto|].
  unfold Dict.mem.
  destruct (Dict.get keq (mention_key gi) norm) as [v|] eqn:Hg; [now apply IH|].
  rewrite set_fresh by exact Hg. apply IH.
  - apply Forall_app. split; [exact Hk | repeat constructor].
  - rewrite map_app. apply nodup_snoc; [exact Hnd | now apply get_none_fresh].
Qed.

Lemma values_lookup (d : list (gear_key * mention)) (k : gear_key) :
  Forall (fun kv => fst kv = mention_key (snd kv)) d ->
  find (fun m => keq (mention_key m) k) (map snd d) = Dict.get keq k d.
Proof.
  induction 1 as [|[k' v] d Hkv _ IH]; [reflexivity|].
  cbn [fst snd] in Hkv. subst k'. cbn [map snd find Dict.get].
  destruct (keq (mention_key v) k); [reflexivity | exact IH].
Qed.

Lemma values_keys (d : list (gear_key * mention)) :
  Forall (fun kv => fst kv = mention_key (snd kv)) d ->
  map mention_key (map snd d) = map fst d.
Proof.
  induction 1 as [|[k' v] d Hkv _ IH]; simpl; [reflexivity|].
  simpl in Hkv. now rewrite IH, Hkv.
Qed.

End GearList.

(** X11. The gear list of the report keeps one mention per triple (type,
    from-threshold list, misc list): no triple occurs twice, and the
    mention kept for a triple is the first one of the input with it. *)
Theorem X11_gear_list_first_per_triple :
  forall (items : list mention),
    NoDup (map Report.mention_key (Report.dedup_gear items))
    /\ (forall k : Report.gear_key,
          find (fun m => Report.gear_key_eqb (Report.mention_key m) k)
               (Report.dedup_gear items)
          = find (fun m => Report.gear_key_eqb (Report.mention_key m) k) items).
Proof.
  intros items. unfold Report.dedup_gear.
  destruct (norm_invariant items [] (Forall_nil _) (NoDup_nil _)) as [Hk Hnd].
  split.
  - now rewrite values_keys.
  - intros k. rewrite values_lookup by exact Hk. now rewrite norm_lookup.
Qed.

(** X12. [index_gear_notes_across] returns the empty map for every
    document: each element is cleared at its own end event, so at the end
    event of a time slice its children have no attribute left and no
    airport reference resolves.  The gear list of an airfield therefore
    only ever comes from the notes of [index_airports]. *)
Theorem X12_notes_across_is_always_empty :
  forall (doc : elem),
    Indexer.index_gear_notes_across doc = []
    /\ (forall (gear_notes : list (string * list string)) (aid : string),
          Report.airfield_gear gear_notes
            (Indexer.index_gear_notes_across doc) aid
          = Report.dedup_gear
              (flat_map parse_gear_from_text (Report.notes_of gear_notes aid))).
Proof.
  intros doc. split; [apply index_gear_notes_across_empty|].
  intros gear_notes aid. unfold Report.airfield_gear, Report.gear_items_of.
  rewrite index_gear_notes_across_empty. unfold Report.notes_of at 2. simpl.
  now rewrite app_nil_r.
Qed.

(** ** Runway identifiers *)

Section RunwayIds.
Import Indexer.

Lemma many_greedy (p : ascii -> bool) (w : string) :
  forall mn pv cs,
    Str.forall_chars p w = true -> mn <= String.length w ->
    exists pv' l, many p mn None pv cs w = mkPos pv' EmptyString cs :: l.
Proof.
  induction w as [|c w IH]; intros mn pv cs Hp Hn.
  - simpl in Hn. assert (mn = 0) by lia. subst mn. simpl. eauto.
  - simpl in Hp. apply andb_true_iff in Hp. destruct Hp as [Hc Hw].
    cbn [many]. rewrite Hc. cbn [more dec andb].
    destruct (IH (Nat.pred mn) (Some c) cs Hw) as (pv' & l & E).
    { simpl in Hn. lia. }
    rewrite E. simpl. eauto.
Qed.

Lemma mt_lit_append (p : string) :
  forall pv x cs,
    exists pv', mt (lit p) (mkPos pv (p ++ x) cs) = [mkPos pv' x cs].
Proof.
  induction p as [|c p IH]; intros pv x cs.
  - simpl. eauto.
  - destruct p as [|d p].
    + cbn [lit chr mt rest caps append]. rewrite Ascii.eqb_refl. eauto.
    + change (lit (String c (String d p)))
        with (Seq (chr c) (lit (String d p))).
      cbn [mt chr rest caps append]. rewrite Ascii.eqb_refl.
      cbn [flat_map]. destruct (IH (Some c) x cs) as (pv' & E).
      cbn [append] in E. rewrite E. simpl. eauto.
Qed.

Lemma mt_lit_sound (p : string) :
  forall st e, In e (mt (lit p) st) -> rest st = (p ++ rest e)%string.
Proof.
  induction p as [|c p IH]; intros st e H.
  - apply mt_eps in H. now subst.
  - destruct p as [|d p].
    + apply mt_cls in H. destruct H as (x & Hr & Hx & _).
      apply Ascii.eqb_eq in Hx. subst x. exact Hr.
    + change (lit (String c (String d p)))
        with (Seq (chr c) (lit (String d p))) in H.
      apply mt_seq in H. destruct H as (e1 & H1 & H2).
      apply mt_cls in H1. destruct H1 as (x & Hr & Hx & _).
      apply Ascii.eqb_eq in Hx. subst x.
      rewrite Hr. rewrite (IH _ _ H2). reflexivity.
Qed.

Lemma mt_lit_mismatch (c d : ascii) (p s : string) (pv : option ascii)
      (cs : list (nat * string)) :
  Ascii.eqb c d = false ->
  mt (lit (String c p)) (mkPos pv (String d s) cs) = [].
Proof.
  intros H. destruct p as [|x p].
  - cbn [lit chr mt rest]. now rewrite H.
  - change (lit (String c (String x p))) with (Seq (chr c) (lit (String x p))).
    cbn [mt chr rest]. now rewrite H.
Qed.

Lemma mt_seq_unfold (a b : re) (st : pos) :
  mt (Seq a b) st = flat_map (mt b) (mt a st).
Proof. reflexivity. Qed.

Lemma mt_alt_unfold (a b : re) (st : pos) :
  mt (Alt a b) st = mt a st ++ mt b st.
Proof. reflexivity. Qed.

Lemma mt_grp_unfold (n : nat) (a : re) (st : pos) :
  mt (Grp n a) st
  = map (fun e => mkPos (prev e) (rest e)
                    ((n, consumed (rest st) (rest e)) :: caps e))
        (mt a st).
Proof. reflexivity. Qed.

Lemma mt_chr_hit (c : ascii) (pv : option ascii) (s : string)
      (cs : list (nat * string)) :
  mt (chr c) (mkPos pv (String c s) cs) = [mkPos (Some c) s cs].
Proof. cbn [chr mt rest caps]. now rewrite Ascii.eqb_refl. Qed.

Lemma consumed_all (x : string) : consumed x EmptyString = x.
Proof. rewrite <- (append_nil_r x) at 1. apply consumed_append. Qed.

(** The group [(.+)] at the end of a pattern takes a whole line. *)
Lemma mt_dot_group (n : nat) (pv : option ascii) (x : string)
      (cs : list (nat * string)) :
  x <> EmptyString -> Str.forall_chars dot x = true ->
  exists pv' l,
    mt (Grp n (Many dot 1 None)) (mkPos pv x cs)
    = mkPos pv' EmptyString ((n, x) :: cs) :: l.
Proof.
  intros Hne Hd. cbn [mt prev rest caps].
  destruct (many_greedy dot x 1 pv cs Hd) as (pv' & l & E).
  { destruct x; [contradiction | simpl; lia]. }
  rewrite E. cbn [map prev rest caps]. rewrite consumed_all. eauto.
Qed.

Lemma group_suffix_of_prefixed (P x : string) :
  x <> EmptyString -> Str.forall_chars dot x = true ->
  group_suffix_of P (P ++ x) = x.
Proof.
  intros Hne Hd. unfold group_suffix_of, re_match, match_at, prefixed_id.
  rewrite mt_seq_unfold.
  destruct (mt_lit_append P None x []) as (pv' & E). rewrite E.
  cbn [flat_map]. destruct (mt_dot_group 1 pv' x [] Hne Hd) as (pv2 & l & E2).
  rewrite E2. reflexivity.
Qed.

Lemma group_suffix_of_other (P rid : string) :
  (forall x, rid <> (P ++ x)%string) -> group_suffix_of P rid = rid.
Proof.
  intros H. unfold group_suffix_of.
  destruct (re_match (prefixed_id P) rid) as [m|] eqn:Hm; [|reflexivity].
  exfalso. unfold re_match in Hm.
  destruct (match_at_some _ _ _ _ Hm) as (e & He & _).
  unfold prefixed_id in He. apply mt_seq in He. destruct He as (e1 & H1 & _).
  apply mt_lit_sound in H1. exact (H _ H1).
Qed.

Lemma direction_match (kind other x : string) (c d : ascii) (k o : string) :
  kind = String c k -> other = String d o -> Ascii.eqb d c = false ->
  x <> EmptyString -> Str.forall_chars dot x = true ->
  forall first : bool,
  exists pv l,
    mt (seqs [ lit "RWY_DIRECTION_";
               Grp 1 (if first then Alt (lit kind) (lit other)
                      else Alt (lit other) (lit kind));
               chr "_"; Grp 2 (Many dot 1 None) ])
       (mkPos None ("RWY_DIRECTION_" ++ kind ++ "_" ++ x) [])
    = mkPos pv EmptyString [(2, x); (1, kind)] :: l.
Proof.
  intros Hk Ho Hcd Hne Hd first. cbn [seqs].
  rewrite mt_seq_unfold.
  destruct (mt_lit_append "RWY_DIRECTION_" None (kind ++ "_" ++ x) [])
    as (pv1 & E1).
  rewrite E1. cbn [flat_map]. rewrite app_nil_r.
  rewrite mt_seq_unfold, mt_grp_unfold.
  destruct (mt_lit_append kind pv1 ("_" ++ x) []) as (pv2 & E2).
  assert (Hmiss : mt (lit other) (mkPos pv1 (kind ++ "_" ++ x) []) = []).
  { subst kind other. apply mt_lit_mismatch. exact Hcd. }
  assert (Halt : mt (if first then Alt (lit kind) (lit other)
                     else Alt (lit other) (lit kind))
                    (mkPos pv1 (kind ++ "_" ++ x) [])
                 = [mkPos pv2 ("_" ++ x) []]).
  { destruct first; rewrite mt_alt_unfold, E2, Hmiss; reflexivity. }
  rewrite Halt. cbn [map flat_map prev rest caps]. rewrite app_nil_r.
  rewrite consumed_append.
  rewrite mt_seq_unfold.
  change ("_" ++ x)%string with (String "_" x).
  rewrite mt_chr_hit. cbn [flat_map]. rewrite app_nil_r.
  destruct (mt_dot_group 2 (Some "_"%char) x [(1, kind)] Hne Hd)
    as (pv3 & l & E3).
  rewrite E3. eauto.
Qed.

Lemma end_id_of_base_direction (x : string) :
  x <> EmptyString -> Str.forall_chars dot x = true ->
  end_id_of_direction ("RWY_DIRECTION_BASE_END_" ++ x)
  = Some ("RWY_BASE_END_" ++ x)%string.
Proof.
  intros Hne Hd.
  destruct (direction_match "BASE_END" "RECIPROCAL_END" x "B" "R"
              "ASE_END" "ECIPROCAL_END" eq_refl eq_refl eq_refl Hne Hd true)
    as (pv & l & E).
  unfold end_id_of_direction, re_match, match_at, RWY_DIRECTION_RE.
  change ("RWY_DIRECTION_BASE_END_" ++ x)%string
    with ("RWY_DIRECTION_" ++ "BASE_END" ++ "_" ++ x)%string.
  cbv iota in E. rewrite E. reflexivity.
Qed.

Lemma end_id_of_reciprocal_direction (x : string) :
  x <> EmptyString -> Str.forall_chars dot x = true ->
  end_id_of_direction ("RWY_DIRECTION_RECIPROCAL_END_" ++ x)
  = Some ("RWY_RECIPROCAL_END_" ++ x)%string.
Proof.
  intros Hne Hd.
  destruct (direction_match "RECIPROCAL_END" "BASE_END" x "R" "B"
              "ECIPROCAL_END" "ASE_END" eq_refl eq_refl eq_refl Hne Hd false)
    as (pv & l & E).
  unfold end_id_of_direction, re_match, match_at, RWY_DIRECTION_RE.
  change ("RWY_DIRECTION_RECIPROCAL_END_" ++ x)%string
    with ("RWY_DIRECTION_" ++ "RECIPROCAL_END" ++ "_" ++ x)%string.
  cbv iota in E. rewrite E. reflexivity.
Qed.

End RunwayIds.

Lemma rw_step_runway (pyfloat : Type)
      (float_of_str : string -> option pyfloat)
      (int_of_float : pyfloat -> option Z)
      (st : Indexer.rw_state) (ts : elem) :
  ltag ts = "RunwayTimeSlice" ->
  Indexer.rw_step pyfloat float_of_str int_of_float st (End, ts)
  = Indexer.record_runway pyfloat float_of_str int_of_float st ts.
Proof. intros H. unfold Indexer.rw_step. rewrite H. reflexivity. Qed.

(** The three branches of lines 372-385. *)
Lemma record_runway_branches (pyfloat : Type)
      (float_of_str : string -> option pyfloat)
      (int_of_float : pyfloat -> option Z)
      (st : Indexer.rw_state) (ts : elem) (rid aref : string) :
  Indexer.cur_runway_id st = Some rid ->
  Indexer.airport_ref (Indexer.scan_rts pyfloat float_of_str int_of_float ts)
  = Some aref ->
  rid <> EmptyString -> aref <> EmptyString ->
  let r := Indexer.scan_rts pyfloat float_of_str int_of_float ts in
  let end_of P :=
    Indexer.mkRw (Indexer.pair_dims st)
      (Dict.set String.eqb rid
         (aref, Str.or_empty (Indexer.designator r),
          Indexer.group_suffix_of P rid) (Indexer.end_info st))
      (Indexer.end_disp st) (Indexer.cur_runway_id st)
      (Indexer.cur_rwy_dir_id st) in
  Indexer.record_runway pyfloat float_of_str int_of_float st ts
  = if Str.contains "_BASE_END_" rid then end_of "RWY_BASE_END_"
    else if Str.contains "_RECIPROCAL_END_" rid
    then end_of "RWY_RECIPROCAL_END_"
    else Indexer.mkRw
           (Dict.set pair_eqb (aref, Indexer.group_suffix_of "RWY_" rid)
              (Indexer.length_ft r, Indexer.width_ft r) (Indexer.pair_dims st))
           (Indexer.end_info st) (Indexer.end_disp st)
           (Indexer.cur_runway_id st) (Indexer.cur_rwy_dir_id st).
Proof.
  intros Hcur Href Hrid Haref r end_of. subst r end_of.
  unfold Indexer.record_runway. cbv zeta. rewrite Hcur, Href.
  destruct rid as [|c rid]; [contradiction|].
  destruct aref as [|d aref]; [contradiction|].
  reflexivity.
Qed.

Lemma contains_nonempty (p s : string) :
  p <> EmptyString -> Str.contains p s = true -> s <> EmptyString.
Proof.
  intros Hp H ->. destruct p; [contradiction | discriminate H].
Qed.

(** X13. When a runway time slice with a resolved airport reference ends,
    the role of the runway is read off the substrings of its identifier
    and the group key off its prefix.  For a non-empty suffix s on one
    line: the identifier RWY_BASE_END_s is recorded as an end with key s;
    RWY_RECIPROCAL_END_s is recorded as an end with key s unless it
    contains _BASE_END_; RWY_s is recorded as a pair under key s unless it
    contains _BASE_END_ or _RECIPROCAL_END_, so a pair and its two ends
    share their key.  An identifier that contains _BASE_END_ without
    starting with RWY_BASE_END_ is recorded as an end whose key is the
    whole identifier.  The displacements are never touched. *)
Theorem X13_group_key_is_the_suffix :
  forall (pyfloat : Type) (float_of_str : string -> option pyfloat)
         (int_of_float : pyfloat -> option Z)
         (st : Indexer.rw_state) (ts : elem) (rid aref : string),
    ltag ts = "RunwayTimeSlice" ->
    Indexer.cur_runway_id st = Some rid ->
    Indexer.airport_ref
      (Indexer.scan_rts pyfloat float_of_str int_of_float ts) = Some aref ->
    aref <> EmptyString ->
    let r := Indexer.scan_rts pyfloat float_of_str int_of_float ts in
    let des := Str.or_empty (Indexer.designator r) in
    let st' := Indexer.rw_step pyfloat float_of_str int_of_float st (End, ts) in
    (forall x : string,
        rid = ("RWY_BASE_END_" ++ x)%string ->
        x <> EmptyString -> Str.forall_chars dot x = true ->
        Indexer.end_info st'
        = Dict.set String.eqb rid (aref, des, x) (Indexer.end_info st)
        /\ Indexer.pair_dims st' = Indexer.pair_dims st)
    /\ (forall x : string,
          rid = ("RWY_RECIPROCAL_END_" ++ x)%string ->
          x <> EmptyString -> Str.forall_chars dot x = true ->
          Str.contains "_BASE_END_" rid = false ->
          Indexer.end_info st'
          = Dict.set String.eqb rid (aref, des, x) (Indexer.end_info st)
          /\ Indexer.pair_dims st' = Indexer.pair_dims st)
    /\ (forall x : string,
          rid = ("RWY_" ++ x)%string ->
          x <> EmptyString -> Str.forall_chars dot x = true ->
          Str.contains "_BASE_END_" rid = false ->
          Str.contains "_RECIPROCAL_END_" rid = false ->
          Indexer.pair_dims st'
          = Dict.set pair_eqb (aref, x)
              (Indexer.length_ft r, Indexer.width_ft r) (Indexer.pair_dims st)
          /\ Indexer.end_info st' = Indexer.end_info st)
    /\ (Str.contains "_BASE_END_" rid = true ->
        (forall y, rid <> ("RWY_BASE_END_" ++ y)%string) ->
        Indexer.end_info st'
        = Dict.set String.eqb rid (aref, des, rid) (Indexer.end_info st)
        /\ Indexer.pair_dims st' = Indexer.pair_dims st)
    /\ Indexer.end_disp st' = Indexer.end_disp st.
Proof.
  intros pyfloat float_of_str int_of_float st ts rid aref
         Htag Hcur Href Haref r des st'.
  subst st'. rewrite (rw_step_runway _ _ _ _ _ Htag).
  pose proof (record_runway_branches pyfloat float_of_str int_of_float
                st ts rid aref Hcur Href) as Hrec.
  cbv zeta in Hrec. fold r in Hrec. fold des in Hrec.
  split; [|split; [|split; [|split]]].
  - intros x Hx Hne Hd.
    assert (Hrid : rid <> EmptyString) by (subst rid; discriminate).
    assert (Hc : Str.contains "_BASE_END_" rid = true)
      by (subst rid; destruct x; reflexivity).
    rewrite (Hrec Hrid Haref), Hc.
    cbn [Indexer.end_info Indexer.pair_dims].
    rewrite Hx at 2. rewrite (group_suffix_of_prefixed _ x Hne Hd).
    split; reflexivity.
  - intros x Hx Hne Hd Hnb.
    assert (Hrid : rid <> EmptyString) by (subst rid; discriminate).
    assert (Hc : Str.contains "_RECIPROCAL_END_" rid = true)
      by (subst rid; destruct x; reflexivity).
    rewrite (Hrec Hrid Haref), Hnb, Hc.
    cbn [Indexer.end_info Indexer.pair_dims].
    rewrite Hx at 2. rewrite (group_suffix_of_prefixed _ x Hne Hd).
    split; reflexivity.
  - intros x Hx Hne Hd Hnb Hnr.
    assert (Hrid : rid <> EmptyString) by (subst rid; discriminate).
    rewrite (Hrec Hrid Haref), Hnb, Hnr.
    cbn [Indexer.end_info Indexer.pair_dims].
    rewrite Hx at 1. rewrite (group_suffix_of_prefixed _ x Hne Hd).
    split; reflexivity.
  - intros Hc Hother.
    assert (Hrid : rid <> EmptyString)
      by (apply (contains_nonempty "_BASE_END_"); [discriminate | exact Hc]).
    rewrite (Hrec Hrid Haref), Hc.
    cbn [Indexer.end_info Indexer.pair_dims].
    rewrite (group_suffix_of_other _ rid Hother).
    split; reflexivity.
  - destruct rid as [|c rid'].
    + unfold Indexer.record_runway. cbv zeta. rewrite Hcur.
      destruct (Indexer.airport_ref _); reflexivity.
    + rewrite (Hrec ltac:(discriminate) Haref).
      destruct (Str.contains "_BASE_END_" _); [reflexivity|].
      destruct (Str.contains "_RECIPROCAL_END_" _); reflexivity.
Qed.

Lemma X13_witness :
  (let st := Indexer.mkRw [] [] [] (Some "RWY_BASE_END_ABC123") None in
   let ts := Samples.node "RunwayTimeSlice"
               [Samples.leaf "designator" "18";
                Samples.airport_link Samples.AH_1_href] in
   Indexer.end_info
     (Indexer.rw_step Decimal.dec Decimal.float_of_str Decimal.int_of_float
        st (End, ts))
   = [("RWY_BASE_END_ABC123", ("AH_1", "18", "ABC123"))])
  /\ (let st := Indexer.mkRw [] [] []
                  (Some "RWY_RECIPROCAL_END_A_BASE_END_B") None in
      let ts := Samples.node "RunwayTimeSlice"
                  [Samples.leaf "designator" "36";
                   Samples.airport_link Samples.AH_1_href] in
      Indexer.end_info
        (Indexer.rw_step Decimal.dec Decimal.float_of_str Decimal.int_of_float
           st (End, ts))
      = [("RWY_RECIPROCAL_END_A_BASE_END_B",
          ("AH_1", "36", "RWY_RECIPROCAL_END_A_BASE_END_B"))]).
Proof.
  split.
  - intros st ts.
    apply (proj1 (X13_group_key_is_the_suffix
                    Decimal.dec Decimal.float_of_str Decimal.int_of_float
                    st ts "RWY_BASE_END_ABC123" "AH_1"
                    eq_refl eq_refl eq_refl ltac:(discriminate))
                 "ABC123" eq_refl ltac:(discriminate) eq_refl).
  - intros st ts.
    apply (proj1 (proj2 (proj2 (proj2
             (X13_group_key_is_the_suffix
                Decimal.dec Decimal.float_of_str Decimal.int_of_float
                st ts "RWY_RECIPROCAL_END_A_BASE_END_B" "AH_1"
                eq_refl eq_refl eq_refl ltac:(discriminate)))))
             eq_refl).
    intros y H. cbn [append] in H. discriminate H.
Defined.

Lemma rw_step_direction (pyfloat : Type)
      (float_of_str : string -> option pyfloat)
      (int_of_float : pyfloat -> option Z)
      (st : Indexer.rw_state) (ts : elem) :
  ltag ts = "RunwayDirectionTimeSlice" ->
  Indexer.rw_step pyfloat float_of_str int_of_float st (End, ts)
  = Indexer.record_direction pyfloat float_of_str int_of_float st ts.
Proof. intros H. unfold Indexer.rw_step. rewrite H. reflexivity. Qed.

(** X14. A displaced threshold read under the runway direction
    RWY_DIRECTION_BASE_END_s (or RWY_DIRECTION_RECIPROCAL_END_s) is
    recorded for the airport and designator of the runway end
    RWY_BASE_END_s (or RWY_RECIPROCAL_END_s) when that end is on record;
    the two other maps are left as they were. *)
Theorem X14_direction_reaches_its_end :
  forall (pyfloat : Type) (float_of_str : string -> option pyfloat)
         (int_of_float : pyfloat -> option Z)
         (st : Indexer.rw_state) (ts : elem)
         (kind x a des g : string) (disp : Z),
    kind = "BASE_END" \/ kind = "RECIPROCAL_END" ->
    x <> EmptyString -> Str.forall_chars dot x = true ->
    ltag ts = "RunwayDirectionTimeSlice" ->
    Indexer.cur_rwy_dir_id st = Some ("RWY_DIRECTION_" ++ kind ++ "_" ++ x)%string ->
    Indexer.scan_disp pyfloat float_of_str int_of_float ts = Some disp ->
    Dict.get String.eqb ("RWY_" ++ kind ++ "_" ++ x)%string (Indexer.end_info st)
    = Some (a, des, g) ->
    let st' := Indexer.rw_step pyfloat float_of_str int_of_float st (End, ts) in
    Dict.get pair_eqb (a, des) (Indexer.end_disp st') = Some disp
    /\ Indexer.end_disp st'
       = Dict.set pair_eqb (a, des) disp (Indexer.end_disp st)
    /\ Indexer.pair_dims st' = Indexer.pair_dims st
    /\ Indexer.end_info st' = Indexer.end_info st.
Proof.
  intros pyfloat float_of_str int_of_float st ts kind x a des g disp
         Hkind Hne Hd Htag Hcur Hdisp Hend st'.
  assert (Hid : Indexer.end_id_of_direction
                  ("RWY_DIRECTION_" ++ kind ++ "_" ++ x)%string
                = Some ("RWY_" ++ kind ++ "_" ++ x)%string).
  { destruct Hkind as [-> | ->].
    - exact (end_id_of_base_direction x Hne Hd).
    - exact (end_id_of_reciprocal_direction x Hne Hd). }
  assert (Hst : st' = Indexer.mkRw (Indexer.pair_dims st) (Indexer.end_info st)
                        (Dict.set pair_eqb (a, des) disp (Indexer.end_disp st))
                        (Indexer.cur_runway_id st) (Indexer.cur_rwy_dir_id st)).
  { subst st'. rewrite (rw_step_direction _ _ _ _ _ Htag).
    unfold Indexer.record_direction. rewrite Hcur, Hdisp.
    cbn [append Str.truthy]. cbn [append] in Hid, Hend.
    rewrite Hid, Hend. reflexivity. }
  rewrite Hst. cbn [Indexer.end_disp Indexer.pair_dims Indexer.end_info].
  split; [|auto]. apply get_set_same, pair_eqb_eq.
Qed.

Lemma X14_witness :
  Dict.get pair_eqb ("AH_1", "18")
    (Indexer.end_disp
       (Indexer.rw_step Decimal.dec Decimal.float_of_str Decimal.int_of_float
          (Indexer.mkRw [] [("RWY_BASE_END_ABC123", ("AH_1", "18", "ABC123"))]
                        [] None (Some "RWY_DIRECTION_BASE_END_ABC123"))
          (End, Samples.node "RunwayDirectionTimeSlice"
                  [Samples.leaf "displacedThresholdLength" "500"])))
  = Some 500%Z.
Proof.
  apply (X14_direction_reaches_its_end
           Decimal.dec Decimal.float_of_str Decimal.int_of_float
           (Indexer.mkRw [] [("RWY_BASE_END_ABC123", ("AH_1", "18", "ABC123"))]
                         [] None (Some "RWY_DIRECTION_BASE_END_ABC123"))
           (Samples.node "RunwayDirectionTimeSlice"
              [Samples.leaf "displacedThresholdLength" "500"])
           "BASE_END" "ABC123" "AH_1" "18" "ABC123" 500%Z);
    try reflexivity.
  - left. reflexivity.
  - discriminate.
Defined.

(** ** Last occurrence wins *)

Section LastWins.
Import Indexer.
Variable pyfloat : Type.
Variable float_of_str : string -> option pyfloat.
Variable int_of_float : pyfloat -> option Z.

Local Abbreviation scan_child := (Indexer.scan_child pyfloat float_of_str).
Local Abbreviation scan_children := (Indexer.scan_children pyfloat float_of_str).
Local Abbreviation rts_child := (Indexer.rts_child pyfloat float_of_str int_of_float).

Ltac keep_field :=
  repeat match goal with
         | |- context [if ?b then _ else _] => destruct b; cbn
         | |- context [match ?o with Some _ => _ | None => _ end] =>
             destruct o; cbn
         end; reflexivity.

Lemma scan_child_icao_kept (f : Indexer.fields pyfloat) (c : elem) :
  (ltag c =? "locationIndicatorICAO") = false ->
  icao (scan_child f c) = icao f.
Proof.
  intros H. unfold Indexer.scan_child. rewrite H.
  destruct (ltag c =? "ARP").
  { apply (fold_left_preserves pyfloat (Indexer.arp_sub pyfloat float_of_str)
             (fun g => icao g = icao f)); [|reflexivity].
    intros g e <-. unfold Indexer.arp_sub.
    destruct (ltag e =? "pos"); [|reflexivity].
    destruct (parse_pos _ _ _) as [[lo la]|]; reflexivity. }
  destruct ((ltag c =? "servedCity") && _).
  { destruct (served_city c); reflexivity. }
  destruct (ltag c =? "extension").
  { apply (fold_left_preserves pyfloat (Indexer.extension_sub pyfloat)
             (fun g => icao g = icao f)); [|reflexivity].
    intros g e <-. unfold Indexer.extension_sub. keep_field. }
  destruct (is_org_tag (ltag c)); [|reflexivity].
  apply (fold_left_preserves pyfloat (Indexer.org_sub pyfloat)
           (fun g => icao g = icao f)); [|reflexivity].
  intros g e <-. unfold Indexer.org_sub.
  destruct (ltag e =? "address").
  - apply (fold_left_preserves pyfloat (Indexer.address_part pyfloat)
             (fun h => icao h = icao g)); [|reflexivity].
    intros h e' <-. unfold Indexer.address_part. keep_field.
  - keep_field.
Qed.

Lemma icao_last_wins (pre post : list elem) (c : elem) :
  ltag c = "locationIndicatorICAO" ->
  (forall c', In c' post -> ltag c' <> "locationIndicatorICAO") ->
  icao (scan_children (pre ++ c :: post)) = Str.or_none (stext c).
Proof.
  intros Htag Hpost. unfold Indexer.scan_children.
  rewrite fold_left_app. cbn [fold_left].
  set (f := fold_left scan_child pre (fields0 pyfloat)).
  assert (Hc : icao (scan_child f c) = Str.or_none (stext c)).
  { unfold Indexer.scan_child. rewrite Htag. reflexivity. }
  rewrite <- Hc. generalize (scan_child f c). clear Hc f.
  induction post as [|d post IH]; intros f; [reflexivity|].
  cbn [fold_left]. rewrite IH.
  - apply scan_child_icao_kept. apply String.eqb_neq. apply Hpost. now left.
  - intros c' Hin. apply Hpost. now right.
Qed.

Lemma rts_child_length_kept (r : rts) (c : elem) :
  (ltag c =? "lengthStrip") = false ->
  length_ft (rts_child r c) = length_ft r.
Proof.
  intros H. unfold Indexer.rts_child. rewrite H.
  destruct (ltag c =? "designator"); [reflexivity|].
  destruct (ltag c =? "associatedAirportHeliport").
  - destruct (resolve_href _); reflexivity.
  - destruct (ltag c =? "widthStrip"); reflexivity.
Qed.

Lemma length_last_wins (pre post : list elem) (c : elem) :
  ltag c = "lengthStrip" ->
  (forall c', In c' post -> ltag c' <> "lengthStrip") ->
  length_ft (fold_left rts_child (pre ++ c :: post) rts0)
  = int_of_float_str pyfloat float_of_str int_of_float (stext c).
Proof.
  intros Htag Hpost. rewrite fold_left_app. cbn [fold_left].
  set (r := fold_left rts_child pre rts0).
  assert (Hc : length_ft (rts_child r c)
               = int_of_float_str pyfloat float_of_str int_of_float (stext c)).
  { unfold Indexer.rts_child. rewrite Htag. reflexivity. }
  rewrite <- Hc. generalize (rts_child r c). clear Hc r.
  induction post as [|d post IH]; intros r; [reflexivity|].
  cbn [fold_left]. rewrite IH.
  - apply rts_child_length_kept. apply String.eqb_neq. apply Hpost. now left.
  - intros c' Hin. apply Hpost. now right.
Qed.

End LastWins.

(** X15. The ICAO indicator stored for a time slice is that of its last
    direct child [locationIndicatorICAO]: its stripped text, or nothing
    when that text is blank, whatever the earlier ones held. *)
Theorem X15_last_icao_indicator_wins :
  forall (pyfloat : Type) (float_of_str : string -> option pyfloat)
         (ts c : elem) (pre post : list elem),
    echildren ts = pre ++ c :: post ->
    ltag c = "locationIndicatorICAO" ->
    (forall c', In c' post -> ltag c' <> "locationIndicatorICAO") ->
    Indexer.a_icao (Indexer.airport_of pyfloat float_of_str ts)
    = Str.or_none (stext c).
Proof.
  intros pyfloat float_of_str ts c pre post Hcs Htag Hpost.
  unfold Indexer.airport_of.
  destruct (extract_designator_and_name ts). cbn [Indexer.a_icao].
  rewrite Hcs. now apply icao_last_wins.
Qed.

Lemma X15_witness :
  Indexer.a_icao
    (Indexer.airport_of Decimal.dec Decimal.float_of_str
       (Samples.node "AirportHeliportTimeSlice"
          [ Samples.leaf "locationIndicatorICAO" "KAAA";
            Samples.leaf "locationIndicatorICAO" "  ";
            Samples.leaf "name" "Alpha" ]))
  = None.
Proof.
  apply (X15_last_icao_indicator_wins Decimal.dec Decimal.float_of_str
           (Samples.node "AirportHeliportTimeSlice"
              [ Samples.leaf "locationIndicatorICAO" "KAAA";
                Samples.leaf "locationIndicatorICAO" "  ";
                Samples.leaf "name" "Alpha" ])
           (Samples.leaf "locationIndicatorICAO" "  ")
           [Samples.leaf "locationIndicatorICAO" "KAAA"]
           [Samples.leaf "name" "Alpha"]).
  - reflexivity.
  - reflexivity.
  - intros c' [<-|[]]. discriminate.
Defined.

(** X16. The length recorded for a runway time slice is the conversion of
    its last direct child [lengthStrip]: when that text does not convert,
    the length is absent even if an earlier [lengthStrip] converted. *)
Theorem X16_last_length_strip_wins :
  forall (pyfloat : Type) (float_of_str : string -> option pyfloat)
         (int_of_float : pyfloat -> option Z)
         (ts c : elem) (pre post : list elem),
    echildren ts = pre ++ c :: post ->
    ltag c = "lengthStrip" ->
    (forall c', In c' post -> ltag c' <> "lengthStrip") ->
    Indexer.length_ft (Indexer.scan_rts pyfloat float_of_str int_of_float ts)
    = Indexer.int_of_float_str pyfloat float_of_str int_of_float (stext c).
Proof.
  intros pyfloat float_of_str int_of_float ts c pre post Hcs Htag Hpost.
  unfold Indexer.scan_rts. rewrite Hcs. now apply length_last_wins.
Qed.

Lemma X16_witness :
  Indexer.length_ft
    (Indexer.scan_rts Decimal.dec Decimal.float_of_str Decimal.int_of_float
       (Samples.node "RunwayTimeSlice"
          [ Samples.leaf "lengthStrip" "8000";
            Samples.leaf "lengthStrip" "n/a";
            Samples.leaf "widthStrip" "150" ]))
  = None.
Proof.
  apply (X16_last_length_strip_wins
           Decimal.dec Decimal.float_of_str Decimal.int_of_float
           (Samples.node "RunwayTimeSlice"
              [ Samples.leaf "lengthStrip" "8000";
                Samples.leaf "lengthStrip" "n/a";
                Samples.leaf "widthStrip" "150" ])
           (Samples.leaf "lengthStrip" "n/a")
           [Samples.leaf "lengthStrip" "8000"]
           [Samples.leaf "widthStrip" "150"]).
  - reflexivity.
  - reflexivity.
  - intros c' [<-|[]]. discriminate.
Defined.

(** ** Letter case *)

Section LetterCase.
Import CaseFold.

Lemma class_blind_spec (p : ascii -> bool) :
  class_blind p = true -> forall c, p (upper_char c) = p c.
Proof.
  unfold class_blind. rewrite forallb_forall. intros H c.
  apply eqb_prop, H, in_all_ascii.
Qed.

Lemma is_word_upper (c : ascii) : is_word (upper_char c) = is_word c.
Proof. destruct c as [[] [] [] [] [] [] [] []]; reflexivity. Qed.

Lemma is_space_upper (c : ascii) : is_space (upper_char c) = is_space c.
Proof. destruct c as [[] [] [] [] [] [] [] []]; reflexivity. Qed.

Lemma is_newline_upper (c : ascii) :
  Ascii.eqb (upper_char c) "010" = Ascii.eqb c "010".
Proof. destruct c as [[] [] [] [] [] [] [] []]; reflexivity. Qed.

Lemma digit_upper (c : ascii) : is_digit c = true -> upper_char c = c.
Proof. destruct c as [[] [] [] [] [] [] [] []]; intros H; try reflexivity; discriminate H. Qed.

Lemma length_upper (s : string) : String.length (Str.upper s) = String.length s.
Proof. induction s as [|c s IH]; simpl; [reflexivity | now rewrite IH]. Qed.

Lemma substring_upper (s : string) :
  forall n, String.substring 0 n (Str.upper s) = Str.upper (String.substring 0 n s).
Proof.
  induction s as [|c s IH]; intros n; simpl.
  - destruct n; reflexivity.
  - destruct n; simpl; [reflexivity | now rewrite IH].
Qed.

Lemma consumed_upper (s0 s1 : string) :
  consumed (Str.upper s0) (Str.upper s1) = Str.upper (consumed s0 s1).
Proof. unfold consumed. now rewrite !length_upper, substring_upper. Qed.

Lemma many_upper (p : ascii -> bool) (s : string) :
  (forall c, p (upper_char c) = p c) ->
  forall mn mx pv cs,
    many p mn mx (option_map upper_char pv) (up_caps cs) (Str.upper s)
    = map up_pos (many p mn mx pv cs s).
Proof.
  intros Hp. induction s as [|c s IH]; intros mn mx pv cs.
  - simpl. destruct mn; reflexivity.
  - cbn [Str.upper many]. rewrite Hp.
    assert (Hstop : match mn with
                    | O => [mkPos (option_map upper_char pv)
                              (String (upper_char c) (Str.upper s)) (up_caps cs)]
                    | S _ => []
                    end
                    = map up_pos (match mn with
                                  | O => [mkPos pv (String c s) cs]
                                  | S _ => []
                                  end)).
    { destruct mn; reflexivity. }
    destruct (p c && more mx).
    + rewrite map_app, <- Hstop.
      rewrite <- (IH (Nat.pred mn) (dec mx) (Some c) cs). reflexivity.
    + exact Hstop.
Qed.

Lemma flat_map_map {A B C : Type} (f : A -> B) (g : B -> list C) (l : list A) :
  flat_map g (map f l) = flat_map (fun x => g (f x)) l.
Proof. induction l as [|a l IH]; simpl; [reflexivity | now rewrite IH]. Qed.

Lemma map_flat_map {A B C : Type} (f : B -> C) (g : A -> list B) (l : list A) :
  map f (flat_map g l) = flat_map (fun x => map f (g x)) l.
Proof.
  induction l as [|a l IH]; simpl; [reflexivity|]. now rewrite map_app, IH.
Qed.

(** A pattern that is blind to case matches the upper-cased subject the
    way it matches the subject. *)
Lemma mt_upper (r : re) :
  case_blind r = true ->
  forall st, mt r (up_pos st) = map up_pos (mt r st).
Proof.
  induction r as [|p|r1 IH1 r2 IH2|r1 IH1 r2 IH2|p mn mx|n r1 IH1| | |];
    intros Hb st; cbn [case_blind] in Hb.
  - reflexivity.
  - pose proof (class_blind_spec p Hb) as Hp.
    destruct st as [pv [|c s] cs]; cbn [mt up_pos rest caps prev Str.upper];
      [reflexivity|].
    rewrite Hp. destruct (p c); reflexivity.
  - apply andb_true_iff in Hb. destruct Hb as [B1 B2].
    cbn [mt]. rewrite (IH1 B1), flat_map_map, map_flat_map.
    apply flat_map_ext. intros e. apply (IH2 B2).
  - apply andb_true_iff in Hb. destruct Hb as [B1 B2].
    cbn [mt]. now rewrite (IH1 B1), (IH2 B2), map_app.
  - cbn [mt]. destruct st as [pv s cs]. cbn [up_pos prev rest caps].
    apply many_upper. now apply class_blind_spec.
  - cbn [mt]. rewrite (IH1 Hb), !map_map. apply map_ext. intros e.
    unfold up_pos at 1 2 3 5. cbn [prev rest caps up_caps map fst snd].
    unfold up_pos. cbn [prev rest caps up_caps map fst snd].
    now rewrite consumed_upper.
  - cbn [mt]. unfold word_before, word_after.
    destruct st as [[c|] [|d s] cs]; cbn [up_pos prev rest caps option_map Str.upper];
      rewrite ?is_word_upper;
      match goal with |- context [if ?b then _ else _] => destruct b end;
      reflexivity.
  - cbn [mt]. destruct st as [[c|] s cs]; reflexivity.
  - cbn [mt]. destruct st as [pv [|c [|d s]] cs];
      cbn [up_pos prev rest caps Str.upper]; try reflexivity.
    rewrite is_newline_upper. destruct (Ascii.eqb c "010"); reflexivity.
Qed.

Lemma match_at_upper (r : re) (pv : option ascii) (s : string) :
  case_blind r = true ->
  match_at r (option_map upper_char pv) (Str.upper s)
  = option_map up_mobj (match_at r pv s).
Proof.
  revert s. intros s Hb. unfold match_at.
  change (mkPos (option_map upper_char pv) (Str.upper s) [])
    with (up_pos (mkPos pv s [])).
  rewrite (mt_upper r Hb).
  destruct (mt r (mkPos pv s [])) as [|e l]; [reflexivity|].
  cbn [map option_map]. unfold up_mobj. cbn [whole groups span up_pos rest caps].
  now rewrite consumed_upper, !length_upper.
Qed.

Lemma search_from_upper (r : re) (s : string) :
  case_blind r = true ->
  forall pv,
    search_from r (option_map upper_char pv) (Str.upper s)
    = option_map up_mobj (search_from r pv s).
Proof.
  intros Hb. induction s as [|c s IH]; intros pv;
    pose proof (fun x => match_at_upper r pv x Hb) as Hm;
    cbn [Str.upper search_from] in *.
  - specialize (Hm EmptyString). cbn [Str.upper] in Hm. rewrite Hm.
    destruct (match_at r pv ""); reflexivity.
  - specialize (Hm (String c s)). cbn [Str.upper] in Hm. rewrite Hm.
    destruct (match_at r pv (String c s)); [reflexivity|].
    cbn [option_map]. apply (IH (Some c)).
Qed.

Lemma finditer_from_upper (r : re) (s : string) :
  case_blind r = true ->
  forall skip pv,
    finditer_from r skip (option_map upper_char pv) (Str.upper s)
    = map up_mobj (finditer_from r skip pv s).
Proof.
  intros Hb. induction s as [|c s IH]; intros skip pv;
    pose proof (fun x => match_at_upper r pv x Hb) as Hm.
  - destruct skip; [|reflexivity]. cbn [Str.upper finditer_from].
    specialize (Hm EmptyString). cbn [Str.upper] in Hm. rewrite Hm.
    destruct (match_at r pv ""); reflexivity.
  - destruct skip as [|k].
    + cbn [finditer_from Str.upper].
      specialize (Hm (String c s)). cbn [Str.upper] in Hm. rewrite Hm.
      destruct (match_at r pv (String c s)) as [m|]; cbn [option_map map].
      * f_equal. apply (IH (Nat.pred (span m)) (Some c)).
      * apply (IH 0 (Some c)).
    + cbn [finditer_from Str.upper]. apply (IH k (Some c)).
Qed.

Lemma finditer_upper (r : re) (s : string) :
  case_blind r = true ->
  finditer r (Str.upper s) = map up_mobj (finditer r s).
Proof. intros Hb. apply (finditer_from_upper r s Hb 0 None). Qed.

Lemma group_upper (n : nat) (m : mobj) :
  group n (up_mobj m) = option_map Str.upper (group n m).
Proof.
  unfold group, up_mobj. cbn [groups].
  induction (groups m) as [|[k w] l IH]; [reflexivity|].
  cbn [up_caps map assoc_nat fst snd]. destruct (Nat.eqb k n); [reflexivity|].
  exact IH.
Qed.

Lemma upper_digits (w : string) :
  Str.forall_chars is_digit w = true -> Str.upper w = w.
Proof.
  induction w as [|c w IH]; simpl; [reflexivity|]. intros H.
  apply andb_true_iff in H. destruct H as [Hc Hw].
  now rewrite (digit_upper c Hc), IH.
Qed.

Lemma lstrip_upper (s : string) : Str.lstrip (Str.upper s) = Str.upper (Str.lstrip s).
Proof.
  induction s as [|c s IH]; [reflexivity|].
  cbn [Str.upper Str.lstrip]. rewrite is_space_upper.
  destruct (is_space c); [exact IH | reflexivity].
Qed.

Lemma rstrip_upper (s : string) : Str.rstrip (Str.upper s) = Str.upper (Str.rstrip s).
Proof.
  induction s as [|c s IH]; [reflexivity|].
  cbn [Str.upper Str.rstrip]. rewrite IH, is_space_upper.
  destruct (Str.rstrip s); cbn [Str.upper]; [|reflexivity].
  destruct (is_space c); reflexivity.
Qed.

Lemma strip_upper (s : string) : Str.strip (Str.upper s) = Str.upper (Str.strip s).
Proof. unfold Str.strip. now rewrite lstrip_upper, rstrip_upper. Qed.

Lemma truthy_upper (s : string) : Str.truthy (Str.upper s) = Str.truthy s.
Proof. destruct s; reflexivity. Qed.

Lemma patterns_case_blind :
  case_blind AG_PATTERN = true /\ case_blind GEAR_TYPE_RE = true
  /\ case_blind FT_FROM_THR_RE = true /\ case_blind PAREN_FEET_RE = true.
Proof. vm_compute. auto. Qed.

Lemma thr_distances_upper (txt : string) :
  thr_distances (Str.upper txt) = thr_distances txt.
Proof.
  unfold thr_distances, findall1.
  rewrite (finditer_upper FT_FROM_THR_RE txt
             (proj1 (proj2 (proj2 patterns_case_blind)))), !map_map.
  apply map_ext_in. intros m Hm. rewrite group_upper.
  destruct (thr_group_digits _ _ Hm) as (w & -> & Hd & _).
  cbn [option_map Str.or_empty]. now rewrite (upper_digits w Hd).
Qed.

Lemma paren_distances_upper (txt : string) :
  paren_distances (Str.upper txt) = paren_distances txt.
Proof.
  unfold paren_distances, findall1.
  rewrite (finditer_upper PAREN_FEET_RE txt
             (proj2 (proj2 (proj2 patterns_case_blind)))), !map_map.
  apply map_ext_in. intros m Hm. rewrite group_upper.
  destruct (paren_group_digits _ _ Hm) as (w & -> & Hd & _).
  cbn [option_map Str.or_empty]. now rewrite (upper_digits w Hd).
Qed.

Lemma gear_type_upper (m : mobj) :
  gear_type (group 1 (up_mobj m)) (Str.or_empty (group 2 (up_mobj m)))
  = gear_type (group 1 m) (Str.or_empty (group 2 m)).
Proof.
  rewrite !group_upper. unfold gear_type, normalize_code.
  assert (Hh : Str.truthy_opt (option_map Str.upper (group 1 m))
               = Str.truthy_opt (group 1 m)).
  { destruct (group 1 m) as [h|]; [|reflexivity].
    unfold Str.truthy_opt. cbn [option_map Str.or_empty]. apply truthy_upper. }
  assert (Hg : Str.upper (Str.or_empty (option_map Str.upper (group 2 m)))
               = Str.upper (Str.or_empty (group 2 m))).
  { destruct (group 2 m) as [g|]; [|reflexivity].
    cbn [option_map Str.or_empty]. apply upper_idem. }
  now rewrite Hh, Hg.
Qed.

End LetterCase.

(** X17. Letter case does not matter.  A text passes the gear test
    exactly when the text with its letters a-z capitalised passes it, and
    parsing the capitalised note gives the same mentions, with the same
    types and the same two distance lists, only the raw field being the
    capitalised text. *)
Theorem X17_letter_case_does_not_matter :
  forall s : string,
    mentions_gear (Str.upper s) = mentions_gear s
    /\ parse_gear_from_text (Str.upper s)
       = map CaseFold.up_raw (parse_gear_from_text s).
Proof.
  intros s. split.
  - unfold mentions_gear, search.
    pose proof (search_from_upper AG_PATTERN s
                  (proj1 patterns_case_blind) None) as H1.
    pose proof (search_from_upper GEAR_TYPE_RE s
                  (proj1 (proj2 patterns_case_blind)) None) as H2.
    cbn [option_map] in H1, H2. rewrite H1, H2.
    destruct (search_from AG_PATTERN None s),
             (search_from GEAR_TYPE_RE None s); reflexivity.
  - unfold parse_gear_from_text.
    rewrite strip_upper, truthy_upper.
    destruct (negb (Str.truthy (Str.strip s))); [reflexivity|].
    rewrite (finditer_upper GEAR_TYPE_RE (Str.strip s)
               (proj1 (proj2 patterns_case_blind))), !map_map.
    apply map_ext. intros m. unfold mention_of, CaseFold.up_raw.
    cbn [mtype distances_from_threshold_ft distances_misc_ft raw].
    now rewrite gear_type_upper, thr_distances_upper, paren_distances_upper.
Qed.

(** ** Two time slices of one airport *)

Lemma ap_step_timeslice (pyfloat : Type)
      (float_of_str : string -> option pyfloat)
      (st : Indexer.ap_state pyfloat) (ts : elem) (aid : string) :
  ltag ts = "AirportHeliportTimeSlice" ->
  Indexer.cur_airport_id _ st = Some aid -> Str.truthy aid = true ->
  Indexer.ap_step _ float_of_str st (End, ts)
  = Indexer.mkAp _
      (Dict.set String.eqb aid (Indexer.airport_of _ float_of_str ts)
                (Indexer.airports _ st))
      (match extract_gear_notes ts with
       | [] => Indexer.gear_notes _ st
       | _ => Dict.set String.eqb aid (extract_gear_notes ts)
                       (Indexer.gear_notes _ st)
       end)
      (Some aid).
Proof.
  intros Htag Hcur Haid. unfold Indexer.ap_step. rewrite Htag.
  cbn [is_start is_end negb andb String.eqb]. rewrite Hcur, Haid.
  reflexivity.
Qed.

(** X18. When two time slices of the same airport are indexed one after
    the other, the airport record is that of the second; but if the second
    has no gear note while the first had some, the gear notes stored for
    the airport remain those of the first. *)
Theorem X18_record_replaced_notes_kept :
  forall (pyfloat : Type) (float_of_str : string -> option pyfloat)
         (st : Indexer.ap_state pyfloat) (ts1 ts2 : elem) (aid : string),
    ltag ts1 = "AirportHeliportTimeSlice" ->
    ltag ts2 = "AirportHeliportTimeSlice" ->
    Indexer.cur_airport_id _ st = Some aid -> Str.truthy aid = true ->
    extract_gear_notes ts1 <> [] -> extract_gear_notes ts2 = [] ->
    let st2 := Indexer.ap_step _ float_of_str
                 (Indexer.ap_step _ float_of_str st (End, ts1)) (End, ts2) in
    Dict.get String.eqb aid (Indexer.airports _ st2)
    = Some (Indexer.airport_of _ float_of_str ts2)
    /\ Dict.get String.eqb aid (Indexer.gear_notes _ st2)
       = Some (extract_gear_notes ts1).
Proof.
  intros pyfloat float_of_str st ts1 ts2 aid H1 H2 Hcur Haid Hn1 Hn2 st2.
  subst st2.
  rewrite (ap_step_timeslice _ _ st ts1 aid H1 Hcur Haid).
  erewrite ap_step_timeslice; [| exact H2 | reflexivity | exact Haid].
  rewrite Hn2. cbn [Indexer.airports Indexer.gear_notes].
  split; [apply get_set_same, String.eqb_eq|].
  destruct (extract_gear_notes ts1) as [|n ns]; [contradiction|].
  apply get_set_same, String.eqb_eq.
Qed.

Lemma X18_witness :
  Dict.get String.eqb "AH_1"
    (Indexer.gear_notes _
       (Indexer.ap_step _ Decimal.float_of_str
          (Indexer.ap_step _ Decimal.float_of_str
             (Indexer.mkAp Decimal.dec [] [] (Some "AH_1"))
             (End, Samples.test_timeslice))
          (End, Samples.node "AirportHeliportTimeSlice"
                  [Samples.leaf "designator" "TEST"])))
  = Some (extract_gear_notes Samples.test_timeslice).
Proof.
  apply (X18_record_replaced_notes_kept Decimal.dec Decimal.float_of_str
           (Indexer.mkAp Decimal.dec [] [] (Some "AH_1"))
           Samples.test_timeslice
           (Samples.node "AirportHeliportTimeSlice"
              [Samples.leaf "designator" "TEST"])
           "AH_1"); try reflexivity.
  vm_compute. discriminate.
Defined.

(** ** What the normalizer touches *)

Lemma catalogue_hyphens_only :
  forallb (fun g => String.eqb (remove_hyphens (normalize_code g))
                               (remove_hyphens (Str.upper g)))
          (enum gear_codes) = true.
Proof. vm_compute. reflexivity. Qed.

(** X19. Normalizing a code that the gear pattern captured changes nothing
    but letter case and hyphens: without its hyphens, the normalized code is
    the captured code in capitals without its hyphens. *)
Theorem X19_normalizer_only_moves_hyphens :
  forall (txt : string) (m : mobj) (g : string),
    In m (finditer GEAR_TYPE_RE txt) -> group 2 m = Some g ->
    remove_hyphens (normalize_code g) = remove_hyphens (Str.upper g).
Proof.
  intros txt m g Hm Hg.
  destruct (catalogue_code _ _ Hm) as (g' & Hin & H2 & _).
  assert (g' = g) by congruence. subst g'.
  pose proof (proj1 (forallb_forall _ _) catalogue_hyphens_only g Hin) as Hc.
  now apply String.eqb_eq in Hc.
Qed.

Lemma X19_witness :
  remove_hyphens (normalize_code "mb-60") = remove_hyphens (Str.upper "mb-60").
Proof.
  apply (X19_normalizer_only_moves_hyphens "mb-60 net"
           (mkM "mb-60" [(2, "mb-60")] 5) "mb-60").
  - vm_compute. left. reflexivity.
  - reflexivity.
Defined.

(** ** CSV fields *)

Section CsvEscape.
Import Report.

Local Abbreviation qq := (dquote ++ dquote)%string.

Lemma prefix_nil (s : string) : String.prefix EmptyString s = true.
Proof. destruct s; reflexivity. Qed.

Lemma prefix_one (c d : ascii) (s : string) :
  String.prefix (String c EmptyString) (String d s) = Ascii.eqb c d.
Proof.
  cbn [String.prefix]. rewrite prefix_nil.
  destruct (ascii_dec c d) as [->|N].
  - now rewrite Ascii.eqb_refl.
  - symmetry. now apply Ascii.eqb_neq.
Qed.

Lemma replace_quote_cons (c : ascii) (s : string) :
  Str.replace dquote qq (String c s)
  = if Ascii.eqb dquote_char c
    then String dquote_char (String dquote_char (Str.replace dquote qq s))
    else String c (Str.replace dquote qq s).
Proof.
  unfold Str.replace, dquote. cbn [Str.replace_from].
  rewrite prefix_one. destruct (Ascii.eqb dquote_char c); reflexivity.
Qed.

Lemma replace_quote_inj (a : string) :
  forall b, Str.replace dquote qq a = Str.replace dquote qq b -> a = b.
Proof.
  induction a as [|c a IH]; intros [|d b] H.
  - reflexivity.
  - rewrite replace_quote_cons in H.
    destruct (Ascii.eqb dquote_char d); discriminate H.
  - rewrite replace_quote_cons in H.
    destruct (Ascii.eqb dquote_char c); discriminate H.
  - rewrite !replace_quote_cons in H.
    destruct (Ascii.eqb dquote_char c) eqn:Ec, (Ascii.eqb dquote_char d) eqn:Ed.
    + apply Ascii.eqb_eq in Ec, Ed. subst c d.
      injection H as H. now rewrite (IH b H).
    + injection H as H1 H2. subst d.
      rewrite Ascii.eqb_refl in Ed. discriminate.
    + injection H as H1 H2. subst c.
      rewrite Ascii.eqb_refl in Ec. discriminate.
    + injection H as -> H. now rewrite (IH b H).
Qed.

Lemma append_inv_tail (a : string) :
  forall b s, (a ++ s)%string = (b ++ s)%string -> a = b.
Proof.
  induction a as [|c a IH]; intros [|d b] s H.
  - reflexivity.
  - exfalso. apply (f_equal String.length) in H.
    cbn [append String.length] in H. rewrite length_append in H. lia.
  - exfalso. apply (f_equal String.length) in H.
    cbn [append String.length] in H. rewrite length_append in H. lia.
  - cbn [append] in H. injection H as -> H. now rewrite (IH b s H).
Qed.

Lemma contains_head (c : ascii) (s : string) :
  Str.contains (String c EmptyString) (String c s) = true.
Proof. cbn [Str.contains]. now rewrite prefix_one, Ascii.eqb_refl. Qed.

Lemma esc_plain_or_quoted (s : string) :
  (esc (Some s) = s /\ Str.contains dquote s = false)
  \/ esc (Some s) = (dquote ++ Str.replace dquote qq s ++ dquote)%string.
Proof.
  unfold esc. cbn [Str.or_empty].
  destruct (Str.contains "," s); [now right|].
  destruct (Str.contains dquote s); [now right|].
  destruct (Str.contains (String "010" EmptyString) s); [now right|].
  now left.
Qed.

End CsvEscape.

(** X20. The CSV escaping leaves a field without comma, double quote and
    line feed as it is, and wraps any other field in double quotes with
    each of its own double quotes doubled; two different texts never get
    the same escaped text, while an absent field is written like the empty
    text. *)
Theorem X20_csv_escape_is_injective :
  (forall s : string,
      Str.contains "," s = false ->
      Str.contains Report.dquote s = false ->
      Str.contains (String "010" EmptyString) s = false ->
      Report.esc (Some s) = s)
  /\ (forall s : string,
        Str.contains "," s = true
        \/ Str.contains Report.dquote s = true
        \/ Str.contains (String "010" EmptyString) s = true ->
        Report.esc (Some s)
        = (Report.dquote
           ++ Str.replace Report.dquote (Report.dquote ++ Report.dquote) s
           ++ Report.dquote)%string)
  /\ (forall (c : ascii) (s : string),
        Str.replace Report.dquote (Report.dquote ++ Report.dquote) (String c s)
        = if Ascii.eqb Report.dquote_char c
          then String Report.dquote_char
                 (String Report.dquote_char
                    (Str.replace Report.dquote
                       (Report.dquote ++ Report.dquote) s))
          else String c
                 (Str.replace Report.dquote (Report.dquote ++ Report.dquote) s))
  /\ (forall a b : string,
        Report.esc (Some a) = Report.esc (Some b) -> a = b)
  /\ Report.esc None = EmptyString
  /\ Report.esc (Some EmptyString) = EmptyString.
Proof.
  split; [|split; [|split; [|split; [|split; reflexivity]]]].
  - intros s H1 H2 H3. unfold Report.esc. cbn [Str.or_empty].
    now rewrite H1, H2, H3.
  - intros s H. unfold Report.esc. cbn [Str.or_empty].
    destruct (Str.contains "," s); [reflexivity|].
    destruct (Str.contains Report.dquote s); [reflexivity|].
    destruct (Str.contains (String "010" EmptyString) s); [reflexivity|].
    destruct H as [H|[H|H]]; discriminate H.
  - exact replace_quote_cons.
  - intros a b H.
    destruct (esc_plain_or_quoted a) as [[Ea Ha]|Ea],
             (esc_plain_or_quoted b) as [[Eb Hb]|Eb];
      rewrite Ea, Eb in H.
    + exact H.
    + exfalso. subst a. unfold Report.dquote in Ha. cbn [append] in Ha.
      rewrite contains_head in Ha. discriminate.
    + exfalso. subst b. unfold Report.dquote in Hb. cbn [append] in Hb.
      rewrite contains_head in Hb. discriminate.
    + cbn [Report.dquote append] in H.
      injection H as H. apply append_inv_tail in H.
      now apply replace_quote_inj.
Qed.

Lemma X20_witness :
  Report.esc (Some "Test Field") = "Test Field"
  /\ Report.esc (Some ("Field " ++ Report.dquote ++ "A" ++ Report.dquote
                       ++ ", north")%string)
     = (Report.dquote ++ "Field " ++ Report.dquote ++ Report.dquote ++ "A"
        ++ Report.dquote ++ Report.dquote ++ ", north" ++ Report.dquote)%string.
Proof.
  split.
  - apply (proj1 X20_csv_escape_is_injective "Test Field"); reflexivity.
  - apply (proj1 (proj2 X20_csv_escape_is_injective)
             ("Field " ++ Report.dquote ++ "A" ++ Report.dquote
              ++ ", north")%string).
    left. reflexivity.
Defined.

(** ** The time slices that the scan yields *)

Section TimeSlices.
Import Report.







End TimeSlices.



(** ** The gear-notes map of [index_airports] *)

Section GearNotesMap.
Import Indexer.
Variable pyfloat : Type.
Variable float_of_str : string -> option pyfloat.

Lemma get_set_string {V : Type} (k k' : string) (v : V) (d : list (string * V)) :
  Dict.get String.eqb k' (Dict.set String.eqb k v d)
  = if String.eqb k k' then Some v else Dict.get String.eqb k' d.
Proof.
  destruct (String.eqb_spec k k') as [->|Hne].
  - apply get_set_same, String.eqb_eq.
  - apply get_set_other; [apply String.eqb_eq | exact Hne].
Qed.

Lemma extract_gear_notes_all (ts : elem) :
  Forall (fun n => mentions_gear n = true) (extract_gear_notes ts).
Proof.
  apply Forall_forall. intros n Hn. unfold extract_gear_notes in Hn.
  apply in_map_iff in Hn. destruct Hn as (e & <- & He).
  apply filter_In in He. destruct He as [_ He].
  unfold is_gear_note in He. apply andb_true_iff in He. apply He.
Qed.

Lemma notes_ok_step (st : ap_state pyfloat) (ev : event_kind * elem) :
  (forall k notes,
      Dict.get String.eqb k (gear_notes _ st) = Some notes ->
      notes <> [] /\ Forall (fun n => mentions_gear n = true) notes
      /\ Dict.get String.eqb k (airports _ st) <> None) ->
  forall k notes,
    Dict.get String.eqb k
      (gear_notes _ (ap_step _ float_of_str st ev)) = Some notes ->
    notes <> [] /\ Forall (fun n => mentions_gear n = true) notes
    /\ Dict.get String.eqb k
         (airports _ (ap_step _ float_of_str st ev)) <> None.
Proof.
  intros Hinv k notes. destruct ev as [kind e]. unfold ap_step.
  destruct (is_start kind && (ltag e =? "AirportHeliport")).
  { cbn [gear_notes airports]. apply Hinv. }
  destruct (is_end kind && (ltag e =? "AirportHeliportTimeSlice")).
  - destruct (cur_airport_id pyfloat st) as [aid|]; [|apply Hinv].
    destruct (Str.truthy aid); [|apply Hinv].
    cbn [gear_notes airports]. rewrite get_set_string.
    pose proof (extract_gear_notes_all e) as Hall.
    destruct (extract_gear_notes e) as [|n ns] eqn:Hn.
    + intros Hg. destruct (Hinv k notes Hg) as (A & B & C).
      repeat split; try assumption.
      destruct (String.eqb aid k); [discriminate | exact C].
    + rewrite get_set_string.
      destruct (String.eqb aid k).
      * intros [= <-]. repeat split; [discriminate | exact Hall | discriminate].
      * apply Hinv.
  - destruct (is_end kind && (ltag e =? "AirportHeliport")); apply Hinv.
Qed.

End GearNotesMap.

(** X22. In the result of [index_airports], every list of gear notes is
    non-empty, holds only notes that pass the gear test, and belongs to an
    airport that has a record in the airports map. *)
Theorem X22_gear_notes_belong_to_indexed_airports :
  forall (pyfloat : Type) (float_of_str : string -> option pyfloat)
         (doc : elem) (k : string) (notes : list string),
    Dict.get String.eqb k (snd (Indexer.index_airports _ float_of_str doc))
    = Some notes ->
    notes <> []
    /\ Forall (fun n => mentions_gear n = true) notes
    /\ Dict.get String.eqb k (fst (Indexer.index_airports _ float_of_str doc))
       <> None.
Proof.
  intros pyfloat float_of_str doc. unfold Indexer.index_airports.
  cbn [fst snd]. unfold Indexer.ap_run.
  apply (fold_left_invariant (Indexer.ap_step pyfloat float_of_str)
           (fun st => forall k notes,
                Dict.get String.eqb k (Indexer.gear_notes _ st) = Some notes ->
                notes <> [] /\ Forall (fun n => mentions_gear n = true) notes
                /\ Dict.get String.eqb k (Indexer.airports _ st) <> None)
           (fun _ => True)).
  - intros st ev _ Hinv. now apply notes_ok_step.
  - apply Forall_forall. auto.
  - intros k notes H. discriminate H.
Qed.

Lemma X22_witness :
  ["A-GEAR BAK-12, (1200 FT)"] <> []
  /\ Forall (fun n => mentions_gear n = true) ["A-GEAR BAK-12, (1200 FT)"]
  /\ Dict.get String.eqb "AH_1"
       (fst (Indexer.index_airports _ Decimal.float_of_str Samples.airport_doc))
     <> None.
Proof.
  apply (X22_gear_notes_belong_to_indexed_airports
           Decimal.dec Decimal.float_of_str Samples.airport_doc "AH_1").
  vm_compute. reflexivity.
Defined.
